(** * Dagster: asset-check helpers, remote repository sensors and the
      declarative-scheduling tick

    A shallow embedding of
    - [dagster/_core/remote_representation/external.py]:
      [CompoundID], [ExternalRepository._external_sensors];
    - [dagster/_core/definitions/asset_check_factories/utils.py]:
      [ensure_no_duplicate_assets], [retrieve_latest_record],
      [retrieve_timestamp_from_record], [seconds_in_words];
    - [test_user_space_ds_api.py]: [execute_ds_tick] and the two-asset
      graph of its test.

    The scheduling core that the test drives (conditions, evaluator,
    cursor) is not among the sources; it is modelled from the specification
    in module [DS], and every definition of that kind says so.

    Python exceptions are values of [result]; [str] is [string]; a finite
    float is the rational it denotes, with exact arithmetic; sets are
    [gset]; a dictionary whose iteration order is observed is an
    association list in insertion order. *)

From Stdlib Require Import QArith Qround Lqa Permutation Ascii.
From stdpp Require Import base strings pretty list gmap sets.

#[local] Set Warnings "-clear-no-such-hyp".

Open Scope Z_scope.

(** ** Exceptions *)

Inductive exn : Type :=
  | DagsterInvariantViolationError (msg : string)
  | CheckError (msg : string)
  | KeyError (key : string).

Inductive result (A : Type) : Type :=
  | Ok (a : A)
  | Raise (e : exn).
Arguments Ok {A} a.
Arguments Raise {A} e.

Global Instance result_ret : MRet result := fun A a => Ok a.
Global Instance result_bind : MBind result := fun A B k r =>
  match r with
  | Ok a => k a
  | Raise e => Raise e
  end.

Global Instance exn_eq_dec : EqDecision exn.
Proof. solve_decision. Defined.

(** ** Python string primitives *)

Module PyStr.

(** [sub in s] *)
Fixpoint contains (sub s : string) : bool :=
  String.prefix sub s ||
  match s with
  | EmptyString => false
  | String _ s' => contains sub s'
  end.

(** [s.endswith(c)] for a one-character [c]. *)
Fixpoint ends_with (c : ascii) (s : string) : bool :=
  match s with
  | EmptyString => false
  | String d EmptyString => bool_decide (d = c)
  | String _ s' => ends_with c s'
  end.

(** [s.split(sep)] for a non-empty [sep] (an empty one raises ValueError):
    the leftmost occurrences of [sep], not overlapping, cut [s].  [skip] counts the characters of a
    separator just matched that are still to be dropped, [cur] is the part
    being read. *)
Fixpoint split_go (sep s : string) (skip : nat) (cur : string) : list string :=
  match s with
  | EmptyString => [cur]
  | String c s' =>
      match skip with
      | S k => split_go sep s' k cur
      | O =>
          if String.prefix sep s
          then cur :: split_go sep s' (String.length sep - 1) ""
          else split_go sep s' 0 (cur +:+ String c "")
      end
  end.

Definition split (s sep : string) : list string := split_go sep s 0 "".

(** [sep.join(parts)] *)
Definition join (sep : string) (parts : list string) : string :=
  String.concat sep parts.

End PyStr.

(** ** external.py: CompoundID *)

Definition _DELIMITER : string := "::".

Record CompoundID : Type := mkCompoundID {
  remote_origin_id : string;
  selector_id : string
}.

Module CompoundId.

Definition to_string (self : CompoundID) : string :=
  remote_origin_id self +:+ _DELIMITER +:+ selector_id self.

Definition from_string (serialized : string) : result CompoundID :=
  let parts := PyStr.split serialized _DELIMITER in
  if bool_decide (length parts ≠ 2%nat)
  then Raise (DagsterInvariantViolationError
                ("Invalid serialized InstigatorID: " +:+ serialized))
  else Ok {| remote_origin_id := nth 0 parts "";
             selector_id := nth 1 parts "" |}.

Definition is_valid_string (serialized : string) : bool :=
  let parts := PyStr.split serialized _DELIMITER in
  bool_decide (length parts = 2%nat).

End CompoundId.

(** ** utils.py: seconds_in_words

    [delta] is a Python float.  A finite float is a rational, and on
    rationals [//] and [%] are the floor quotient and its remainder.  The
    float operations return the same wherever they do not round: with the
    divisors 86400, 3600 and 60 of [seconds_in_words] that is every [delta]
    from 0 up to 2^53, and every integer-valued [delta] down to -2^53.
    Elsewhere they may round (a tiny negative [delta] has remainder 60.0,
    not a number below 60), and the infinities and nan, on which [int]
    raises, are no rationals: the model says nothing of them. *)

Module Py.

(** [a // b], where the float quotient is exact. *)
Definition floordiv (a b : Q) : Q := inject_Z (Qfloor (a / b)).

(** [a % b], where the float remainder is exact. *)
Definition mod_ (a b : Q) : Q := (a - b * floordiv a b)%Q.

(** [int(x)]: truncation towards zero. *)
Definition int (x : Q) : Z :=
  if Qle_bool 0 x then Qfloor x else Qceiling x.

End Py.

(** ["<name>s" if n > 1 else "<name>" if n == 1 else None] *)
Definition unit_of (n : Z) (singular : string) : option string :=
  if 1 <? n then Some (singular +:+ "s")
  else if n =? 1 then Some singular
  else None.

(** [f"{n} {unit}" if unit else None] *)
Definition component (n : Z) (unit : option string) : option string :=
  match unit with
  | Some u => if bool_decide (u = "") then None else Some (pretty n +:+ " " +:+ u)
  | None => None
  end.

(** [filter(None, xs)]: drops [None] and the empty string. *)
Definition filter_None (xs : list (option string)) : list string :=
  omap (fun x => match x with
                 | Some s => if bool_decide (s = "") then None else Some s
                 | None => None
                 end) xs.

(** [int(delta // 86400)] *)
Definition days_of (delta : Q) : Z := Py.int (Py.floordiv delta 86400).
(** [int(delta % 86400 // 3600)] *)
Definition hours_of (delta : Q) : Z :=
  Py.int (Py.floordiv (Py.mod_ delta 86400) 3600).
(** [int((delta % 3600) // 60)] *)
Definition minutes_of (delta : Q) : Z :=
  Py.int (Py.floordiv (Py.mod_ delta 3600) 60).
(** [int(delta % 60)] *)
Definition seconds_of (delta : Q) : Z := Py.int (Py.mod_ delta 60).

Definition seconds_in_words (delta : Q) : string :=
  let days := days_of delta in
  let days_unit := unit_of days "day" in
  let hours := hours_of delta in
  let hours_unit := unit_of hours "hour" in
  let minutes := minutes_of delta in
  let minutes_unit := unit_of minutes "minute" in
  let seconds := seconds_of delta in
  let seconds_unit := unit_of seconds "second" in
  PyStr.join ", "
    (filter_None
       [ component days days_unit;
         component hours hours_unit;
         component minutes minutes_unit;
         component seconds seconds_unit ]).

(** [seconds_in_words] as described: a component for every non-zero count,
    singular exactly at 1. *)
Definition words_component (n : Z) (singular : string) : option string :=
  if n =? 0 then None
  else Some (pretty n +:+ " " +:+ (if n =? 1 then singular else singular +:+ "s")).

Definition seconds_in_words_nonzero (delta : Q) : string :=
  PyStr.join ", "
    (omap id
       [ words_component (days_of delta) "day";
         words_component (hours_of delta) "hour";
         words_component (minutes_of delta) "minute";
         words_component (seconds_of delta) "second" ]).

(** The same with "positive" for "non-zero". *)
Definition positive_component (n : Z) (singular : string) : option string :=
  if 0 <? n
  then Some (pretty n +:+ " " +:+ (if n =? 1 then singular else singular +:+ "s"))
  else None.

Definition seconds_in_words_positive (delta : Q) : string :=
  PyStr.join ", "
    (omap id
       [ positive_component (days_of delta) "day";
         positive_component (hours_of delta) "hour";
         positive_component (minutes_of delta) "minute";
         positive_component (seconds_of delta) "second" ]).

(** ** Asset keys

    [AssetKey]: a path of string segments.  [AssetCheckKey]: an asset key and
    a check name.  [EntityKey] is their union. *)

Record AssetKey : Type := mkAssetKey { path : list string }.

Global Instance AssetKey_eq_dec : EqDecision AssetKey.
Proof. solve_decision. Defined.
Global Instance AssetKey_countable : Countable AssetKey.
Proof. apply (inj_countable' path mkAssetKey). by intros []. Defined.

Record AssetCheckKey : Type := mkAssetCheckKey {
  check_asset_key : AssetKey;
  check_name : string
}.

Global Instance AssetCheckKey_eq_dec : EqDecision AssetCheckKey.
Proof. solve_decision. Defined.
Global Instance AssetCheckKey_countable : Countable AssetCheckKey.
Proof.
  apply (inj_countable' (fun k => (check_asset_key k, check_name k))
           (fun p => mkAssetCheckKey p.1 p.2)).
  by intros [].
Defined.

Inductive EntityKey : Type :=
  | EAsset (k : AssetKey)
  | ECheck (k : AssetCheckKey).

Global Instance EntityKey_eq_dec : EqDecision EntityKey.
Proof. solve_decision. Defined.
Global Instance EntityKey_countable : Countable EntityKey.
Proof.
  apply (inj_countable'
           (fun e => match e with EAsset k => inl k | ECheck k => inr k end)
           (fun s => match s with inl k => EAsset k | inr k => ECheck k end)).
  by intros [].
Defined.

(** [isinstance(key, AssetCheckKey)] *)
Definition is_asset_check_key (e : EntityKey) : bool :=
  match e with ECheck _ => true | EAsset _ => false end.

(** The failure of [check.invariant]: a [CheckError] whose message is
    "Invariant failed. Description: " followed by the description. *)
Definition invariant_failed {A : Type} (desc : string) : result A :=
  Raise (CheckError ("Invariant failed. Description: " +:+ desc)).

(** [check.invariant(condition, desc)] *)
Definition check_invariant (condition : bool) (desc : string) : result unit :=
  if condition then Ok tt else invariant_failed desc.

(** [check.not_none(value)], called without an additional message, which
    the error text prints as None. *)
Definition check_not_none {A : Type} (value : option A) : result A :=
  match value with
  | Some a => Ok a
  | None => Raise (CheckError "Expected non-None value: None")
  end.

(** [check.failed(desc)] *)
Definition check_failed {A : Type} (desc : string) : result A :=
  Raise (CheckError ("Failure condition: " +:+ desc)).

(** ** utils.py: ensure_no_duplicate_assets *)

Section DuplicateAssets.

(** [CoercibleToAssetKey] and [AssetKey.from_coercible_or_definition], and
    the [repr] of a list of asset keys that the error message prints, are
    taken as given. *)
Context {Coercible : Type}.
Variable from_coercible_or_definition : Coercible -> AssetKey.
Variable repr_keys : list AssetKey -> string.

(** One entry of the [assets] argument:
    [Union[CoercibleToAssetKey, AssetsDefinition, SourceAsset]]. *)
Inductive asset_like : Type :=
  | AssetsDefinition (keys : gset AssetKey)
  | SourceAsset (key : AssetKey)
  | CoercibleKey (c : Coercible).

Definition _asset_to_keys_iterable (asset : asset_like) : list AssetKey :=
  match asset with
  | AssetsDefinition keys => elements keys
  | SourceAsset key => [key]
  | CoercibleKey c => [from_coercible_or_definition c]
  end.

Definition assets_to_keys (assets : list asset_like) : list AssetKey :=
  concat (map _asset_to_keys_iterable assets).

(** [xs.count(x)] *)
Definition count (x : AssetKey) (xs : list AssetKey) : nat :=
  length (filter (fun y => y = x) xs).

Definition duplicate_assets_of (asset_keys : list AssetKey) : list AssetKey :=
  filter (fun asset_key => (1 < count asset_key asset_keys)%nat) asset_keys.

Definition duplicate_assets_message (duplicate_assets : list AssetKey) : string :=
  "Found duplicate assets in the provided list of assets: "
    +:+ repr_keys duplicate_assets
    +:+ ". Please ensure that each asset is unique.".

Definition ensure_no_duplicate_assets (assets : list asset_like) : result unit :=
  let asset_keys := assets_to_keys assets in
  let duplicate_assets := duplicate_assets_of asset_keys in
  check_invariant (bool_decide (length duplicate_assets = 0%nat))
    (duplicate_assets_message duplicate_assets).

(** Two entries of the list, at different positions, yield a common key. *)
Definition share_a_key (assets : list asset_like) : Prop :=
  exists (i j : nat) (a b : asset_like) (k : AssetKey),
    i <> j /\ assets !! i = Some a /\ assets !! j = Some b
    /\ k ∈ _asset_to_keys_iterable a /\ k ∈ _asset_to_keys_iterable b.

End DuplicateAssets.

Arguments asset_like Coercible : clear implicits.
Arguments AssetsDefinition {Coercible} keys.
Arguments SourceAsset {Coercible} key.
Arguments CoercibleKey {Coercible} c.

(** ** utils.py: retrieve_latest_record *)

Definition LAST_UPDATED_TIMESTAMP_METADATA_KEY : string :=
  "dagster/last_updated_timestamp".

Inductive DagsterEventType : Type :=
  | ASSET_MATERIALIZATION
  | ASSET_OBSERVATION.

Global Instance DagsterEventType_eq_dec : EqDecision DagsterEventType.
Proof. solve_decision. Defined.

(** The [.value] of a metadata entry; [isinstance(value, float)] holds of
    [FloatValue] only. *)
Inductive MetadataValue : Type :=
  | FloatValue (value : Q)
  | IntValue (value : Z)
  | TextValue (value : string).

Record AssetObservation : Type := mkAssetObservation {
  metadata : gmap string MetadataValue
}.

Record EventLogRecord : Type := mkEventLogRecord {
  storage_id : Z;
  dagster_event_type : DagsterEventType;
  record_asset_key : AssetKey;
  record_partition : option string;
  timestamp : Q;
  asset_observation : option AssetObservation
}.

Record AssetRecordsFilter : Type := mkAssetRecordsFilter {
  filter_asset_key : AssetKey;
  filter_asset_partitions : option (list string)
}.

(** Modelled from the spec: [DagsterInstance] is not among the sources.  The
    event history provider "given an AssetKey and optional partition key,
    returns the most recent materialization/observation record": the
    instance is its event log in storage order, oldest first, and a fetch
    returns the matching records newest first, at most [limit] of them. *)
Record DagsterInstance : Type := mkDagsterInstance {
  event_log : list EventLogRecord
}.

Definition record_matches (kind : DagsterEventType) (f : AssetRecordsFilter)
    (r : EventLogRecord) : bool :=
  bool_decide (dagster_event_type r = kind)
  && bool_decide (record_asset_key r = filter_asset_key f)
  && match filter_asset_partitions f with
     | None => true
     | Some ps =>
         match record_partition r with
         | Some p => bool_decide (p ∈ ps)
         | None => false
         end
     end.

Definition fetch_records (kind : DagsterEventType) (instance : DagsterInstance)
    (records_filter : AssetRecordsFilter) (limit : nat) : list EventLogRecord :=
  take limit (reverse (filter (fun r => record_matches kind records_filter r = true)
                         (event_log instance))).

Definition fetch_materializations := fetch_records ASSET_MATERIALIZATION.
Definition fetch_observations := fetch_records ASSET_OBSERVATION.

(** [metadata[key]]: a missing key raises [KeyError]. *)
Definition getitem (m : gmap string MetadataValue) (key : string)
    : result MetadataValue :=
  match m !! key with
  | Some v => Ok v
  | None => Raise (KeyError key)
  end.

Section TimestampFromRecord.

(** The text Python prints for the class of a metadata entry,
    [str(type(metadata[key]))], is taken as given. *)
Variable type_repr : MetadataValue -> string.

Definition unexpected_metadata_value_type (entry : MetadataValue) : string :=
  "Unexpected metadata value type for '" +:+ LAST_UPDATED_TIMESTAMP_METADATA_KEY
    +:+ "': " +:+ type_repr entry.

(** [check.invariant(isinstance(value, float), ...)] passes on a
    [FloatValue] and on nothing else. *)
Definition retrieve_timestamp_from_record (asset_record : EventLogRecord)
    : result Q :=
  if bool_decide (dagster_event_type asset_record = ASSET_MATERIALIZATION)
  then Ok (timestamp asset_record)
  else
    observation ← check_not_none (asset_observation asset_record);
    entry ← getitem (metadata observation) LAST_UPDATED_TIMESTAMP_METADATA_KEY;
    match entry with
    | FloatValue value => Ok value
    | _ => invariant_failed (unexpected_metadata_value_type entry)
    end.

(** [max(a, b, key=key)]: [b] only when its key is strictly greater. *)
Definition max_by_key {A : Type} (key : A -> result Q) (a b : A) : result A :=
  ka ← key a;
  kb ← key b;
  Ok (if Qlt_le_dec ka kb then b else a).

(** [[partition_key] if partition_key else None]: the empty string is falsy. *)
Definition asset_partitions_of (partition_key : option string)
    : option (list string) :=
  match partition_key with
  | Some p => if bool_decide (p = "") then None else Some [p]
  | None => None
  end.

Definition retrieve_latest_record (instance : DagsterInstance)
    (asset_key : AssetKey) (partition_key : option string)
    : result (option EventLogRecord) :=
  let materializations :=
    fetch_materializations instance
      {| filter_asset_key := asset_key;
         filter_asset_partitions := asset_partitions_of partition_key |} 1 in
  let observations :=
    fetch_observations instance
      {| filter_asset_key := asset_key;
         filter_asset_partitions := asset_partitions_of partition_key |} 1 in
  match materializations, observations with
  | m :: _, o :: _ =>
      r ← max_by_key retrieve_timestamp_from_record m o; Ok (Some r)
  | m :: _, [] => Ok (Some m)
  | [], o :: _ => Ok (Some o)
  | [], [] => Ok None
  end.

End TimestampFromRecord.

(** *** What [retrieve_latest_record] is to return *)

(** The record is of the given kind and asset and, when a partition is
    given, of that partition. *)
Definition of_asset (kind : DagsterEventType) (asset_key : AssetKey)
    (partition_key : option string) (r : EventLogRecord) : Prop :=
  dagster_event_type r = kind
  /\ record_asset_key r = asset_key
  /\ (forall p, partition_key = Some p -> record_partition r = Some p).

Global Instance of_asset_dec kind asset_key partition_key r :
  Decision (of_asset kind asset_key partition_key r).
Proof.
  unfold of_asset. destruct partition_key as [p|].
  - destruct (decide (dagster_event_type r = kind));
      [| right; tauto].
    destruct (decide (record_asset_key r = asset_key));
      [| right; tauto].
    destruct (decide (record_partition r = Some p)) as [Hp|Hp].
    + left. repeat split; [done.. |]. by intros ? [= <-].
    + right. intros (_ & _ & H). by apply Hp, H.
  - destruct (decide (dagster_event_type r = kind));
      [| right; tauto].
    destruct (decide (record_asset_key r = asset_key));
      [| right; tauto].
    left. repeat split; done.
Defined.

(** The latest record of a kind that the asset has, restricted to the
    given partition, if any: the last one in storage order. *)
Definition latest_record (kind : DagsterEventType) (instance : DagsterInstance)
    (asset_key : AssetKey) (partition_key : option string) : option EventLogRecord :=
  last (filter (of_asset kind asset_key partition_key) (event_log instance)).

(** The timestamp the claim extracts from a record: "a materialization's
    storage timestamp, or an observation's dagster/last_updated_timestamp
    metadata value", when the observation carries a float there. *)
Definition extracted_timestamp (r : EventLogRecord) : option Q :=
  match dagster_event_type r with
  | ASSET_MATERIALIZATION => Some (timestamp r)
  | ASSET_OBSERVATION =>
      observation ← asset_observation r;
      match metadata observation !! LAST_UPDATED_TIMESTAMP_METADATA_KEY with
      | Some (FloatValue value) => Some value
      | _ => None
      end
  end.

(** A materialization at time 10 and a later observation that reports an
    update at time 20. *)
Definition example_materialization : EventLogRecord :=
  {| storage_id := 1; dagster_event_type := ASSET_MATERIALIZATION;
     record_asset_key := mkAssetKey ["my_asset"]; record_partition := None;
     timestamp := 10; asset_observation := None |}.

Definition example_observation : EventLogRecord :=
  {| storage_id := 2; dagster_event_type := ASSET_OBSERVATION;
     record_asset_key := mkAssetKey ["my_asset"]; record_partition := None;
     timestamp := 30;
     asset_observation :=
       Some {| metadata := {[ LAST_UPDATED_TIMESTAMP_METADATA_KEY := FloatValue 20 ]} |} |}.

(** An observation that reports no update time. *)
Definition bare_observation : EventLogRecord :=
  {| storage_id := 2; dagster_event_type := ASSET_OBSERVATION;
     record_asset_key := mkAssetKey ["my_asset"]; record_partition := None;
     timestamp := 30;
     asset_observation := Some {| metadata := ∅ |} |}.

(** A materialization of the partition p2. *)
Definition p2_materialization : EventLogRecord :=
  {| storage_id := 3; dagster_event_type := ASSET_MATERIALIZATION;
     record_asset_key := mkAssetKey ["my_asset"]; record_partition := Some "p2";
     timestamp := 40; asset_observation := None |}.

(** The names of the classes of the metadata entries, as an example of
    what Python prints for them. *)
Definition example_type_repr (entry : MetadataValue) : string :=
  match entry with
  | FloatValue _ => "<class 'FloatMetadataValue'>"
  | IntValue _ => "<class 'IntMetadataValue'>"
  | TextValue _ => "<class 'TextMetadataValue'>"
  end.

(** ** external.py: ExternalRepository._external_sensors *)

Inductive SensorType : Type :=
  | STANDARD | RUN_STATUS | ASSET | MULTI_ASSET | FRESHNESS_POLICY
  | AUTO_MATERIALIZE | AUTOMATION | UNKNOWN.

Global Instance SensorType_eq_dec : EqDecision SensorType.
Proof. solve_decision. Defined.

(** What [_external_sensors] reads of the repository's [RemoteAssetGraph]:
    the key sets and, per node, whether an automation condition is attached
    and the auto-observe interval. *)
Record AssetGraph : Type := mkAssetGraph {
  materializable_asset_keys : gset AssetKey;
  observable_asset_keys : gset AssetKey;
  all_asset_keys : gset AssetKey;
  asset_check_keys : gset AssetCheckKey;
  (** [asset_graph.get(key).automation_condition is not None] *)
  automation_condition : EntityKey -> bool;
  auto_observe_interval_minutes : AssetKey -> option Q
}.

(** Modelled from the spec: [AssetSelection] is not among the sources.  The
    spec speaks of "subtracting existing sensor selections from 'select
    all'": the constructors are the selections [_external_sensors] builds
    ([AssetSelection.all], [AssetSelection.all_asset_checks], [|], [-]),
    resolved as sets, [|] to the union and [-] to the difference; any other
    selection, such as the one a user gives a sensor, is an object with the
    two resolution methods. *)
Inductive AssetSelection : Type :=
  | AllSelection (include_sources : bool)
  | AllAssetCheckSelection
  | OrAssetSelection (left right : AssetSelection)
  | SubtractAssetSelection (left right : AssetSelection)
  | OtherSelection (resolve_inner : AssetGraph -> gset AssetKey)
                   (resolve_checks_inner : AssetGraph -> gset AssetCheckKey).

Module Selection.

Definition all (include_sources : bool) : AssetSelection :=
  AllSelection include_sources.
Definition all_asset_checks : AssetSelection := AllAssetCheckSelection.

(** [selection.resolve(asset_graph)] *)
Fixpoint resolve (selection : AssetSelection) (asset_graph : AssetGraph)
    : gset AssetKey :=
  match selection with
  | AllSelection include_sources =>
      if include_sources then all_asset_keys asset_graph
      else materializable_asset_keys asset_graph
  | AllAssetCheckSelection => ∅
  | OrAssetSelection l r => resolve l asset_graph ∪ resolve r asset_graph
  | SubtractAssetSelection l r => resolve l asset_graph ∖ resolve r asset_graph
  | OtherSelection resolve_inner _ => resolve_inner asset_graph
  end.

(** [selection.resolve_checks(asset_graph)]; a selection of assets also
    selects the checks that target them. *)
Fixpoint resolve_checks (selection : AssetSelection) (asset_graph : AssetGraph)
    : gset AssetCheckKey :=
  match selection with
  | AllSelection _ =>
      filter (fun k => check_asset_key k ∈ resolve selection asset_graph)
        (asset_check_keys asset_graph)
  | AllAssetCheckSelection => asset_check_keys asset_graph
  | OrAssetSelection l r =>
      resolve_checks l asset_graph ∪ resolve_checks r asset_graph
  | SubtractAssetSelection l r =>
      resolve_checks l asset_graph ∖ resolve_checks r asset_graph
  | OtherSelection _ resolve_checks_inner => resolve_checks_inner asset_graph
  end.

(** The entity keys a selection covers:
    [selection.resolve(asset_graph) | selection.resolve_checks(asset_graph)]. *)
Definition resolve_entities (selection : AssetSelection) (asset_graph : AssetGraph)
    : gset EntityKey :=
  set_map EAsset (resolve selection asset_graph)
  ∪ set_map ECheck (resolve_checks selection asset_graph).

End Selection.

Record SensorSnap : Type := mkSensorSnap {
  name : string;
  job_name : option string;
  op_selection : option (list string);
  asset_selection : option AssetSelection;
  mode : option string;
  min_interval : option Z;
  description : option string;
  target_dict : list (string * string);
  sensor_metadata : option string;
  default_status : option string;
  sensor_type : option SensorType;
  run_tags : option (list (string * string))
}.

Record ExternalSensor : Type := mkExternalSensor {
  _external_sensor_data : SensorSnap;
  _handle : string
}.

Module Sensor.

Definition name (s : ExternalSensor) : string := name (_external_sensor_data s).

Definition asset_selection (s : ExternalSensor) : option AssetSelection :=
  asset_selection (_external_sensor_data s).

(** [self._external_sensor_data.sensor_type or SensorType.UNKNOWN] *)
Definition sensor_type (s : ExternalSensor) : SensorType :=
  default UNKNOWN (sensor_type (_external_sensor_data s)).

End Sensor.

(** A Python [dict] with string keys, in insertion order. *)
Module Dict.

Definition t (V : Type) : Type := list (string * V).

(** [d[k] = v]: an existing key keeps its place. *)
Fixpoint set {V : Type} (d : t V) (k : string) (v : V) : t V :=
  match d with
  | [] => [(k, v)]
  | (k', v') :: d' => if bool_decide (k' = k) then (k, v) :: d' else (k', v') :: set d' k v
  end.

(** [{key(x): value(x) for x in xs}] *)
Definition of_list {A V : Type} (key : A -> string) (value : A -> V) (xs : list A) : t V :=
  fold_left (fun d x => set d (key x) (value x)) xs [].

Fixpoint get {V : Type} (d : t V) (k : string) : option V :=
  match d with
  | [] => None
  | (k', v) :: d' => if bool_decide (k' = k) then Some v else get d' k
  end.

Definition values {V : Type} (d : t V) : list V := map snd d.
Definition keys {V : Type} (d : t V) : list string := map fst d.

End Dict.

(** What [_external_sensors] reads of an [ExternalRepository]. *)
Record ExternalRepository : Type := mkExternalRepository {
  external_sensor_datas : list SensorSnap;
  repository_handle : string;
  auto_materialize_use_sensors : bool;
  asset_graph : AssetGraph
}.

Module Repository.

Definition get_default_auto_materialize_sensor_name : string :=
  "default_automation_condition_sensor".

Definition is_automation_condition_sensor (sensor : ExternalSensor) : bool :=
  bool_decide (Sensor.sensor_type sensor = AUTO_MATERIALIZE)
  || bool_decide (Sensor.sensor_type sensor = AUTOMATION).

Definition sensor_datas_of (self : ExternalRepository) : Dict.t ExternalSensor :=
  Dict.of_list name (fun d => mkExternalSensor d (repository_handle self))
    (external_sensor_datas self).

(** The sensors of type AUTO_MATERIALIZE or AUTOMATION, in the order the
    dictionary yields them. *)
Definition existing_automation_condition_sensors
    (sensor_datas : Dict.t ExternalSensor) : Dict.t ExternalSensor :=
  List.filter (fun kv => is_automation_condition_sensor kv.2) sensor_datas.

(** First loop: the union of what the existing sensors resolve to. *)
Fixpoint covered_loop (asset_graph : AssetGraph) (sensors : list ExternalSensor)
    (covered_entity_keys : gset EntityKey) : result (gset EntityKey) :=
  match sensors with
  | [] => Ok covered_entity_keys
  | sensor :: rest =>
      selection ← check_not_none (Sensor.asset_selection sensor);
      covered_loop asset_graph rest
        (covered_entity_keys ∪ Selection.resolve_entities selection asset_graph)
  end.

(** The materializable assets and asset checks that carry an automation
    condition. *)
Definition conditioned_entity_keys (asset_graph : AssetGraph) : gset EntityKey :=
  filter (fun entity_key => automation_condition asset_graph entity_key = true)
    (set_map EAsset (materializable_asset_keys asset_graph)
     ∪ set_map ECheck (asset_check_keys asset_graph)).

(** The observable assets the second loop does not skip. *)
Definition auto_observe_asset_keys (asset_graph : AssetGraph) : gset AssetKey :=
  filter (fun asset_key =>
            ¬ (auto_observe_interval_minutes asset_graph asset_key = None
               ∧ automation_condition asset_graph (EAsset asset_key) = false))
    (observable_asset_keys asset_graph).

Definition default_sensor_entity_keys_of (asset_graph : AssetGraph)
    (covered_entity_keys : gset EntityKey) : gset EntityKey :=
  filter (fun entity_key => entity_key ∉ covered_entity_keys)
    (conditioned_entity_keys asset_graph
     ∪ set_map EAsset (auto_observe_asset_keys asset_graph)).

Definition has_any_auto_observe_source_assets_of (asset_graph : AssetGraph) : bool :=
  bool_decide (auto_observe_asset_keys asset_graph ≠ ∅).

(** Last loop: subtract every existing sensor's selection. *)
Fixpoint subtract_loop (sensors : list ExternalSensor)
    (default_sensor_asset_selection : AssetSelection) : result AssetSelection :=
  match sensors with
  | [] => Ok default_sensor_asset_selection
  | sensor :: rest =>
      selection ← check_not_none (Sensor.asset_selection sensor);
      subtract_loop rest
        (SubtractAssetSelection default_sensor_asset_selection selection)
  end.

Definition default_sensor_data_of (default_sensor_asset_selection : AssetSelection)
    : SensorSnap :=
  {| name := get_default_auto_materialize_sensor_name;
     job_name := None;
     op_selection := None;
     asset_selection := Some default_sensor_asset_selection;
     mode := None;
     min_interval := Some 30;
     description := None;
     target_dict := [];
     sensor_metadata := None;
     default_status := None;
     sensor_type := Some AUTO_MATERIALIZE;
     run_tags := None |}.

Definition _external_sensors (self : ExternalRepository)
    : result (Dict.t ExternalSensor) :=
  let sensor_datas := sensor_datas_of self in
  if auto_materialize_use_sensors self then
    let asset_graph := asset_graph self in
    let existing := Dict.values (existing_automation_condition_sensors sensor_datas) in
    covered_entity_keys ← covered_loop asset_graph existing ∅;
    let default_sensor_entity_keys :=
      default_sensor_entity_keys_of asset_graph covered_entity_keys in
    let has_any_auto_observe_source_assets :=
      has_any_auto_observe_source_assets_of asset_graph in
    if bool_decide (default_sensor_entity_keys ≠ ∅) then
      let default_sensor_asset_check_keys :=
        filter (fun key => is_asset_check_key key = true) default_sensor_entity_keys in
      let default_sensor_asset_selection :=
        Selection.all has_any_auto_observe_source_assets in
      let default_sensor_asset_selection :=
        if bool_decide (default_sensor_asset_check_keys ≠ ∅)
        then OrAssetSelection default_sensor_asset_selection Selection.all_asset_checks
        else default_sensor_asset_selection in
      default_sensor_asset_selection ← subtract_loop existing default_sensor_asset_selection;
      let default_sensor_data := default_sensor_data_of default_sensor_asset_selection in
      Ok (Dict.set sensor_datas (name default_sensor_data)
            (mkExternalSensor default_sensor_data (repository_handle self)))
    else Ok sensor_datas
  else Ok sensor_datas.

(** The sensor data [_external_sensors] adds, if it adds any: the same
    computation, stopped before the entry is written. *)
Definition default_sensor (self : ExternalRepository) : result (option SensorSnap) :=
  let sensor_datas := sensor_datas_of self in
  if auto_materialize_use_sensors self then
    let asset_graph := asset_graph self in
    let existing := Dict.values (existing_automation_condition_sensors sensor_datas) in
    covered_entity_keys ← covered_loop asset_graph existing ∅;
    let default_sensor_entity_keys :=
      default_sensor_entity_keys_of asset_graph covered_entity_keys in
    let has_any_auto_observe_source_assets :=
      has_any_auto_observe_source_assets_of asset_graph in
    if bool_decide (default_sensor_entity_keys ≠ ∅) then
      let default_sensor_asset_check_keys :=
        filter (fun key => is_asset_check_key key = true) default_sensor_entity_keys in
      let default_sensor_asset_selection :=
        Selection.all has_any_auto_observe_source_assets in
      let default_sensor_asset_selection :=
        if bool_decide (default_sensor_asset_check_keys ≠ ∅)
        then OrAssetSelection default_sensor_asset_selection Selection.all_asset_checks
        else default_sensor_asset_selection in
      default_sensor_asset_selection ← subtract_loop existing default_sensor_asset_selection;
      Ok (Some (default_sensor_data_of default_sensor_asset_selection))
    else Ok None
  else Ok None.

End Repository.

(** *** What the default sensor is about *)

Module Coverage.

(** The existing automation sensors of a repository: those of its sensors
    whose type is AUTO_MATERIALIZE or AUTOMATION, in the order of the
    repository's sensor dictionary. *)
Definition existing (self : ExternalRepository) : list ExternalSensor :=
  filter (fun sensor => Sensor.sensor_type sensor = AUTO_MATERIALIZE
                        \/ Sensor.sensor_type sensor = AUTOMATION)
    (Dict.values (Repository.sensor_datas_of self)).

(** A materializable asset or an asset check with an automation
    condition, or an observable asset with an auto-observe interval or an
    automation condition. *)
Definition automated (asset_graph : AssetGraph) (entity_key : EntityKey) : Prop :=
  (exists a, entity_key = EAsset a
             /\ a ∈ materializable_asset_keys asset_graph
             /\ automation_condition asset_graph entity_key = true)
  \/ (exists c, entity_key = ECheck c
                /\ c ∈ asset_check_keys asset_graph
                /\ automation_condition asset_graph entity_key = true)
  \/ (exists a, entity_key = EAsset a
                /\ a ∈ observable_asset_keys asset_graph
                /\ (auto_observe_interval_minutes asset_graph a <> None
                    \/ automation_condition asset_graph entity_key = true)).

(** Some auto-observe source asset exists. *)
Definition auto_observed (asset_graph : AssetGraph) : Prop :=
  exists a, a ∈ observable_asset_keys asset_graph
            /\ (auto_observe_interval_minutes asset_graph a <> None
                \/ automation_condition asset_graph (EAsset a) = true).

(** [entity_key] is in the resolved selection of one of the sensors. *)
Definition covered (sensors : list ExternalSensor) (asset_graph : AssetGraph)
    (entity_key : EntityKey) : Prop :=
  exists sensor selection,
    sensor ∈ sensors
    /\ Sensor.asset_selection sensor = Some selection
    /\ entity_key ∈ Selection.resolve_entities selection asset_graph.

(** [AssetSelection.all(include_sources)], with all asset checks if
    [with_checks], minus the selections in turn. *)
Definition all_minus (include_sources with_checks : bool)
    (selections : list AssetSelection) : AssetSelection :=
  fold_left SubtractAssetSelection selections
    (if with_checks
     then OrAssetSelection (Selection.all include_sources) Selection.all_asset_checks
     else Selection.all include_sources).

(** Every sensor of the list has an asset selection. *)
Definition all_selected (sensors : list ExternalSensor) : Prop :=
  Forall (fun s => is_Some (Sensor.asset_selection s)) sensors.

(** What the existing sensors cover, as [_external_sensors] accumulates it. *)
Definition covered_entity_keys (sensors : list ExternalSensor)
    (asset_graph : AssetGraph) : gset EntityKey :=
  ⋃ ((fun sel => Selection.resolve_entities sel asset_graph)
       <$> omap Sensor.asset_selection sensors).

End Coverage.

(** A repository with two materializable assets that carry automation
    conditions, and one AUTOMATION sensor that selects the second only. *)
Definition example_graph : AssetGraph :=
  {| materializable_asset_keys := {[ mkAssetKey ["a"]; mkAssetKey ["b"] ]};
     observable_asset_keys := ∅;
     all_asset_keys := {[ mkAssetKey ["a"]; mkAssetKey ["b"] ]};
     asset_check_keys := ∅;
     automation_condition := fun _ => true;
     auto_observe_interval_minutes := fun _ => None |}.

(** The selection of the second asset. *)
Definition b_selection : AssetSelection :=
  OtherSelection (fun _ => {[ mkAssetKey ["b"] ]}) (fun _ => ∅).

Definition example_sensor : SensorSnap :=
  {| name := "b_sensor";
     job_name := None;
     op_selection := None;
     asset_selection := Some b_selection;
     mode := None;
     min_interval := None;
     description := None;
     target_dict := [];
     sensor_metadata := None;
     default_status := None;
     sensor_type := Some AUTOMATION;
     run_tags := None |}.

Definition example_repository : ExternalRepository :=
  {| external_sensor_datas := [example_sensor];
     repository_handle := "repo";
     auto_materialize_use_sensors := true;
     asset_graph := example_graph |}.

(** An AUTO_MATERIALIZE sensor that selects all asset checks, and the two
    repositories that declare it after and before [example_sensor]. *)
Definition checks_sensor : SensorSnap :=
  {| name := "checks_sensor";
     job_name := None;
     op_selection := None;
     asset_selection := Some Selection.all_asset_checks;
     mode := None;
     min_interval := None;
     description := None;
     target_dict := [];
     sensor_metadata := None;
     default_status := None;
     sensor_type := Some AUTO_MATERIALIZE;
     run_tags := None |}.

Definition repository_b_checks : ExternalRepository :=
  {| external_sensor_datas := [example_sensor; checks_sensor];
     repository_handle := "repo";
     auto_materialize_use_sensors := true;
     asset_graph := example_graph |}.

Definition repository_checks_b : ExternalRepository :=
  {| external_sensor_datas := [checks_sensor; example_sensor];
     repository_handle := "repo";
     auto_materialize_use_sensors := true;
     asset_graph := example_graph |}.

(** An AUTOMATION sensor without asset selection, alone in a repository. *)
Definition unselected_sensor : SensorSnap :=
  {| name := "unselected_sensor";
     job_name := None;
     op_selection := None;
     asset_selection := None;
     mode := None;
     min_interval := None;
     description := None;
     target_dict := [];
     sensor_metadata := None;
     default_status := None;
     sensor_type := Some AUTOMATION;
     run_tags := None |}.

Definition unselected_repository : ExternalRepository :=
  {| external_sensor_datas := [unselected_sensor];
     repository_handle := "repo";
     auto_materialize_use_sensors := true;
     asset_graph := example_graph |}.

(** ** The declarative-scheduling tick

    Modelled from the spec: the conditions, the condition evaluator, the
    subset model and the cursor ([AutomationCondition],
    [SchedulingConditionEvaluator], [AssetGraphView], [AssetDaemonCursor],
    [AssetConditionEvaluationState]) are not among the sources; only the
    driver [execute_ds_tick] and its test are.  What follows is sections 3,
    4.3 and 4.4 of the specification. *)

(** Modelled from the spec: [AutomationCondition] is not among the sources.
    "AssetCondition (Condition Tree node)": leaf predicates ("is missing",
    "in-progress run exists", "parent updated since cursor", "matches cron
    schedule tick"), the combinators AND, OR, NOT, and "since". *)
Inductive AutomationCondition : Type :=
  | Missing
  | InProgress
  | ParentUpdated
  | CronTickPassed (cron_schedule : string)
  | AndCondition (left right : AutomationCondition)
  | OrCondition (left right : AutomationCondition)
  | NotCondition (operand : AutomationCondition)
  | SinceCondition (trigger reset : AutomationCondition).

Global Instance AutomationCondition_eq_dec : EqDecision AutomationCondition.
Proof. solve_decision. Defined.

Module SC.

Definition missing : AutomationCondition := Missing.

Definition cron (cron_schedule : string) : AutomationCondition :=
  CronTickPassed cron_schedule.

(** Modelled from the spec: "eager" is "materialize if missing or parent
    updated". *)
Definition eager : AutomationCondition := OrCondition Missing ParentUpdated.

End SC.

Module DS.

(** Modelled from the spec: [AssetKeyPartitionKey] (dagster/_core/definitions/
    events.py, not among the sources), "(AssetKey, optional Partition Key)
    pair". *)
Record AssetKeyPartitionKey : Type := mkAssetKeyPartitionKey {
  asset_key : AssetKey;
  partition_key : option string
}.

Global Instance AssetKeyPartitionKey_eq_dec : EqDecision AssetKeyPartitionKey.
Proof. solve_decision. Defined.
Global Instance AssetKeyPartitionKey_countable : Countable AssetKeyPartitionKey.
Proof.
  apply (inj_countable' (fun k => (asset_key k, partition_key k))
           (fun p => mkAssetKeyPartitionKey p.1 p.2)).
  by intros [].
Defined.

(** Modelled from the spec: "EntitySubset: a set of AssetKeyPartitionKey
    values scoped to a single asset"; within one asset it is the set of
    its partition keys, an unpartitioned asset having the one partition
    [None]. *)
Abbreviation partitions := (gset (option string)).

Record EntitySubset : Type := mkEntitySubset {
  subset_key : AssetKey;
  subset_value : partitions
}.

Definition asset_partitions (s : EntitySubset) : gset AssetKeyPartitionKey :=
  set_map (mkAssetKeyPartitionKey (subset_key s)) (subset_value s).

(** [true_subset.bool_value]: the subset is not empty. *)
Definition bool_value (s : EntitySubset) : bool :=
  bool_decide (subset_value s ≠ ∅).

(** Modelled from the spec: the per-node record "the condition's
    value_hash, the resulting true-subset, per-child sub-evaluations, and an
    optional extra-state payload". *)
#[local] Unset Elimination Schemes.
Inductive Evaluation : Type :=
  mkEvaluation (value_hash : string) (true_subset : partitions)
    (child_evaluations : list Evaluation) (extra_state : option partitions).

#[local] Set Elimination Schemes.

Definition value_hash (e : Evaluation) : string :=
  match e with mkEvaluation h _ _ _ => h end.
Definition true_subset (e : Evaluation) : partitions :=
  match e with mkEvaluation _ t _ _ => t end.
Definition child_evaluations (e : Evaluation) : list Evaluation :=
  match e with mkEvaluation _ _ cs _ => cs end.
Definition extra_state (e : Evaluation) : option partitions :=
  match e with mkEvaluation _ _ _ x => x end.

(** Modelled from the spec: [AssetConditionEvaluationState], "a per-asset,
    per-tick, serializable record". *)
Record AssetConditionEvaluationState : Type := mkState {
  state_key : AssetKey;
  state_evaluation : Evaluation
}.

Definition state_true_subset (s : AssetConditionEvaluationState) : EntitySubset :=
  {| subset_key := state_key s;
     subset_value := true_subset (state_evaluation s) |}.

(** Modelled from the spec: [AssetDaemonCursor], "a monotonically increasing
    evaluation id, a mapping from AssetKey to its latest
    AssetConditionEvaluationState, and a timestamp watermark"; "created
    empty at system start". *)
Record AssetDaemonCursor : Type := mkCursor {
  evaluation_id : Z;
  previous_evaluation_state : gmap AssetKey Evaluation;
  evaluation_timestamp : option Q
}.

Definition empty : AssetDaemonCursor :=
  {| evaluation_id := 0; previous_evaluation_state := ∅;
     evaluation_timestamp := None |}.

(** Modelled from the spec: [AssetGraphView], what the evaluator is given by
    its collaborators (section 6): the graph with each asset's parents,
    valid partitions and condition, the event history, the runs in progress,
    the time of the tick and the cron calendar. *)
Record AssetGraphView : Type := mkView {
  parents : AssetKey -> list AssetKey;
  valid_partitions : AssetKey -> partitions;
  condition : AssetKey -> option AutomationCondition;
  instance : DagsterInstance;
  in_progress : gset AssetKeyPartitionKey;
  effective_time : Q;
  (** a tick of the schedule lies after the first time and not after the
      second *)
  cron_tick_between : string -> option Q -> Q -> bool
}.

Section Evaluate.

(** The hash function behind [value_hash]: from a kind, its parameters
    and the hashes of the children. *)
Variable digest : string -> list string -> list string -> string.

(** Modelled from the spec: a node's "stable, content-derived identity
    (value_hash) computed from its kind, parameters, and children's
    hashes". *)
Fixpoint condition_hash (c : AutomationCondition) : string :=
  match c with
  | Missing => digest "missing" [] []
  | InProgress => digest "in_progress" [] []
  | ParentUpdated => digest "parent_updated" [] []
  | CronTickPassed s => digest "cron" [s] []
  | AndCondition a b => digest "and" [] [condition_hash a; condition_hash b]
  | OrCondition a b => digest "or" [] [condition_hash a; condition_hash b]
  | NotCondition a => digest "not" [] [condition_hash a]
  | SinceCondition a b => digest "since" [] [condition_hash a; condition_hash b]
  end.

(** What one evaluation reads: the view, the cursor, the asset, and what
    the assets before it in the tick have requested. *)
Record Context : Type := mkContext {
  view : AssetGraphView;
  cursor : AssetDaemonCursor;
  key : AssetKey;
  requested_this_tick : gset AssetKeyPartitionKey
}.

Definition is_missing (ctx : Context) (p : option string) : Prop :=
  latest_record ASSET_MATERIALIZATION (instance (view ctx)) (key ctx) p = None.

(** [t] is after the watermark, if there is one. *)
Definition after_watermark (watermark : option Q) (t : Q) : bool :=
  match watermark with
  | Some w => if Qlt_le_dec w t then true else false
  | None => true
  end.

(** A parent was requested earlier in this tick, or has a
    materialization newer than the cursor's watermark. *)
Definition parent_updated (ctx : Context) (parent : AssetKey) : bool :=
  bool_decide (parent ∈ (set_map asset_key (requested_this_tick ctx)
                         : gset AssetKey))
  || existsb (fun r =>
                bool_decide (dagster_event_type r = ASSET_MATERIALIZATION)
                && bool_decide (record_asset_key r = parent)
                && after_watermark (evaluation_timestamp (cursor ctx))
                     (timestamp r))
       (event_log (instance (view ctx))).

(** Modelled from the spec: the true-subset of a leaf predicate within the
    candidate subset. *)
Definition leaf_subset (ctx : Context) (candidate : partitions)
    (c : AutomationCondition) : partitions :=
  match c with
  | Missing => filter (is_missing ctx) candidate
  | InProgress =>
      filter (fun p => mkAssetKeyPartitionKey (key ctx) p ∈ in_progress (view ctx))
        candidate
  | ParentUpdated =>
      if existsb (parent_updated ctx) (parents (view ctx) (key ctx))
      then candidate else ∅
  | CronTickPassed s =>
      if cron_tick_between (view ctx) s (evaluation_timestamp (cursor ctx))
           (effective_time (view ctx))
      then candidate else ∅
  | _ => ∅
  end.

(** Modelled from the spec: the previous state of a node is "matched by
    matching value_hash; on mismatch, treated as no prior state -- i.e.,
    cold start for that node only, not the whole asset". *)
Definition matching (c : AutomationCondition) (previous : option Evaluation)
    : option Evaluation :=
  match previous with
  | Some e => if bool_decide (value_hash e = condition_hash c) then Some e else None
  | None => None
  end.

(** What the previous tick recorded for the [i]-th child; the child
    matches it against its own hash. *)
Definition child (previous : option Evaluation) (i : nat) : option Evaluation :=
  e ← previous; child_evaluations e !! i.

(** Modelled from the spec: "since" is "seeded from prior tick's stored
    subset, or empty on cold start"; stale partitions are dropped. *)
Definition since_seed (candidate : partitions) (previous : option Evaluation)
    : partitions :=
  match previous ≫= extra_state with
  | Some running => running ∩ candidate
  | None => ∅
  end.

(** Modelled from the spec: [evaluate(context) -> (true_subset,
    evaluation_state)] of a condition node.  "AND intersects children's
    true-subsets, OR unions them, NOT inverts within the candidate subset
    ... result = (result - reset_true_subset) | trigger_true_subset".  Every
    child is evaluated. *)
Fixpoint evaluate (ctx : Context) (candidate : partitions)
    (c : AutomationCondition) (previous : option Evaluation) : Evaluation :=
  let matched := matching c previous in
  let h := condition_hash c in
  match c with
  | AndCondition a b =>
      let ea := evaluate ctx candidate a (child previous 0) in
      let eb := evaluate ctx candidate b (child previous 1) in
      mkEvaluation h (true_subset ea ∩ true_subset eb) [ea; eb] None
  | OrCondition a b =>
      let ea := evaluate ctx candidate a (child previous 0) in
      let eb := evaluate ctx candidate b (child previous 1) in
      mkEvaluation h (true_subset ea ∪ true_subset eb) [ea; eb] None
  | NotCondition a =>
      let ea := evaluate ctx candidate a (child previous 0) in
      mkEvaluation h (candidate ∖ true_subset ea) [ea] None
  | SinceCondition a b =>
      let ea := evaluate ctx candidate a (child previous 0) in
      let eb := evaluate ctx candidate b (child previous 1) in
      let result :=
        (since_seed candidate matched ∖ true_subset eb) ∪ true_subset ea in
      mkEvaluation h result [ea; eb] (Some result)
  | leaf => mkEvaluation h (leaf_subset ctx candidate leaf) [] None
  end.

(** *** The evaluator (section 4.4) *)

(** Modelled from the spec: "ties broken by stable lexical order of
    AssetKey". *)
Fixpoint path_leb (a b : list string) : bool :=
  match a, b with
  | [], _ => true
  | _ :: _, [] => false
  | x :: a', y :: b' =>
      if String.ltb x y then true
      else if String.eqb x y then path_leb a' b' else false
  end.

Definition key_leb (a b : AssetKey) : bool := path_leb (path a) (path b).

Definition least (ks : list AssetKey) : option AssetKey :=
  foldr (fun k acc =>
           match acc with
           | None => Some k
           | Some m => Some (if key_leb k m then k else m)
           end) None ks.

(** Modelled from the spec: step 1, "topologically sort
    candidate_asset_keys": repeatedly emit the least key none of whose
    parents is still to come.  Keys on a dependency cycle are never ready
    and are left out. *)
Fixpoint toposort_go (parents : AssetKey -> list AssetKey) (fuel : nat)
    (remaining emitted : list AssetKey) : list AssetKey :=
  match fuel with
  | O => emitted
  | S fuel' =>
      let ready :=
        filter (fun k => Forall (fun p => p ∉ remaining) (parents k)) remaining in
      match least ready with
      | Some k =>
          toposort_go parents fuel' (filter (fun k' => k' ≠ k) remaining)
            (emitted ++ [k])
      | None => emitted
      end
  end.

Definition toposort (parents : AssetKey -> list AssetKey)
    (keys : list AssetKey) : list AssetKey :=
  toposort_go parents (length keys) keys [].

(** Modelled from the spec: step 2 for one asset.  The candidate subset is
    the asset's valid partitions; the previous state is the cursor's entry
    for the asset. *)
Definition evaluate_asset (v : AssetGraphView) (c : AssetDaemonCursor)
    (requested : gset AssetKeyPartitionKey) (k : AssetKey)
    : option AssetConditionEvaluationState :=
  cond ← condition v k;
  Some {| state_key := k;
          state_evaluation :=
            evaluate {| view := v; cursor := c; key := k;
                        requested_this_tick := requested |}
              (valid_partitions v k) cond
              (previous_evaluation_state c !! k) |}.

(** Modelled from the spec: steps 2 and 3, record the state and add its
    true-subset to what is requested, which the assets after it see. *)
Definition step (v : AssetGraphView) (c : AssetDaemonCursor)
    (acc : list AssetConditionEvaluationState * gset AssetKeyPartitionKey)
    (k : AssetKey)
    : list AssetConditionEvaluationState * gset AssetKeyPartitionKey :=
  match evaluate_asset v c acc.2 k with
  | Some st => (acc.1 ++ [st], acc.2 ∪ asset_partitions (state_true_subset st))
  | None => acc
  end.

(** Modelled from the spec: [SchedulingConditionEvaluator.evaluate] (not
    among the sources), [evaluate(asset_graph, candidate_asset_keys, cursor)
    -> (evaluation_states, requested_subset)]. *)
Definition evaluator_evaluate (v : AssetGraphView)
    (candidate_asset_keys : list AssetKey) (c : AssetDaemonCursor)
    : list AssetConditionEvaluationState * gset AssetKeyPartitionKey :=
  fold_left (step v c) (toposort (parents v) candidate_asset_keys) ([], ∅).

(** Modelled from the spec: step 4, the cursor of the next tick. *)
Definition next_cursor (v : AssetGraphView) (c : AssetDaemonCursor)
    (states : list AssetConditionEvaluationState) : AssetDaemonCursor :=
  {| evaluation_id := evaluation_id c + 1;
     previous_evaluation_state :=
       list_to_map ((fun st => (state_key st, state_evaluation st)) <$> states);
     evaluation_timestamp := Some (effective_time v) |}.

(** *** test_user_space_ds_api.py *)

Record SchedulingTickResult : Type := mkSchedulingTickResult {
  evaluation_states : list AssetConditionEvaluationState;
  asset_partition_keys : gset AssetKeyPartitionKey
}.

(** [execute_ds_tick(defs)]: one tick over all asset keys, from the
    empty cursor. *)
Definition execute_ds_tick (asset_graph_view : AssetGraphView)
    (all_asset_keys : list AssetKey) : SchedulingTickResult :=
  let result := evaluator_evaluate asset_graph_view all_asset_keys empty in
  {| evaluation_states := result.1; asset_partition_keys := result.2 |}.

End Evaluate.

(** The definitions of [test_basic_asset_scheduling_test]: [downstream]
    depends on [upstream], both unpartitioned, both eager, nothing
    materialized. *)
Definition upstream : AssetKey := mkAssetKey ["upstream"].
Definition downstream : AssetKey := mkAssetKey ["downstream"].

Definition two_asset_view (now : Q) (cron : string -> option Q -> Q -> bool)
    : AssetGraphView :=
  {| parents := fun k => if decide (k = downstream) then [upstream] else [];
     valid_partitions := fun _ => {[ None ]};
     condition := fun k =>
       if decide (k = upstream \/ k = downstream) then Some SC.eager else None;
     instance := {| event_log := [] |};
     in_progress := ∅;
     effective_time := now;
     cron_tick_between := cron |}.

End DS.

(** * Further code of the same files *)

(** ** external.py: instigator state of sensors and schedules *)

(** [InstigatorStatus], [InstigatorType]: the enumerations
    [get_current_instigator_state] uses. *)
Module InstigatorStatus.
Inductive t : Type := RUNNING | STOPPED | DECLARED_IN_CODE.
Global Instance eq_dec : EqDecision t.
Proof. solve_decision. Defined.
End InstigatorStatus.

Module InstigatorType.
Inductive t : Type := SCHEDULE | SENSOR.
End InstigatorType.

(** [DefaultSensorStatus] and [DefaultScheduleStatus], each by the value of
    its member, as the snapshots hold it. *)
Module DefaultStatus.
Definition RUNNING : string := "RUNNING".
Definition STOPPED : string := "STOPPED".
End DefaultStatus.

(** [SensorInstigatorData(min_interval, sensor_type)] and
    [ScheduleInstigatorData(cron_schedule, start_timestamp)]. *)
Inductive InstigatorData : Type :=
  | SensorInstigatorData (min_interval : Z) (sensor_type : SensorType)
  | ScheduleInstigatorData (cron_schedule : string) (start_timestamp : option Q).

(** [ScheduleSnap], as far as [ExternalSchedule] reads it here. *)
Record ScheduleSnap : Type := mkScheduleSnap {
  snap_name : string;
  snap_cron_schedule : string;
  snap_job_name : string;
  snap_default_status : option string
}.

Record ExternalSchedule : Type := mkExternalSchedule {
  _external_schedule_data : ScheduleSnap;
  _schedule_handle : string
}.

Section InstigatorState.

(** [InstigatorState] (dagster/_core/scheduler/instigation.py) is not among
    the sources: its constructor, its [status] and its [with_status] are
    taken as given, and so is the remote origin of a handle. *)
Context {InstigatorState Origin : Type}.
Variable make_state :
  Origin -> InstigatorType.t -> InstigatorStatus.t -> InstigatorData -> InstigatorState.
Variable status : InstigatorState -> InstigatorStatus.t.
Variable with_status : InstigatorState -> InstigatorStatus.t -> InstigatorState.
Variable get_remote_origin : string -> Origin.
Variable DEFAULT_SENSOR_DAEMON_INTERVAL : Z.

(** [self._external_sensor_data.default_status or DefaultSensorStatus.STOPPED] *)
Definition sensor_default_status (self : ExternalSensor) : string :=
  default DefaultStatus.STOPPED (default_status (_external_sensor_data self)).

(** [ExternalSensor.min_interval_seconds]: a [min_interval] of 0 is falsy. *)
Definition min_interval_seconds (self : ExternalSensor) : Z :=
  match min_interval (_external_sensor_data self) with
  | Some n => if bool_decide (n = 0) then DEFAULT_SENSOR_DAEMON_INTERVAL else n
  | None => DEFAULT_SENSOR_DAEMON_INTERVAL
  end.

(** [ExternalSensor.get_current_instigator_state] *)
Definition sensor_get_current_instigator_state (self : ExternalSensor)
    (stored_state : option InstigatorState) : InstigatorState :=
  if bool_decide (sensor_default_status self = DefaultStatus.RUNNING) then
    match stored_state with
    | Some stored => stored
    | None =>
        make_state (get_remote_origin (_handle self)) InstigatorType.SENSOR
          InstigatorStatus.DECLARED_IN_CODE
          (SensorInstigatorData (min_interval_seconds self) (Sensor.sensor_type self))
    end
  else
    match stored_state with
    | Some stored =>
        if bool_decide (status stored = InstigatorStatus.DECLARED_IN_CODE)
        then with_status stored InstigatorStatus.STOPPED
        else stored
    | None =>
        make_state (get_remote_origin (_handle self)) InstigatorType.SENSOR
          InstigatorStatus.STOPPED
          (SensorInstigatorData (min_interval_seconds self) (Sensor.sensor_type self))
    end.

(** [self._external_schedule_data.default_status or DefaultScheduleStatus.STOPPED] *)
Definition schedule_default_status (self : ExternalSchedule) : string :=
  default DefaultStatus.STOPPED
    (snap_default_status (_external_schedule_data self)).

(** [ExternalSchedule.get_current_instigator_state] *)
Definition schedule_get_current_instigator_state (self : ExternalSchedule)
    (stored_state : option InstigatorState) : InstigatorState :=
  if bool_decide (schedule_default_status self = DefaultStatus.RUNNING) then
    match stored_state with
    | Some stored => stored
    | None =>
        make_state (get_remote_origin (_schedule_handle self)) InstigatorType.SCHEDULE
          InstigatorStatus.DECLARED_IN_CODE
          (ScheduleInstigatorData (snap_cron_schedule (_external_schedule_data self)) None)
    end
  else
    match stored_state with
    | Some stored =>
        if bool_decide (status stored = InstigatorStatus.DECLARED_IN_CODE)
        then with_status stored InstigatorStatus.STOPPED
        else stored
    | None =>
        make_state (get_remote_origin (_schedule_handle self)) InstigatorType.SCHEDULE
          InstigatorStatus.STOPPED
          (ScheduleInstigatorData (snap_cron_schedule (_external_schedule_data self)) None)
    end.

(** What the laws of [InstigatorState] are: the constructor stores the
    status, and [with_status] replaces it. *)
Definition status_laws : Prop :=
  (forall o t s d, status (make_state o t s d) = s)
  /\ (forall st s, status (with_status st s) = s).

End InstigatorState.

(** A plain record that meets the laws. *)
Record PlainState : Type := mkPlainState {
  plain_origin : string;
  plain_type : InstigatorType.t;
  plain_status : InstigatorStatus.t;
  plain_data : InstigatorData
}.

Definition plain_with_status (st : PlainState) (s : InstigatorStatus.t) : PlainState :=
  {| plain_origin := plain_origin st; plain_type := plain_type st;
     plain_status := s; plain_data := plain_data st |}.

(** ** external.py: the sensors and schedules of a repository, by name *)

Module RepositorySensors.

(** [ExternalRepository.has_external_sensor] *)
Definition has_external_sensor (self : ExternalRepository) (sensor_name : string)
    : result bool :=
  sensors ← Repository._external_sensors self;
  Ok (bool_decide (sensor_name ∈ Dict.keys sensors)).

(** [ExternalRepository.get_external_sensor]: [d[sensor_name]], a KeyError
    when there is no such sensor. *)
Definition get_external_sensor (self : ExternalRepository) (sensor_name : string)
    : result ExternalSensor :=
  sensors ← Repository._external_sensors self;
  match Dict.get sensors sensor_name with
  | Some sensor => Ok sensor
  | None => Raise (KeyError sensor_name)
  end.

(** [ExternalRepository.get_external_sensors] *)
Definition get_external_sensors (self : ExternalRepository)
    : result (list ExternalSensor) :=
  sensors ← Repository._external_sensors self;
  Ok (Dict.values sensors).

End RepositorySensors.

(** [ExternalRepositoryData], as far as the functions below read it.
    [PartitionsSnap] is the type of [AssetNodeSnap.partitions]. *)
Record AssetNodeSnap (PartitionsSnap : Type) : Type := mkAssetNodeSnap {
  node_asset_key : AssetKey;
  node_job_names : list string;
  node_partitions : option PartitionsSnap
}.
Arguments mkAssetNodeSnap {PartitionsSnap} _ _ _.
Arguments node_asset_key {PartitionsSnap} _.
Arguments node_job_names {PartitionsSnap} _.
Arguments node_partitions {PartitionsSnap} _.

Record AssetCheckNodeSnap : Type := mkAssetCheckNodeSnap {
  check_node_key : AssetCheckKey;
  check_node_job_names : list string
}.

Record ExternalRepositoryData (PartitionsSnap : Type) : Type := mkExternalRepositoryData {
  external_schedule_datas : list ScheduleSnap;
  external_asset_graph_data : list (AssetNodeSnap PartitionsSnap);
  external_asset_checks : option (list AssetCheckNodeSnap)
}.
Arguments mkExternalRepositoryData {PartitionsSnap} _ _ _.
Arguments external_schedule_datas {PartitionsSnap} _.
Arguments external_asset_graph_data {PartitionsSnap} _.
Arguments external_asset_checks {PartitionsSnap} _.

Module RepositorySchedules.

(** [ExternalRepository._external_schedules] *)
Definition _external_schedules {P : Type} (data : ExternalRepositoryData P)
    (handle : string) : Dict.t ExternalSchedule :=
  Dict.of_list snap_name (fun d => mkExternalSchedule d handle)
    (external_schedule_datas data).

Definition has_external_schedule {P : Type} (data : ExternalRepositoryData P)
    (handle : string) (schedule_name : string) : bool :=
  bool_decide (schedule_name ∈ Dict.keys (_external_schedules data handle)).

Definition get_external_schedule {P : Type} (data : ExternalRepositoryData P)
    (handle : string) (schedule_name : string) : result ExternalSchedule :=
  match Dict.get (_external_schedules data handle) schedule_name with
  | Some schedule => Ok schedule
  | None => Raise (KeyError schedule_name)
  end.

Definition get_external_schedules {P : Type} (data : ExternalRepositoryData P)
    (handle : string) : list ExternalSchedule :=
  Dict.values (_external_schedules data handle).

End RepositorySchedules.

(** ** external.py: the asset nodes of a repository, by job *)

Module RepositoryAssets.

(** [jobs.setdefault(job_name, []).append(node)] *)
Definition setdefault_append {N : Type} (jobs : gmap string (list N))
    (job_name : string) (node : N) : gmap string (list N) :=
  <[job_name := default [] (jobs !! job_name) ++ [node]]> jobs.

(** The two loops of [ExternalRepository.__init__] that fill [_asset_jobs]
    and [_asset_check_jobs]. *)
Definition group_by_job {N : Type} (job_names : N -> list string) (nodes : list N)
    : gmap string (list N) :=
  fold_left
    (fun jobs node =>
       fold_left (fun jobs job_name => setdefault_append jobs job_name node)
         (job_names node) jobs)
    nodes ∅.

(** What a job's entry holds once the loops are done: each node once for
    each time the job is among its job names, in the order of [nodes]. *)
Definition filed_under {N : Type} (job_names : N -> list string) (job_name : string)
    (nodes : list N) : list N :=
  flat_map (fun node => (fun _ => node) <$> filter (fun j => j = job_name) (job_names node))
    nodes.

Section Getters.

Context {PartitionsSnap : Type}.
Implicit Type data : ExternalRepositoryData PartitionsSnap.

Definition _asset_jobs data : gmap string (list (AssetNodeSnap PartitionsSnap)) :=
  group_by_job node_job_names (external_asset_graph_data data).

Definition _asset_check_jobs data : gmap string (list AssetCheckNodeSnap) :=
  group_by_job check_node_job_names (default [] (external_asset_checks data)).

(** [get_asset_node_snaps]: the test is [job_name is None]. *)
Definition get_asset_node_snaps data (job_name : option string)
    : list (AssetNodeSnap PartitionsSnap) :=
  match job_name with
  | None => external_asset_graph_data data
  | Some job_name => default [] (_asset_jobs data !! job_name)
  end.

(** [get_asset_node_snap]: [matching[0] if matching else None]. *)
Definition get_asset_node_snap data (asset_key : AssetKey)
    : option (AssetNodeSnap PartitionsSnap) :=
  head (filter (fun asset_node => node_asset_key asset_node = asset_key)
          (external_asset_graph_data data)).

(** [get_asset_check_node_snaps]: the test is [if job_name], which the
    empty string fails as [None] does. *)
Definition get_asset_check_node_snaps data (job_name : option string)
    : list AssetCheckNodeSnap :=
  match job_name with
  | Some job_name =>
      if bool_decide (job_name <> "")
      then default [] (_asset_check_jobs data !! job_name)
      else default [] (external_asset_checks data)
  | None => default [] (external_asset_checks data)
  end.

(** [PartitionsSnap.get_partitions_definition] is taken as given; the
    definitions it returns are hashable. *)
Context {PartitionsDefinition : Type} `{Countable PartitionsDefinition}.
Variable get_partitions_definition : PartitionsSnap -> PartitionsDefinition.

(** [selected_asset_keys is not None and asset_node.asset_key not in
    selected_asset_keys] *)
Definition not_selected (selected_asset_keys : option (gset AssetKey))
    (asset_node : AssetNodeSnap PartitionsSnap) : bool :=
  match selected_asset_keys with
  | Some keys => bool_decide (node_asset_key asset_node ∉ keys)
  | None => false
  end.

(** The loop of [_get_partitions_def_for_job]. *)
Definition unique_partitions_defs_of (selected_asset_keys : option (gset AssetKey))
    (asset_nodes : list (AssetNodeSnap PartitionsSnap)) : gset PartitionsDefinition :=
  fold_left
    (fun unique_partitions_defs asset_node =>
       if not_selected selected_asset_keys asset_node
       then unique_partitions_defs
       else match node_partitions asset_node with
            | Some partitions =>
                unique_partitions_defs ∪ {[get_partitions_definition partitions]}
            | None => unique_partitions_defs
            end)
    asset_nodes ∅.

Definition _get_partitions_def_for_job data (job_name : string)
    (selected_asset_keys : option (gset AssetKey)) : result PartitionsDefinition :=
  let asset_nodes := get_asset_node_snaps data (Some job_name) in
  let unique_partitions_defs :=
    unique_partitions_defs_of selected_asset_keys asset_nodes in
  match elements unique_partitions_defs with
  | [partitions_def] => Ok partitions_def
  | _ =>
      check_failed
        ("There is no PartitionsDefinition shared by all the provided assets. "
           +:+ pretty (size unique_partitions_defs)
           +:+ " unique PartitionsDefinitions.")
  end.

(** The partitions of the nodes [_get_partitions_def_for_job] looks at: the
    partitioned nodes of the job, within the selection when there is one. *)
Definition selected_partitions data (job_name : string)
    (selected_asset_keys : option (gset AssetKey)) : list PartitionsSnap :=
  omap node_partitions
    (filter (fun asset_node => not_selected selected_asset_keys asset_node = false)
       (get_asset_node_snaps data (Some job_name))).

End Getters.

End RepositoryAssets.

Definition example_repository_data : ExternalRepositoryData string :=
  {| external_schedule_datas := [];
     external_asset_graph_data :=
       [ mkAssetNodeSnap (mkAssetKey ["a"]) ["job1"; "job2"] (Some "daily");
         mkAssetNodeSnap (mkAssetKey ["b"]) ["job1"] None;
         mkAssetNodeSnap (mkAssetKey ["c"]) ["job2"] (Some "daily") ];
     external_asset_checks := None |}.

(** ** external.py: ExternalExecutionPlan *)

Module ExecutionPlan.

Record StepOutputHandle : Type := mkStepOutputHandle {
  step_key : string;
  output_name : string
}.

Record ExecutionStepInputSnap : Type := mkExecutionStepInputSnap {
  input_name : string;
  upstream_output_handles : list StepOutputHandle
}.

Record ExecutionStepSnap : Type := mkExecutionStepSnap {
  key : string;
  inputs : list ExecutionStepInputSnap
}.

Record ExecutionPlanSnapshot : Type := mkExecutionPlanSnapshot {
  steps : list ExecutionStepSnap;
  step_keys_to_execute : list string
}.

(** [for x in xs: state = body(state, x)], which stops at the first
    exception. *)
Fixpoint for_each {A S : Type} (body : S -> A -> result S) (xs : list A) (state : S)
    : result S :=
  match xs with
  | [] => Ok state
  | x :: xs => state ← body state x; for_each body xs state
  end.

(** [{step.key: step for step in snapshot.steps}] *)
Definition _step_index (snapshot : ExecutionPlanSnapshot)
    : gmap string ExecutionStepSnap :=
  fold_left (fun index step => <[key step := step]> index) (steps snapshot) ∅.

(** [set(step_keys_to_execute) if step_keys_to_execute else
    set(_step_index.keys())]: an empty list is falsy. *)
Definition _step_keys_in_plan (snapshot : ExecutionPlanSnapshot) : gset string :=
  match step_keys_to_execute snapshot with
  | [] => dom (_step_index snapshot)
  | keys => list_to_set keys
  end.

(** [list(self._step_keys_in_plan)]: the set in its iteration order. *)
Definition step_keys_in_plan (snapshot : ExecutionPlanSnapshot) : list string :=
  elements (_step_keys_in_plan snapshot).

Definition get_step_by_key (snapshot : ExecutionPlanSnapshot) (k : string)
    : result ExecutionStepSnap :=
  match _step_index snapshot !! k with
  | Some step => Ok step
  | None => Raise (KeyError k)
  end.

Definition get_steps_in_plan (snapshot : ExecutionPlanSnapshot)
    : result (list ExecutionStepSnap) :=
  for_each (fun acc sk => step ← get_step_by_key snapshot sk; Ok (acc ++ [step]))
    (step_keys_in_plan snapshot) [].

Definition key_in_plan (snapshot : ExecutionPlanSnapshot) (k : string) : bool :=
  bool_decide (k ∈ _step_keys_in_plan snapshot).

(** [deps[k].update(new)]: a KeyError when [deps] has no entry for [k]. *)
Definition update (deps : gmap string (gset string)) (k : string) (new : gset string)
    : result (gmap string (gset string)) :=
  match deps !! k with
  | Some old => Ok (<[k := old ∪ new]> deps)
  | None => Raise (KeyError k)
  end.

(** [execution_deps], computed as on the first call (later calls return
    the dictionary kept in [_deps]). *)
Definition execution_deps (snapshot : ExecutionPlanSnapshot)
    : result (gmap string (gset string)) :=
  let plan := _step_keys_in_plan snapshot in
  let deps :=
    fold_left (fun deps k => <[k := ∅]> deps) (elements plan) ∅ in
  for_each
    (fun deps k =>
       step ← get_step_by_key snapshot k;
       for_each
         (fun deps step_input =>
            update deps (key step)
              (list_to_set (step_key <$> upstream_output_handles step_input) ∩ plan))
         (inputs step) deps)
    (elements plan) deps.

(** The step keys that a step's inputs name as upstream. *)
Definition upstream_step_keys (step : ExecutionStepSnap) : gset string :=
  ⋃ ((fun step_input =>
        list_to_set (C := gset string)
          (step_key <$> upstream_output_handles step_input))
       <$> inputs step).

(** What a key's entry gains in the second loop of [execution_deps]. *)
Definition gain (snapshot : ExecutionPlanSnapshot) (k : string) : gset string :=
  match _step_index snapshot !! k with
  | Some step => upstream_step_keys step ∩ _step_keys_in_plan snapshot
  | None => ∅
  end.

Definition example_plan : ExecutionPlanSnapshot :=
  {| steps :=
       [ mkExecutionStepSnap "a" [];
         mkExecutionStepSnap "b"
           [mkExecutionStepInputSnap "x" [mkStepOutputHandle "a" "result"]];
         mkExecutionStepSnap "c"
           [mkExecutionStepInputSnap "y" [mkStepOutputHandle "b" "result"]] ];
     step_keys_to_execute := ["b"; "c"] |}.

End ExecutionPlan.

(** ** utils.py: ensure_no_duplicate_asset_checks *)

(** What [ensure_no_duplicate_asset_checks] reads of an
    [AssetChecksDefinition]: its [check_keys], a set. *)
Record AssetChecksDefinition : Type := mkAssetChecksDefinition {
  check_keys : gset AssetCheckKey
}.

Section DuplicateAssetChecks.

(** The [repr] of a list of check keys, which the message prints. *)
Variable repr_check_keys : list AssetCheckKey -> string.

Definition check_keys_of (asset_checks : list AssetChecksDefinition)
    : list AssetCheckKey :=
  concat (map (fun asset_check => elements (check_keys asset_check)) asset_checks).

(** [xs.count(x)] *)
Definition count_check (x : AssetCheckKey) (xs : list AssetCheckKey) : nat :=
  length (filter (fun y => y = x) xs).

Definition duplicate_asset_checks_of (asset_check_keys : list AssetCheckKey)
    : list AssetCheckKey :=
  filter (fun asset_check_key => (1 < count_check asset_check_key asset_check_keys)%nat)
    asset_check_keys.

Definition duplicate_asset_checks_message (duplicate_asset_checks : list AssetCheckKey)
    : string :=
  "Found duplicate asset checks in the provided list of asset checks: "
    +:+ repr_check_keys duplicate_asset_checks
    +:+ ". Please ensure that each provided asset check is unique.".

Definition ensure_no_duplicate_asset_checks (asset_checks : list AssetChecksDefinition)
    : result unit :=
  let asset_check_keys := check_keys_of asset_checks in
  let duplicate_asset_checks := duplicate_asset_checks_of asset_check_keys in
  check_invariant (bool_decide (length duplicate_asset_checks = 0%nat))
    (duplicate_asset_checks_message duplicate_asset_checks).

(** A check key that two definitions of the list, at different positions,
    both have. *)
Definition shared_check_key (asset_checks : list AssetChecksDefinition)
    (k : AssetCheckKey) : Prop :=
  exists (i j : nat) (a b : AssetChecksDefinition),
    i <> j /\ asset_checks !! i = Some a /\ asset_checks !! j = Some b
    /\ k ∈ check_keys a /\ k ∈ check_keys b.

End DuplicateAssetChecks.

(** ** utils.py: get_last_updated_timestamp *)

Section LastUpdatedTimestamp.

(** [EventLogRecord.asset_materialization] and [AssetKey.to_user_string]
    are taken as given. *)
Context {AssetMaterialization : Type}.
Variable asset_materialization : EventLogRecord -> option AssetMaterialization.
Variable to_user_string : AssetKey -> string.

(** [check.float_param(obj, param_name)] *)
Definition check_float_param (obj : MetadataValue) (param_name : string) : result Q :=
  match obj with
  | FloatValue value => Ok value
  | _ => Raise (CheckError ("Param " +:+ param_name +:+ " is not a float."))
  end.

Definition last_updated_warning (record : EventLogRecord) : string :=
  "Could not find last updated timestamp in observation record for asset key "
    +:+ to_user_string (record_asset_key record)
    +:+ ". Please set dagster/last_updated_timestamp in the metadata of the observation record on assets which have freshness checks.".

(** [get_last_updated_timestamp]: the warnings written to [context.log],
    and the outcome. *)
Definition get_last_updated_timestamp (record : option EventLogRecord)
    : list string * result (option Q) :=
  match record with
  | None => ([], Ok None)
  | Some record =>
      match asset_materialization record with
      | Some _ => ([], Ok (Some (timestamp record)))
      | None =>
          match asset_observation record with
          | Some observation =>
              match metadata observation !! "dagster/last_updated_timestamp" with
              | Some metadata_value =>
                  ([], value ← check_float_param metadata_value "last_updated_timestamp";
                       Ok (Some value))
              | None => ([last_updated_warning record], Ok None)
              end
          | None =>
              ([], check_failed "Expected record to be an observation or materialization")
          end
      end
  end.

End LastUpdatedTimestamp.

(** ** utils.py: get_description_for_freshness_check_result *)

(** The truth value of an [Optional[float]]: [None] and [0.0] are falsy. *)
Definition truthy_float (x : option Q) : bool :=
  match x with
  | Some value => negb (Qeq_bool value 0)
  | None => false
  end.

(** The truth value of an [Optional[str]]: [None] and the empty string are
    falsy. *)
Definition truthy_str (s : option string) : bool :=
  match s with
  | Some s => bool_decide (s <> "")
  | None => false
  end.

(** [f"{s}"] of an [Optional[str]] *)
Definition format_str (s : option string) : string := default "None" s.

(** [last_update_time_lower_bound] stands for
    [last_update_time_lower_bound.timestamp()]. *)
Definition get_description_for_freshness_check_result (passed : bool)
    (update_timestamp : option Q) (last_update_time_lower_bound : Q)
    (current_timestamp : Q) (expected_partition_key : option string)
    (record_arrival_timestamp : option Q) (event_type : option DagsterEventType)
    : result string :=
  _ ← check_invariant
        ((passed && bool_decide (update_timestamp <> None)) || negb passed)
        "Should not be possible for check to pass without an update to the asset.";
  let out_of_date_observation :=
    match record_arrival_timestamp with
    | None => true
    | Some arrival =>
        (if Qlt_le_dec arrival last_update_time_lower_bound then true else false)
        && bool_decide (event_type = Some ASSET_OBSERVATION)
    end in
  let update_time_delta_str :=
    match update_timestamp with
    | Some value =>
        if truthy_float update_timestamp
        then Some (seconds_in_words (current_timestamp - value))
        else None
    | None => None
    end in
  let last_update_time_lower_bound_delta_str :=
    seconds_in_words (current_timestamp - last_update_time_lower_bound) in
  Ok (if passed && truthy_str expected_partition_key then
        "Partition " +:+ format_str expected_partition_key
          +:+ " is fresh. Expected the partition to arrive within the last "
          +:+ last_update_time_lower_bound_delta_str
          +:+ ", and it arrived " +:+ format_str update_time_delta_str +:+ " ago."
      else if negb passed && truthy_str expected_partition_key then
        "Partition " +:+ format_str expected_partition_key
          +:+ " is overdue. Expected the partition to arrive within the last "
          +:+ last_update_time_lower_bound_delta_str +:+ "."
      else if passed && truthy_float update_timestamp then
        "Asset is fresh. Expected an update within the last "
          +:+ last_update_time_lower_bound_delta_str
          +:+ ", and found an update " +:+ format_str update_time_delta_str +:+ " ago."
      else if negb passed && truthy_float update_timestamp && out_of_date_observation then
        "Asset is in an unknown state. Expected an update within the last "
          +:+ last_update_time_lower_bound_delta_str
          +:+ ", but we have not received an observation in that time, so we can't determine the state of the asset."
      else
        "Asset is overdue. Expected an update within the last "
          +:+ last_update_time_lower_bound_delta_str +:+ ".").

(** Whether a description says that the partition or the asset is fresh. *)
Definition says_fresh (expected_partition_key : option string) (description : string)
    : bool :=
  String.prefix ("Partition " +:+ format_str expected_partition_key +:+ " is fresh.")
    description
  || String.prefix "Asset is fresh." description.

(** Whether a description says that the partition or the asset is overdue. *)
Definition says_overdue (expected_partition_key : option string) (description : string)
    : bool :=
  String.prefix ("Partition " +:+ format_str expected_partition_key +:+ " is overdue.")
    description
  || String.prefix "Asset is overdue." description.

(** ** utils.py: seconds_in_words, where the float operations are exact

    A [delta] on which [//] and [%] by 86400, 3600 and 60 do not round:
    below 2^53 in absolute value, and not negative or else integer-valued.
    There the remainder [fmod] computes is exact, the difference and the
    quotient Python forms from it are integers below 2^53, and the sign
    correction of a negative remainder adds two integers. *)
Definition exact_delta (delta : Q) : Prop :=
  (- 9007199254740992 < delta)%Q /\ (delta < 9007199254740992)%Q
  /\ ((0 <= delta)%Q \/ exists n : Z, (delta == inject_Z n)%Q).

(** * Theorems *)

(** ** Python strings *)

Section PyStrFacts.

Lemma append_nil_l (s : string) : "" +:+ s = s.
Proof. reflexivity. Qed.

Lemma append_cons (c : ascii) (s t : string) :
  String c s +:+ t = String c (s +:+ t).
Proof. reflexivity. Qed.

Lemma append_empty_r (s : string) : s +:+ "" = s.
Proof.
  induction s as [|c s IH]; [done |]. by rewrite append_cons, IH.
Qed.

Lemma append_assoc (s t u : string) : (s +:+ t) +:+ u = s +:+ t +:+ u.
Proof.
  induction s as [|c s IH]; [done |]. by rewrite !append_cons, IH.
Qed.

Lemma prefix_nil (s : string) : String.prefix "" s = true.
Proof. by destruct s. Qed.

Lemma prefix_cons (a b : ascii) (s t : string) :
  String.prefix (String a s) (String b t)
  = if ascii_dec a b then String.prefix s t else false.
Proof. reflexivity. Qed.

Lemma prefix_delimiter (s : string) :
  String.prefix _DELIMITER (_DELIMITER +:+ s) = true.
Proof.
  unfold _DELIMITER. rewrite !append_cons, append_nil_l, !prefix_cons.
  destruct (ascii_dec ":" ":"); [apply prefix_nil | congruence].
Qed.

Lemma split_go_skip (sep s : string) (c : ascii) (k : nat) (cur : string) :
  PyStr.split_go sep (String c s) (S k) cur = PyStr.split_go sep s k cur.
Proof. reflexivity. Qed.

Lemma split_go_hit (sep s : string) (c : ascii) (cur : string) :
  String.prefix sep (String c s) = true ->
  PyStr.split_go sep (String c s) 0 cur
  = cur :: PyStr.split_go sep s (String.length sep - 1) "".
Proof. intros H. cbn [PyStr.split_go]. by rewrite H. Qed.

Lemma split_go_miss (sep s : string) (c : ascii) (cur : string) :
  String.prefix sep (String c s) = false ->
  PyStr.split_go sep (String c s) 0 cur
  = PyStr.split_go sep s 0 (cur +:+ String c "").
Proof. intros H. cbn [PyStr.split_go]. by rewrite H. Qed.

Lemma prefix_append (s t : string) : String.prefix s (s +:+ t) = true.
Proof.
  induction s as [|c s IH]; [by destruct t |].
  rewrite append_cons. cbn [String.prefix].
  destruct (ascii_dec c c); [done | congruence].
Qed.

Lemma contains_prefix (sub s : string) :
  String.prefix sub s = true -> PyStr.contains sub s = true.
Proof. intros H. destruct s; cbn [PyStr.contains]; by rewrite H. Qed.

Lemma contains_append (sub t u : string) :
  PyStr.contains sub (sub +:+ u) = true.
Proof. apply contains_prefix, prefix_append. Qed.

Lemma contains_self (s : string) : PyStr.contains s s = true.
Proof.
  apply contains_prefix. rewrite <- (append_empty_r s) at 2. apply prefix_append.
Qed.

(** What a string contains, it still contains behind a prefix. *)
Lemma contains_behind (sub p s : string) :
  PyStr.contains sub s = true -> PyStr.contains sub (p +:+ s) = true.
Proof.
  intros H. induction p as [|c p IH]; [by rewrite append_nil_l |].
  rewrite append_cons. cbn [PyStr.contains]. rewrite IH. apply orb_true_r.
Qed.

(** A string without the delimiter is one part. *)
Lemma split_go_no_delimiter (s cur : string) :
  PyStr.contains _DELIMITER s = false ->
  PyStr.split_go _DELIMITER s 0 cur = [cur +:+ s].
Proof.
  revert cur. induction s as [|c s IH]; intros cur H.
  - simpl. by rewrite append_empty_r.
  - cbn [PyStr.contains] in H. apply orb_false_iff in H as [Hp Hc].
    rewrite (split_go_miss _ _ _ _ Hp), (IH _ Hc), append_assoc. done.
Qed.

(** Reading [r], then the delimiter, closes the part [cur +:+ r], provided
    no delimiter starts inside [r] or on its last character. *)
Lemma split_go_first_part (r s cur : string) :
  PyStr.contains _DELIMITER (r +:+ ":") = false ->
  PyStr.split_go _DELIMITER (r +:+ _DELIMITER +:+ s) 0 cur
  = (cur +:+ r) :: PyStr.split_go _DELIMITER s 0 "".
Proof.
  revert cur. induction r as [|c r IH]; intros cur H.
  - rewrite append_nil_l, append_empty_r.
    pose proof (prefix_delimiter s) as Hp. revert Hp.
    unfold _DELIMITER at 2 4. rewrite !append_cons, append_nil_l. intros Hp.
    rewrite (split_go_hit _ _ _ _ Hp). unfold _DELIMITER at 2.
    cbn [String.length Nat.sub]. by rewrite split_go_skip.
  - rewrite append_cons in H. cbn [PyStr.contains] in H.
    apply orb_false_iff in H as [Hp Hc].
    rewrite append_cons.
    assert (String.prefix _DELIMITER (String c (r +:+ _DELIMITER +:+ s)) = false)
      as Hmiss.
    { revert Hp. unfold _DELIMITER at 1 2. rewrite !prefix_cons.
      destruct (ascii_dec ":" c); [|done].
      destruct r as [|d r].
      - rewrite append_nil_l, prefix_cons.
        destruct (ascii_dec ":" ":"); [by rewrite prefix_nil | congruence].
      - rewrite !append_cons, !prefix_cons.
        destruct (ascii_dec ":" d); [by rewrite prefix_nil | done]. }
    rewrite (split_go_miss _ _ _ _ Hmiss), (IH _ Hc), append_assoc. done.
Qed.

Lemma split_two_parts (r s : string) :
  PyStr.contains _DELIMITER (r +:+ ":") = false ->
  PyStr.contains _DELIMITER s = false ->
  PyStr.split (r +:+ _DELIMITER +:+ s) _DELIMITER = [r; s].
Proof.
  intros Hr Hs. unfold PyStr.split.
  rewrite (split_go_first_part _ _ _ Hr), (split_go_no_delimiter _ _ Hs). done.
Qed.

(** [r +:+ ":"] has no delimiter exactly when [r] has none and does not end
    with a colon. *)
Lemma contains_delimiter_colon (r : string) :
  PyStr.contains _DELIMITER (r +:+ ":") = false <->
  PyStr.contains _DELIMITER r = false /\ PyStr.ends_with ":" r = false.
Proof.
  unfold _DELIMITER. induction r as [|c r IH].
  - rewrite append_nil_l. done.
  - rewrite append_cons. cbn [PyStr.contains]. rewrite !orb_false_iff, IH.
    destruct r as [|d r].
    + rewrite append_nil_l, !prefix_cons. cbn [PyStr.ends_with].
      destruct (ascii_dec ":" c) as [<-|Hne].
      * destruct (ascii_dec ":" ":"); [|congruence].
        rewrite bool_decide_eq_true_2 by done. intuition congruence.
      * rewrite bool_decide_eq_false_2 by congruence. intuition congruence.
    + rewrite !append_cons, !prefix_cons. cbn [PyStr.ends_with].
      rewrite !prefix_nil. destruct (ascii_dec ":" c); tauto.
Qed.

Lemma ends_with_colon (r : string) :
  PyStr.ends_with ":" r = true -> exists r', r = r' +:+ ":".
Proof.
  induction r as [|c r IH]; [done |]. cbn [PyStr.ends_with].
  destruct r as [|d r].
  - intros ->%bool_decide_eq_true. by exists "".
  - intros [r' Hr']%IH. exists (String c r'). by rewrite append_cons, <- Hr'.
Qed.

Lemma append_colon_ne (r : string) : r +:+ ":" <> r.
Proof.
  induction r as [|c r IH]; [done |]. rewrite append_cons. by intros [= ?].
Qed.

(** With a colon at the end of [r], the first delimiter of
    [r +:+ "::" +:+ s] starts one character early. *)
Lemma split_trailing_colon (r' s : string) :
  PyStr.contains _DELIMITER (r' +:+ ":") = false ->
  exists rest,
    PyStr.split ((r' +:+ ":") +:+ _DELIMITER +:+ s) _DELIMITER = r' :: rest.
Proof.
  intros Hr. unfold PyStr.split. rewrite append_assoc.
  change (":" +:+ _DELIMITER +:+ s) with (_DELIMITER +:+ ":" +:+ s).
  rewrite (split_go_first_part _ _ _ Hr). eauto.
Qed.

End PyStrFacts.

(** C9 (as amended).  [from_string] undoes [to_string] on every CompoundID
    whose two ids hold no "::" and whose [remote_origin_id] does not end with
    a colon, and on none whose [remote_origin_id] holds no "::" but ends with
    a colon; and [from_string] raises DagsterInvariantViolationError exactly
    when the split on "::" does not give two parts, which is exactly when
    [is_valid_string] is false. *)
Theorem CompoundID_from_string_to_string (id : CompoundID) (serialized : string) :
  (PyStr.contains _DELIMITER (remote_origin_id id) = false ->
   PyStr.ends_with ":" (remote_origin_id id) = false ->
   PyStr.contains _DELIMITER (selector_id id) = false ->
   CompoundId.from_string (CompoundId.to_string id) = Ok id)
  /\ (PyStr.contains _DELIMITER (remote_origin_id id) = false ->
      PyStr.ends_with ":" (remote_origin_id id) = true ->
      CompoundId.from_string (CompoundId.to_string id) <> Ok id)
  /\ (CompoundId.from_string serialized
       = Raise (DagsterInvariantViolationError
                  ("Invalid serialized InstigatorID: " +:+ serialized))
      <-> length (PyStr.split serialized _DELIMITER) <> 2%nat)
  /\ ((exists e, CompoundId.from_string serialized = Raise e)
      <-> CompoundId.is_valid_string serialized = false)
  /\ (length (PyStr.split serialized _DELIMITER) <> 2%nat
      <-> CompoundId.is_valid_string serialized = false).
Proof.
  repeat split.
  - intros Hr Hc Hs. unfold CompoundId.from_string, CompoundId.to_string.
    rewrite split_two_parts; [by destruct id | | done].
    by apply contains_delimiter_colon.
  - intros Hr [r' Hr']%ends_with_colon.
    destruct id as [r s]. cbn in *. subst r.
    unfold CompoundId.from_string, CompoundId.to_string. cbn.
    destruct (split_trailing_colon r' s Hr) as [rest ->].
    case_bool_decide; [done |]. cbn. intros [= Heq _].
    by apply (append_colon_ne r').
  - unfold CompoundId.from_string. case_bool_decide; [done | discriminate].
  - intros H. unfold CompoundId.from_string. by rewrite bool_decide_eq_true_2.
  - intros [e He]. unfold CompoundId.from_string, CompoundId.is_valid_string in *.
    case_bool_decide; [by rewrite bool_decide_eq_false_2 | discriminate].
  - intros H. unfold CompoundId.from_string, CompoundId.is_valid_string in *.
    apply bool_decide_eq_false in H. rewrite bool_decide_eq_true_2 by done. eauto.
  - intros H. unfold CompoundId.is_valid_string. by rewrite bool_decide_eq_false_2.
  - unfold CompoundId.is_valid_string. by intros H%bool_decide_eq_false.
Qed.

Lemma CompoundID_from_string_to_string_witness :
  CompoundId.from_string (CompoundId.to_string (mkCompoundID "4f2a" "9c0d"))
  = Ok (mkCompoundID "4f2a" "9c0d").
Proof.
  apply (proj1 (CompoundID_from_string_to_string (mkCompoundID "4f2a" "9c0d") ""));
    reflexivity.
Defined.

(** C9, as first stated, fails: neither "a:" nor "b" holds "::", yet
    "a:" + "::" + "b" is "a:::b", which splits into "a" and ":b". *)
Lemma CompoundID_roundtrip_trailing_colon :
  PyStr.contains _DELIMITER (remote_origin_id (mkCompoundID "a:" "b")) = false
  /\ PyStr.contains _DELIMITER (selector_id (mkCompoundID "a:" "b")) = false
  /\ CompoundId.from_string (CompoundId.to_string (mkCompoundID "a:" "b"))
     = Ok (mkCompoundID "a" ":b")
  /\ CompoundId.from_string (CompoundId.to_string (mkCompoundID "a:" "b"))
     <> Ok (mkCompoundID "a:" "b").
Proof. repeat split; try reflexivity. vm_compute. discriminate. Qed.

Example split_examples :
  PyStr.split "a::b" _DELIMITER = ["a"; "b"]
  /\ PyStr.split "a::::b" _DELIMITER = ["a"; ""; "b"]
  /\ PyStr.split "a::b::" _DELIMITER = ["a"; "b"; ""]
  /\ PyStr.split "abc" _DELIMITER = ["abc"]
  /\ PyStr.split "" _DELIMITER = [""].
Proof. repeat split. Qed.

(** ** seconds_in_words *)

Section SecondsInWords.

Lemma int_inject_Z (z : Z) : Py.int (inject_Z z) = z.
Proof.
  unfold Py.int. destruct (Qle_bool 0 (inject_Z z));
    [apply Qfloor_Z | apply Qceiling_Z].
Qed.

Lemma int_nonneg (x : Q) : (0 <= x)%Q -> Py.int x = Qfloor x.
Proof.
  intros H. unfold Py.int. apply Qle_bool_iff in H. by rewrite H.
Qed.

Lemma floor_bounds (x : Q) :
  (inject_Z (Qfloor x) <= x /\ x < inject_Z (Qfloor x) + 1)%Q.
Proof.
  split; [apply Qfloor_le |].
  pose proof (Qlt_floor x) as H. by rewrite inject_Z_plus in H.
Qed.

Lemma floor_range (x : Q) (lo hi : Z) :
  (inject_Z lo <= x)%Q -> (x < inject_Z hi)%Q -> lo <= Qfloor x < hi.
Proof.
  intros Hlo Hhi. split.
  - rewrite <- (Qfloor_Z lo). by apply Qfloor_resp_le.
  - rewrite Zlt_Qlt. eapply Qle_lt_trans; [apply Qfloor_le | done].
Qed.

Lemma mod_86400 (a : Q) : (0 <= Py.mod_ a 86400 /\ Py.mod_ a 86400 < 86400)%Q.
Proof.
  unfold Py.mod_, Py.floordiv.
  destruct (floor_bounds (a / 86400)) as [H1 H2]. revert H1 H2.
  generalize (inject_Z (Qfloor (a / 86400))). intros q.
  change (a / 86400)%Q with (a * (1 # 86400))%Q. lra.
Qed.

Lemma mod_3600 (a : Q) : (0 <= Py.mod_ a 3600 /\ Py.mod_ a 3600 < 3600)%Q.
Proof.
  unfold Py.mod_, Py.floordiv.
  destruct (floor_bounds (a / 3600)) as [H1 H2]. revert H1 H2.
  generalize (inject_Z (Qfloor (a / 3600))). intros q.
  change (a / 3600)%Q with (a * (1 # 3600))%Q. lra.
Qed.

Lemma mod_60 (a : Q) : (0 <= Py.mod_ a 60 /\ Py.mod_ a 60 < 60)%Q.
Proof.
  unfold Py.mod_, Py.floordiv.
  destruct (floor_bounds (a / 60)) as [H1 H2]. revert H1 H2.
  generalize (inject_Z (Qfloor (a / 60))). intros q.
  change (a / 60)%Q with (a * (1 # 60))%Q. lra.
Qed.

Lemma hours_range (delta : Q) : 0 <= hours_of delta < 24.
Proof.
  unfold hours_of, Py.floordiv. rewrite int_inject_Z.
  destruct (mod_86400 delta) as [H1 H2]. revert H1 H2.
  generalize (Py.mod_ delta 86400). intros m H1 H2.
  apply floor_range; change (m / 3600)%Q with (m * (1 # 3600))%Q;
    change (inject_Z 0) with 0%Q; change (inject_Z 24) with 24%Q; lra.
Qed.

Lemma minutes_range (delta : Q) : 0 <= minutes_of delta < 60.
Proof.
  unfold minutes_of, Py.floordiv. rewrite int_inject_Z.
  destruct (mod_3600 delta) as [H1 H2]. revert H1 H2.
  generalize (Py.mod_ delta 3600). intros m H1 H2.
  apply floor_range; change (m / 60)%Q with (m * (1 # 60))%Q;
    change (inject_Z 0) with 0%Q; change (inject_Z 60) with 60%Q; lra.
Qed.

Lemma seconds_range (delta : Q) : 0 <= seconds_of delta < 60.
Proof.
  unfold seconds_of. destruct (mod_60 delta) as [H1 H2].
  rewrite (int_nonneg _ H1). by apply floor_range.
Qed.

Lemma days_floor (delta : Q) : days_of delta = Qfloor (delta / 86400).
Proof. unfold days_of, Py.floordiv. apply int_inject_Z. Qed.

Lemma days_nonneg (delta : Q) : (0 <= delta)%Q -> 0 <= days_of delta.
Proof.
  intros H. rewrite days_floor, <- (Qfloor_Z 0). apply Qfloor_resp_le.
  change (delta / 86400)%Q with (delta * (1 # 86400))%Q.
  change (inject_Z 0) with 0%Q. lra.
Qed.

Lemma days_negative (delta : Q) : (delta < 0)%Q -> days_of delta < 0.
Proof.
  intros H. rewrite days_floor, Zlt_Qlt.
  eapply Qle_lt_trans; [apply Qfloor_le |].
  change (delta / 86400)%Q with (delta * (1 # 86400))%Q.
  change (inject_Z 0) with 0%Q. lra.
Qed.

Lemma floor_unit (x : Q) : (0 <= x)%Q -> (x < 1)%Q -> Qfloor x = 0.
Proof.
  intros H0 H1. pose proof (floor_range x 0 1 H0 H1). lia.
Qed.

Lemma small_delta (delta : Q) :
  (0 <= delta)%Q -> (delta < 1)%Q ->
  days_of delta = 0 /\ hours_of delta = 0
  /\ minutes_of delta = 0 /\ seconds_of delta = 0.
Proof.
  intros H0 H1.
  assert (forall c : positive, Qfloor (delta / (Zpos c # 1)) = 0) as Hq.
  { intros c. apply floor_unit.
    - apply Qle_shift_div_l; [done | lra].
    - apply Qlt_shift_div_r; [done |].
      assert (1 <= Zpos c # 1)%Q by (unfold Qle; simpl; lia). lra. }
  assert (forall c : positive, (Py.mod_ delta (Zpos c # 1) == delta)%Q) as Hm.
  { intros c. unfold Py.mod_, Py.floordiv. rewrite Hq.
    change (inject_Z 0) with 0%Q. ring. }
  unfold days_of, hours_of, minutes_of, seconds_of, Py.floordiv.
  rewrite !int_inject_Z.
  rewrite !(Qfloor_comp _ _ (Qdiv_comp _ _ (Hm _) _ _ (Qeq_refl _))).
  rewrite !Hq. rewrite int_nonneg by (rewrite Hm; lra).
  rewrite (Qfloor_comp _ _ (Hm _)).
  repeat split; try done. by apply floor_unit.
Qed.

Lemma nonempty_append (s t : string) (c : ascii) : s +:+ String c t <> "".
Proof. by destruct s. Qed.

Lemma filter_None_some (s : string) (xs : list (option string)) :
  s <> "" -> filter_None (Some s :: xs) = s :: filter_None xs.
Proof.
  intros H. unfold filter_None. cbn [omap list_omap].
  by rewrite bool_decide_eq_false_2.
Qed.

Lemma filter_None_none (xs : list (option string)) :
  filter_None (None :: xs) = filter_None xs.
Proof. reflexivity. Qed.

Lemma component_unit_of (n : Z) (singular : string) :
  singular <> "" ->
  component n (unit_of n singular) = positive_component n singular.
Proof.
  intros Hne. unfold component, unit_of, positive_component.
  destruct (Z.ltb_spec 1 n) as [Hn|Hn].
  - assert ((0 <? n) = true) as -> by lia.
    assert ((n =? 1) = false) as -> by lia.
    rewrite bool_decide_eq_false_2; [done |].
    destruct singular; [done | discriminate].
  - destruct (Z.eqb_spec n 1) as [->|Hn1].
    + by rewrite bool_decide_eq_false_2.
    + by assert ((0 <? n) = false) as -> by lia.
Qed.

Lemma positive_component_nonempty (n : Z) (singular s : string) :
  positive_component n singular = Some s -> s <> "".
Proof.
  unfold positive_component. destruct (0 <? n); [|done].
  intros [= <-]. change (" " +:+ ?x) with (String " " x).
  apply nonempty_append.
Qed.

Lemma filter_None_positive (ns : list (Z * string)) :
  filter_None (map (fun p => positive_component p.1 p.2) ns)
  = omap id (map (fun p => positive_component p.1 p.2) ns).
Proof.
  induction ns as [|[n u] ns IH]; [done |].
  cbn [map fst snd]. destruct (positive_component n u) as [s|] eqn:E.
  - rewrite filter_None_some by (by eapply positive_component_nonempty).
    cbn [omap list_omap id]. by rewrite <- IH.
  - rewrite filter_None_none. cbn [omap list_omap id]. by rewrite <- IH.
Qed.

Lemma seconds_in_words_is_positive (delta : Q) :
  seconds_in_words delta = seconds_in_words_positive delta.
Proof.
  unfold seconds_in_words, seconds_in_words_positive.
  rewrite !component_unit_of by done.
  exact (f_equal (PyStr.join ", ")
           (filter_None_positive
              [ (days_of delta, "day"); (hours_of delta, "hour");
                (minutes_of delta, "minute"); (seconds_of delta, "second") ])).
Qed.

Lemma positive_component_nonneg (n : Z) (singular : string) :
  0 <= n -> positive_component n singular = words_component n singular.
Proof.
  intros H. unfold positive_component, words_component.
  destruct (Z.eqb_spec n 0) as [->|Hn]; [done |].
  by assert ((0 <? n) = true) as -> by lia.
Qed.

End SecondsInWords.

(** C10 (as amended).  [seconds_in_words] writes a component "N unit" for
    exactly the counts that are positive, singular at 1 and plural above,
    joined by ", " in the order days, hours, minutes, seconds.  Hours, minutes
    and seconds are never negative; days is negative exactly for a negative
    [delta].  So for [0 <= delta] the components are those of the non-zero
    counts, and for [0 <= delta < 1] the result is the empty string. *)
Theorem seconds_in_words_components (delta : Q) :
  seconds_in_words delta = seconds_in_words_positive delta
  /\ (0 <= hours_of delta /\ 0 <= minutes_of delta /\ 0 <= seconds_of delta)
  /\ ((0 <= delta)%Q ->
      0 <= days_of delta
      /\ seconds_in_words delta = seconds_in_words_nonzero delta)
  /\ ((0 <= delta)%Q -> (delta < 1)%Q -> seconds_in_words delta = "")
  /\ ((delta < 0)%Q -> days_of delta < 0).
Proof.
  split; [apply seconds_in_words_is_positive |].
  split; [pose proof (hours_range delta); pose proof (minutes_range delta);
          pose proof (seconds_range delta); lia |].
  split; [| split; [| apply days_negative]].
  - intros H. split; [by apply days_nonneg |].
    rewrite seconds_in_words_is_positive.
    unfold seconds_in_words_positive, seconds_in_words_nonzero.
    rewrite !positive_component_nonneg;
      [done | apply seconds_range | apply minutes_range | apply hours_range
      | by apply days_nonneg].
  - intros H0 H1. rewrite seconds_in_words_is_positive.
    unfold seconds_in_words_positive.
    destruct (small_delta delta H0 H1) as (-> & -> & -> & ->). reflexivity.
Qed.

Lemma seconds_in_words_components_witness :
  seconds_in_words (1 # 2) = ""
  /\ seconds_in_words 90061 = seconds_in_words_nonzero 90061.
Proof.
  split.
  - apply (seconds_in_words_components (1 # 2)); [by vm_compute | reflexivity].
  - apply (seconds_in_words_components 90061). by vm_compute.
Defined.

Example seconds_in_words_examples :
  seconds_in_words 90061 = "1 day, 1 hour, 1 minute, 1 second"
  /\ seconds_in_words 172800 = "2 days"
  /\ seconds_in_words 600 = "10 minutes"
  /\ seconds_in_words (7325 + (1 # 3)) = "2 hours, 2 minutes, 5 seconds".
Proof. repeat split; by vm_compute. Qed.

(** C10, as first stated, fails at [delta = -1]: the day count is -1, not
    zero, and no days component is written. *)
Lemma seconds_in_words_negative_delta :
  days_of (-1) = -1
  /\ seconds_in_words (-1) = "23 hours, 59 minutes, 59 seconds"
  /\ seconds_in_words_nonzero (-1) = "-1 days, 23 hours, 59 minutes, 59 seconds"
  /\ seconds_in_words (-1) <> seconds_in_words_nonzero (-1).
Proof. repeat split; try by vm_compute. Qed.
(** ** ensure_no_duplicate_assets *)

Section DuplicateAssetsFacts.

Context {Coercible : Type}.
Variable from_coercible_or_definition : Coercible -> AssetKey.
Variable repr_keys : list AssetKey -> string.

Local Abbreviation keys_of := (_asset_to_keys_iterable from_coercible_or_definition).
Local Abbreviation to_keys := (assets_to_keys from_coercible_or_definition).

Lemma count_cons (x y : AssetKey) (l : list AssetKey) :
  count x (y :: l) = (if decide (y = x) then S (count x l) else count x l).
Proof. unfold count. rewrite filter_cons. by destruct (decide (y = x)). Qed.

Lemma count_zero (x : AssetKey) (l : list AssetKey) :
  count x l = 0%nat <-> x ∉ l.
Proof.
  induction l as [|y l IH]; [split; [intros _; apply not_elem_of_nil | done] |].
  rewrite count_cons, not_elem_of_cons. destruct (decide (y = x)) as [->|Hne].
  - split; [discriminate | intros [? _]; done].
  - rewrite IH. split; [intros ?; split; congruence | tauto].
Qed.

Lemma count_at_most_one (l : list AssetKey) :
  (forall k, k ∈ l -> (count k l <= 1)%nat) <-> NoDup l.
Proof.
  induction l as [|x l IH].
  - split; [constructor | intros _ k Hk; by apply elem_of_nil in Hk].
  - rewrite NoDup_cons, <- IH. split.
    + intros H. split.
      * apply count_zero. specialize (H x (list_elem_of_here _ _)).
        rewrite count_cons in H. destruct (decide (x = x)); [lia | done].
      * intros k Hk. specialize (H k (list_elem_of_further _ _ _ Hk)).
        rewrite count_cons in H. destruct (decide (x = k)); lia.
    + intros [Hx H] k Hk. rewrite count_cons.
      destruct (decide (x = k)) as [<-|Hne].
      * apply count_zero in Hx. lia.
      * apply elem_of_cons in Hk as [->|Hk]; [done | by apply H].
Qed.

Lemma duplicate_assets_nil (l : list AssetKey) :
  duplicate_assets_of l = [] <-> NoDup l.
Proof.
  rewrite <- count_at_most_one. unfold duplicate_assets_of. split.
  - intros H k Hk. destruct (decide (1 < count k l)%nat) as [Hc|Hc]; [|lia].
    assert (k ∈ filter (fun asset_key => (1 < count asset_key l)%nat) l) as Hin
      by (by apply list_elem_of_filter).
    rewrite H in Hin. by apply elem_of_nil in Hin.
  - intros H.
    destruct (filter (fun asset_key => (1 < count asset_key l)%nat) l)
      as [|k ks] eqn:E; [done |].
    assert (k ∈ filter (fun asset_key => (1 < count asset_key l)%nat) l) as Hin
      by (rewrite E; apply list_elem_of_here).
    apply list_elem_of_filter in Hin as [Hc Hk]. specialize (H k Hk). lia.
Qed.

Lemma keys_of_NoDup (a : asset_like Coercible) : NoDup (keys_of a).
Proof.
  destruct a as [keys|key|c]; cbn [_asset_to_keys_iterable].
  - apply NoDup_elements.
  - apply NoDup_singleton.
  - apply NoDup_singleton.
Qed.

Lemma to_keys_cons (a : asset_like Coercible) (assets : list (asset_like Coercible)) :
  to_keys (a :: assets) = keys_of a ++ to_keys assets.
Proof. reflexivity. Qed.

Lemma elem_of_to_keys (k : AssetKey) (assets : list (asset_like Coercible)) :
  k ∈ to_keys assets <->
  exists (j : nat) (b : asset_like Coercible), assets !! j = Some b /\ k ∈ keys_of b.
Proof.
  induction assets as [|a assets IH].
  - split; [intros H; by apply elem_of_nil in H | intros (j & b & H & _); done].
  - rewrite to_keys_cons, elem_of_app, IH. split.
    + intros [H | (j & b & Hj & Hk)]; [by exists 0%nat, a | by exists (S j), b].
    + intros ([|j] & b & Hj & Hk); [left; by injection Hj as -> | right; eauto].
Qed.

Lemma to_keys_NoDup (assets : list (asset_like Coercible)) :
  NoDup (to_keys assets) <-> ~ share_a_key from_coercible_or_definition assets.
Proof.
  induction assets as [|a assets IH].
  - split; [intros _ (i & j & ? & ? & ? & _ & H & _); done | constructor].
  - rewrite to_keys_cons, NoDup_app, IH. split.
    + intros (_ & Hdisj & Hrest) (i & j & x & y & k & Hij & Hi & Hj & Hx & Hy).
      destruct i as [|i], j as [|j]; [done | | |].
      * injection Hi as <-. apply (Hdisj k Hx), elem_of_to_keys. eauto.
      * injection Hj as <-. apply (Hdisj k Hy), elem_of_to_keys. eauto.
      * apply Hrest. exists i, j, x, y, k. repeat split; [congruence | done..].
    + intros Hno. split; [apply keys_of_NoDup |]. split.
      * intros k Hk (j & b & Hj & Hb)%elem_of_to_keys.
        apply Hno. by exists 0%nat, (S j), a, b, k.
      * intros (i & j & x & y & k & Hij & Hi & Hj & Hx & Hy).
        apply Hno. exists (S i), (S j), x, y, k. repeat split; [congruence | done..].
Qed.

Lemma duplicate_assets_message_contains (duplicate_assets : list AssetKey) :
  PyStr.contains "Found duplicate assets"
    (duplicate_assets_message repr_keys duplicate_assets) = true.
Proof.
  apply contains_prefix. unfold duplicate_assets_message.
  change "Found duplicate assets in the provided list of assets: "
    with ("Found duplicate assets" +:+ " in the provided list of assets: ").
  rewrite append_assoc. apply prefix_append.
Qed.

Lemma share_a_key_or_NoDup (assets : list (asset_like Coercible)) :
  share_a_key from_coercible_or_definition assets \/ NoDup (to_keys assets).
Proof.
  induction assets as [|a assets [IH|IH]].
  - right. constructor.
  - left. destruct IH as (i & j & x & y & k & Hij & Hi & Hj & Hx & Hy).
    exists (S i), (S j), x, y, k. repeat split; [congruence | done..].
  - destruct (decide (Exists (fun k => k ∈ to_keys assets) (keys_of a)))
      as [He|He].
    + left. apply Exists_exists in He as (k & Hk & (j & b & Hj & Hb)%elem_of_to_keys).
      by exists 0%nat, (S j), a, b, k.
    + right. rewrite to_keys_cons, NoDup_app.
      split; [apply keys_of_NoDup |]. split; [|done].
      intros k Hk Hin. apply He, Exists_exists. eauto.
Qed.

Lemma share_a_key_dec (assets : list (asset_like Coercible)) :
  share_a_key from_coercible_or_definition assets
  <-> ~ NoDup (to_keys assets).
Proof.
  split.
  - intros Hs Hn. by apply to_keys_NoDup in Hn.
  - intros Hn. by destruct (share_a_key_or_NoDup assets).
Qed.

(** C8.  [ensure_no_duplicate_assets] raises exactly when two entries of
    the list yield the same AssetKey; what it raises is a check error
    whose message contains "Found duplicate assets"; on a list whose keys
    are pairwise distinct it returns. *)
Theorem ensure_no_duplicate_assets_raises_iff
    (assets : list (asset_like Coercible)) :
  let outcome :=
    ensure_no_duplicate_assets from_coercible_or_definition repr_keys assets in
  (share_a_key from_coercible_or_definition assets
   <-> exists e, outcome = Raise e)
  /\ (forall e, outcome = Raise e ->
       exists msg, e = CheckError msg
                   /\ PyStr.contains "Found duplicate assets" msg = true)
  /\ (NoDup (to_keys assets) -> outcome = Ok tt)
  /\ (~ share_a_key from_coercible_or_definition assets -> outcome = Ok tt).
Proof.
  cbv zeta. unfold ensure_no_duplicate_assets, check_invariant, invariant_failed.
  assert (forall l : list AssetKey, length l = 0%nat <-> l = []) as Hlen
    by (intros []; split; done).
  repeat split.
  - intros H%share_a_key_dec. rewrite <- duplicate_assets_nil, <- Hlen in H.
    rewrite bool_decide_eq_false_2 by done. eauto.
  - intros [e He]. apply share_a_key_dec.
    rewrite <- duplicate_assets_nil, <- Hlen.
    case_bool_decide; [discriminate | done].
  - intros e He. case_bool_decide; [discriminate |]. injection He as <-.
    eexists. split; [done |].
    apply contains_behind, duplicate_assets_message_contains.
  - intros H. rewrite <- duplicate_assets_nil, <- Hlen in H.
    by rewrite bool_decide_eq_true_2.
  - intros H. rewrite <- to_keys_NoDup, <- duplicate_assets_nil, <- Hlen in H.
    by rewrite bool_decide_eq_true_2.
Qed.

End DuplicateAssetsFacts.

Lemma ensure_no_duplicate_assets_raises_iff_witness :
  ensure_no_duplicate_assets (fun s : string => mkAssetKey [s])
    (fun _ => "[...]")
    [ CoercibleKey "my_asset"; SourceAsset (mkAssetKey ["source_asset"]) ]
  = Ok tt.
Proof.
  apply (proj1 (proj2 (proj2
           (ensure_no_duplicate_assets_raises_iff
              (fun s : string => mkAssetKey [s]) (fun _ => "[...]")
              [ CoercibleKey "my_asset";
                SourceAsset (mkAssetKey ["source_asset"]) ])))).
  apply NoDup_cons. split; [| apply NoDup_singleton].
  intros H%list_elem_of_singleton. discriminate.
Defined.
(** [test_params]: the same asset twice is refused. *)
Example ensure_no_duplicate_assets_my_asset_twice :
  ensure_no_duplicate_assets (fun s : string => mkAssetKey [s]) (fun _ => "[...]")
    [ AssetsDefinition {[ mkAssetKey ["my_asset"] ]};
      AssetsDefinition {[ mkAssetKey ["my_asset"] ]} ]
  = Raise (CheckError
             "Invariant failed. Description: Found duplicate assets in the provided list of assets: [...]. Please ensure that each asset is unique.").
Proof. by vm_compute. Qed.

(** ** retrieve_latest_record *)

Section LatestRecord.

Variable type_repr : MetadataValue -> string.

Local Abbreviation timestamp_of := (retrieve_timestamp_from_record type_repr).
Local Abbreviation retrieve := (retrieve_latest_record type_repr).

Lemma take_one_reverse {A : Type} (l : list A) :
  take 1 (reverse l) = option_list (last l).
Proof.
  rewrite <- head_reverse. by destruct (reverse l).
Qed.

(** The filter the code hands to the storage selects the records of the
    asset and kind, of the given partition unless that is the empty
    string. *)
Lemma record_matches_of_asset (kind : DagsterEventType) (asset_key : AssetKey)
    (partition_key : option string) (r : EventLogRecord) :
  partition_key <> Some "" ->
  record_matches kind
    {| filter_asset_key := asset_key;
       filter_asset_partitions := asset_partitions_of partition_key |} r = true
  <-> of_asset kind asset_key partition_key r.
Proof.
  intros Hne. unfold record_matches, of_asset. cbn.
  rewrite !andb_true_iff, !bool_decide_eq_true.
  destruct partition_key as [p|]; cbn.
  - rewrite bool_decide_eq_false_2 by congruence.
    destruct (record_partition r) as [q|].
    + rewrite bool_decide_eq_true, list_elem_of_singleton. split.
      * intros [[? ?] ->]. repeat split; [done.. |]. by intros ? [= <-].
      * intros (? & ? & H). specialize (H p eq_refl). by injection H as ->.
    + split; [by intros [_ ?] |]. intros (_ & _ & H). by specialize (H p eq_refl).
  - split; [intros [[? ?] _] | intros (? & ? & _)]; repeat split; done.
Qed.

Lemma fetch_one (kind : DagsterEventType) (instance : DagsterInstance)
    (asset_key : AssetKey) (partition_key : option string) :
  partition_key <> Some "" ->
  fetch_records kind instance
    {| filter_asset_key := asset_key;
       filter_asset_partitions := asset_partitions_of partition_key |} 1
  = option_list (latest_record kind instance asset_key partition_key).
Proof.
  intros Hne. unfold fetch_records, latest_record. rewrite take_one_reverse.
  do 2 f_equal. apply list_filter_iff. intros r.
  by apply record_matches_of_asset.
Qed.

Lemma latest_record_of_asset (kind : DagsterEventType) (instance : DagsterInstance)
    (asset_key : AssetKey) (partition_key : option string) (r : EventLogRecord) :
  latest_record kind instance asset_key partition_key = Some r ->
  r ∈ event_log instance /\ of_asset kind asset_key partition_key r.
Proof.
  unfold latest_record. intros H.
  assert (r ∈ filter (of_asset kind asset_key partition_key) (event_log instance))
    as Hin.
  { apply last_Some in H as [l ->]. apply elem_of_app. right. apply list_elem_of_here. }
  by apply list_elem_of_filter in Hin as [Hm Hin].
Qed.

(** The code extracts the timestamp the claim names, where there is one. *)
Lemma timestamp_of_extracted (r : EventLogRecord) (v : Q) :
  extracted_timestamp r = Some v -> timestamp_of r = Ok v.
Proof.
  unfold extracted_timestamp, retrieve_timestamp_from_record.
  destruct (dagster_event_type r).
  - rewrite bool_decide_eq_true_2 by done. by intros [= <-].
  - rewrite bool_decide_eq_false_2 by done.
    destruct (asset_observation r) as [obs|]; [|done]. cbn. unfold getitem.
    destruct (metadata obs !! LAST_UPDATED_TIMESTAMP_METADATA_KEY) as [[w|w|w]|];
      try done.
    by intros [= <-].
Qed.

Lemma retrieve_cases (instance : DagsterInstance) (asset_key : AssetKey)
    (partition_key : option string) :
  partition_key <> Some "" ->
  retrieve instance asset_key partition_key
  = match latest_record ASSET_MATERIALIZATION instance asset_key partition_key,
          latest_record ASSET_OBSERVATION instance asset_key partition_key with
    | Some m, Some o => r ← max_by_key timestamp_of m o; Ok (Some r)
    | Some m, None => Ok (Some m)
    | None, Some o => Ok (Some o)
    | None, None => Ok None
    end.
Proof.
  intros Hne. unfold retrieve_latest_record, fetch_materializations,
    fetch_observations. rewrite !fetch_one by done.
  by destruct (latest_record ASSET_MATERIALIZATION _ _ _),
    (latest_record ASSET_OBSERVATION _ _ _).
Qed.

(** C6, as amended.  For a partition key that is absent or not the empty
    string: with neither a materialization nor an observation of the asset
    (restricted to the partition, if one is given) the result is None; with
    one kind only, the latest record of that kind; with both, where the
    latest observation carries a float under dagster/last_updated_timestamp,
    the one of the two latest records whose extracted timestamp is greater
    (the materialization when they are equal), the timestamp of a
    materialization being its storage timestamp and that of an observation
    that metadata value; a record that is returned is one of the two latest
    records, of the asset and of the partition.  The empty string as
    partition key restricts nothing: the result is that for no partition
    key. *)
Theorem retrieve_latest_record_cases (instance : DagsterInstance)
    (asset_key : AssetKey) (partition_key : option string) :
  let latest_m :=
    latest_record ASSET_MATERIALIZATION instance asset_key partition_key in
  let latest_o :=
    latest_record ASSET_OBSERVATION instance asset_key partition_key in
  let returned := retrieve instance asset_key partition_key in
  (partition_key <> Some "" ->
     (latest_m = None -> latest_o = None -> returned = Ok None)
     /\ (forall m, latest_m = Some m -> latest_o = None -> returned = Ok (Some m))
     /\ (forall o, latest_m = None -> latest_o = Some o -> returned = Ok (Some o))
     /\ (forall m o v,
           latest_m = Some m -> latest_o = Some o ->
           extracted_timestamp o = Some v ->
           extracted_timestamp m = Some (timestamp m)
           /\ timestamp_of m = Ok (timestamp m)
           /\ timestamp_of o = Ok v
           /\ ((timestamp m < v)%Q -> returned = Ok (Some o))
           /\ ((v <= timestamp m)%Q -> returned = Ok (Some m)))
     /\ (forall r,
           returned = Ok (Some r) ->
           (latest_m = Some r \/ latest_o = Some r)
           /\ r ∈ event_log instance
           /\ record_asset_key r = asset_key
           /\ (forall p, partition_key = Some p -> record_partition r = Some p)))
  /\ (partition_key = Some "" -> returned = retrieve instance asset_key None).
Proof.
  cbv zeta. split; [| by intros ->].
  intros Hne. rewrite (retrieve_cases _ _ _ Hne).
  split; [| split; [| split; [| split]]].
  - by intros -> ->.
  - by intros m -> ->.
  - by intros o -> ->.
  - intros m o v Hm Ho Hv. rewrite Hm, Ho.
    pose proof (latest_record_of_asset _ _ _ _ _ Hm) as (_ & Hkm & _).
    assert (extracted_timestamp m = Some (timestamp m)) as Hem
      by (unfold extracted_timestamp; by rewrite Hkm).
    unfold max_by_key.
    rewrite (timestamp_of_extracted m _ Hem), (timestamp_of_extracted o v Hv).
    cbn. split; [done |]. split; [done |]. split; [done |]. split.
    + intros Hlt. destruct (Qlt_le_dec (timestamp m) v); [done | lra].
    + intros Hle. destruct (Qlt_le_dec (timestamp m) v); [lra | done].
  - intros r Hr.
    assert (latest_record ASSET_MATERIALIZATION instance asset_key partition_key
            = Some r
            \/ latest_record ASSET_OBSERVATION instance asset_key partition_key
               = Some r) as Hsource.
    { revert Hr.
      destruct (latest_record ASSET_MATERIALIZATION _ _ _) as [m|],
        (latest_record ASSET_OBSERVATION _ _ _) as [o|]; unfold max_by_key.
      - destruct (timestamp_of m) as [tm|]; [|done].
        destruct (timestamp_of o) as [to|]; [|done].
        cbn. destruct (Qlt_le_dec tm to); intros [= <-]; auto.
      - intros [= <-]. auto.
      - intros [= <-]. auto.
      - done. }
    split; [done |].
    destruct Hsource as [H|H]; apply latest_record_of_asset in H as (? & ? & ? & ?);
      done.
Qed.

End LatestRecord.

(** The claim as it was stated fails twice.  With a materialization and an
    observation that lacks the timestamp metadata the asset has both kinds,
    and no record is returned: the call raises.  With the empty string as
    partition key the asset has no record of that partition, and the record
    of another partition is returned. *)
Lemma retrieve_latest_record_no_metadata_or_empty_partition :
  (latest_record ASSET_MATERIALIZATION
     {| event_log := [example_materialization; bare_observation] |}
     (mkAssetKey ["my_asset"]) None = Some example_materialization
   /\ latest_record ASSET_OBSERVATION
        {| event_log := [example_materialization; bare_observation] |}
        (mkAssetKey ["my_asset"]) None = Some bare_observation
   /\ retrieve_latest_record example_type_repr
        {| event_log := [example_materialization; bare_observation] |}
        (mkAssetKey ["my_asset"]) None
      = Raise (KeyError "dagster/last_updated_timestamp"))
  /\ (latest_record ASSET_MATERIALIZATION {| event_log := [p2_materialization] |}
        (mkAssetKey ["my_asset"]) (Some "") = None
      /\ latest_record ASSET_OBSERVATION {| event_log := [p2_materialization] |}
           (mkAssetKey ["my_asset"]) (Some "") = None
      /\ retrieve_latest_record example_type_repr
           {| event_log := [p2_materialization] |}
           (mkAssetKey ["my_asset"]) (Some "")
         = Ok (Some p2_materialization)).
Proof. repeat split; by vm_compute. Qed.

Lemma retrieve_latest_record_cases_witness :
  retrieve_latest_record example_type_repr
    {| event_log := [example_materialization; example_observation] |}
    (mkAssetKey ["my_asset"]) None
  = Ok (Some example_observation).
Proof.
  destruct (retrieve_latest_record_cases example_type_repr
              {| event_log := [example_materialization; example_observation] |}
              (mkAssetKey ["my_asset"]) None) as [H _].
  destruct (H ltac:(discriminate)) as (_ & _ & _ & Hboth & _).
  destruct (Hboth example_materialization example_observation 20%Q
              eq_refl eq_refl eq_refl) as (_ & _ & _ & Ho & _).
  apply Ho. reflexivity.
Defined.
(** ** The default automation-condition sensor *)

Section DefaultSensor.

Local Abbreviation asel := Sensor.asset_selection.
Local Abbreviation entities g := (fun sel => Selection.resolve_entities sel g).

(** The sensors [_external_sensors] keeps as existing automation-condition
    sensors are those of type AUTO_MATERIALIZE or AUTOMATION. *)
Lemma existing_sensors (self : ExternalRepository) :
  Dict.values
    (Repository.existing_automation_condition_sensors
       (Repository.sensor_datas_of self))
  = Coverage.existing self.
Proof.
  unfold Coverage.existing, Repository.existing_automation_condition_sensors,
    Dict.values.
  induction (Repository.sensor_datas_of self) as [|[k sensor] d IH]; [done |].
  cbn [List.filter map snd]. rewrite filter_cons.
  unfold Repository.is_automation_condition_sensor at 1. cbn [snd].
  destruct (decide (Sensor.sensor_type sensor = AUTO_MATERIALIZE
                    \/ Sensor.sensor_type sensor = AUTOMATION)) as [Ht|Ht].
  - assert (bool_decide (Sensor.sensor_type sensor = AUTO_MATERIALIZE)
            || bool_decide (Sensor.sensor_type sensor = AUTOMATION) = true) as ->.
    { apply orb_true_iff. rewrite !bool_decide_eq_true. exact Ht. }
    cbn [map snd]. by rewrite IH.
  - assert (bool_decide (Sensor.sensor_type sensor = AUTO_MATERIALIZE)
            || bool_decide (Sensor.sensor_type sensor = AUTOMATION) = false) as ->.
    { apply orb_false_iff. rewrite !bool_decide_eq_false. tauto. }
    exact IH.
Qed.

Lemma covered_loop_ok (g : AssetGraph) (sensors : list ExternalSensor)
    (acc : gset EntityKey) :
  Coverage.all_selected sensors ->
  Repository.covered_loop g sensors acc
  = Ok (acc ∪ Coverage.covered_entity_keys sensors g).
Proof.
  unfold Coverage.covered_entity_keys.
  intros H. revert acc. induction H as [|s sensors [sel Hs] _ IH]; intros acc.
  - cbn. f_equal. set_solver.
  - cbn [Repository.covered_loop omap list_omap]. rewrite Hs. cbn.
    rewrite IH. f_equal. set_solver.
Qed.

Lemma subtract_loop_ok (sensors : list ExternalSensor) (base : AssetSelection) :
  Coverage.all_selected sensors ->
  Repository.subtract_loop sensors base
  = Ok (fold_left SubtractAssetSelection (omap asel sensors) base).
Proof.
  intros H. revert base. induction H as [|s sensors [sel Hs] _ IH]; intros base.
  - done.
  - cbn [Repository.subtract_loop omap list_omap]. rewrite Hs. cbn.
    by rewrite IH.
Qed.

Lemma elem_of_covered (g : AssetGraph) (sensors : list ExternalSensor)
    (k : EntityKey) :
  k ∈ Coverage.covered_entity_keys sensors g <-> Coverage.covered sensors g k.
Proof.
  unfold Coverage.covered_entity_keys.
  rewrite elem_of_union_list. unfold Coverage.covered. split.
  - intros (X & (sel & -> & (s & Hs & Hsel)%list_elem_of_omap)%list_elem_of_fmap & Hk).
    eauto.
  - intros (s & sel & Hs & Hsel & Hk). exists (entities g sel). split; [|done].
    apply list_elem_of_fmap. exists sel. split; [done |].
    apply list_elem_of_omap. eauto.
Qed.

Lemma elem_of_auto_observe (g : AssetGraph) (a : AssetKey) :
  a ∈ Repository.auto_observe_asset_keys g <->
  a ∈ observable_asset_keys g
  /\ (auto_observe_interval_minutes g a <> None
      \/ automation_condition g (EAsset a) = true).
Proof.
  unfold Repository.auto_observe_asset_keys. rewrite elem_of_filter.
  destruct (auto_observe_interval_minutes g a), (automation_condition g (EAsset a));
    intuition congruence.
Qed.

Lemma elem_of_default_sensor_entity_keys (g : AssetGraph)
    (cov : gset EntityKey) (k : EntityKey) :
  k ∈ Repository.default_sensor_entity_keys_of g cov <->
  Coverage.automated g k /\ k ∉ cov.
Proof.
  unfold Repository.default_sensor_entity_keys_of, Coverage.automated,
    Repository.conditioned_entity_keys.
  rewrite elem_of_filter, !elem_of_union, elem_of_filter, elem_of_union,
    !elem_of_map.
  setoid_rewrite elem_of_auto_observe. split.
  - intros [Hk [[Hc [(a & -> & Ha) | (c & -> & Hc')]] | (a & -> & Ha & He)]];
      (split; [|done]); eauto 10.
  - intros [[(a & -> & Ha & Hc) | [(c & -> & Hc' & Hc) | (a & -> & Ha & He)]] Hk];
      (split; [done |]); eauto 10.
Qed.

Lemma has_any_auto_observe (g : AssetGraph) :
  Repository.has_any_auto_observe_source_assets_of g = true
  <-> Coverage.auto_observed g.
Proof.
  unfold Repository.has_any_auto_observe_source_assets_of, Coverage.auto_observed.
  rewrite bool_decide_eq_true. split.
  - intros [a Ha%elem_of_auto_observe]%set_choose_L. eauto.
  - intros (a & Ha) Hempty.
    assert (a ∈ Repository.auto_observe_asset_keys g) as Hin
      by (by apply elem_of_auto_observe).
    rewrite Hempty in Hin. set_solver.
Qed.

Lemma resolve_fold_subtract (g : AssetGraph) (sels : list AssetSelection)
    (base : AssetSelection) :
  Selection.resolve (fold_left SubtractAssetSelection sels base) g
  = Selection.resolve base g ∖ ⋃ ((fun sel => Selection.resolve sel g) <$> sels)
  /\ Selection.resolve_checks (fold_left SubtractAssetSelection sels base) g
     = Selection.resolve_checks base g
         ∖ ⋃ ((fun sel => Selection.resolve_checks sel g) <$> sels).
Proof.
  revert base. induction sels as [|sel sels IH]; intros base.
  - cbn. split; set_solver.
  - cbn [fold_left]. destruct (IH (SubtractAssetSelection base sel)) as [-> ->].
    cbn. split; set_solver.
Qed.

(** Subtracting the same selections in another order selects the same
    assets and the same checks. *)
Lemma resolve_fold_subtract_permutation (g : AssetGraph)
    (sels sels' : list AssetSelection) (base : AssetSelection) :
  sels ≡ₚ sels' ->
  Selection.resolve (fold_left SubtractAssetSelection sels base) g
  = Selection.resolve (fold_left SubtractAssetSelection sels' base) g
  /\ Selection.resolve_checks (fold_left SubtractAssetSelection sels base) g
     = Selection.resolve_checks (fold_left SubtractAssetSelection sels' base) g.
Proof.
  intros Hp.
  destruct (resolve_fold_subtract g sels base) as [-> ->].
  destruct (resolve_fold_subtract g sels' base) as [-> ->].
  by rewrite Hp.
Qed.

Lemma covered_permutation (g : AssetGraph) (sensors sensors' : list ExternalSensor) :
  sensors ≡ₚ sensors' ->
  Coverage.covered_entity_keys sensors g = Coverage.covered_entity_keys sensors' g.
Proof.
  intros Hp. unfold Coverage.covered_entity_keys. by rewrite Hp.
Qed.

Lemma dict_get_set {V : Type} (d : Dict.t V) (k : string) (v : V) :
  Dict.get (Dict.set d k v) k = Some v.
Proof.
  induction d as [|[k' v'] d IH]; cbn.
  - by rewrite bool_decide_eq_true_2.
  - case_bool_decide as Hk; cbn.
    + by rewrite bool_decide_eq_true_2.
    + by rewrite bool_decide_eq_false_2.
Qed.

(** What [default_sensor] computes once every existing sensor has a
    selection. *)
Lemma default_sensor_unfold (self : ExternalRepository) :
  auto_materialize_use_sensors self = true ->
  Coverage.all_selected (Coverage.existing self) ->
  let g := asset_graph self in
  let keys :=
    Repository.default_sensor_entity_keys_of g
      (Coverage.covered_entity_keys (Coverage.existing self) g) in
  Repository.default_sensor self
  = Ok (if bool_decide (keys ≠ ∅)
        then Some (Repository.default_sensor_data_of
                     (Coverage.all_minus
                        (Repository.has_any_auto_observe_source_assets_of g)
                        (bool_decide
                           (filter (fun key => is_asset_check_key key = true) keys ≠ ∅))
                        (omap asel (Coverage.existing self))))
        else None).
Proof.
  intros He Hs. cbv zeta. unfold Repository.default_sensor. rewrite He.
  rewrite existing_sensors, (covered_loop_ok _ _ _ Hs). cbn.
  rewrite (left_id_L ∅ (∪)). case_bool_decide; [|done].
  rewrite (subtract_loop_ok _ _ Hs). cbn. unfold Coverage.all_minus.
  by case_bool_decide.
Qed.

Lemma uncovered_nonempty (g : AssetGraph) (sensors : list ExternalSensor) :
  Repository.default_sensor_entity_keys_of g
    (Coverage.covered_entity_keys sensors g) ≠ ∅
  <-> exists k, Coverage.automated g k /\ ~ Coverage.covered sensors g k.
Proof.
  split.
  - intros [k Hk%elem_of_default_sensor_entity_keys]%set_choose_L.
    exists k. by rewrite <- elem_of_covered.
  - intros (k & Ha & Hc) Hempty.
    assert (k ∈ Repository.default_sensor_entity_keys_of g
                  (Coverage.covered_entity_keys sensors g)) as Hin.
    { apply elem_of_default_sensor_entity_keys. by rewrite elem_of_covered. }
    rewrite Hempty in Hin. set_solver.
Qed.

Lemma uncovered_check_nonempty (g : AssetGraph) (sensors : list ExternalSensor) :
  filter (fun key => is_asset_check_key key = true)
    (Repository.default_sensor_entity_keys_of g
       (Coverage.covered_entity_keys sensors g)) ≠ ∅
  <-> exists c, Coverage.automated g (ECheck c)
                /\ ~ Coverage.covered sensors g (ECheck c).
Proof.
  split.
  - intros [k [Hc Hk%elem_of_default_sensor_entity_keys]%elem_of_filter]%set_choose_L.
    destruct k as [a|c]; [done |]. exists c. by rewrite <- elem_of_covered.
  - intros (c & Ha & Hc) Hempty.
    assert (ECheck c ∈ filter (fun key => is_asset_check_key key = true)
              (Repository.default_sensor_entity_keys_of g
                 (Coverage.covered_entity_keys sensors g))) as Hin.
    { apply elem_of_filter. split; [done |].
      apply elem_of_default_sensor_entity_keys. by rewrite elem_of_covered. }
    rewrite Hempty in Hin. set_solver.
Qed.

(** [_external_sensors] returns the sensors of the repository, with the
    default sensor entered under its name when there is one. *)
Lemma external_sensors_default_sensor (self : ExternalRepository) :
  Repository._external_sensors self
  = added ← Repository.default_sensor self;
    Ok (match added with
        | Some default_sensor_data =>
            Dict.set (Repository.sensor_datas_of self) (name default_sensor_data)
              (mkExternalSensor default_sensor_data (repository_handle self))
        | None => Repository.sensor_datas_of self
        end).
Proof.
  unfold Repository._external_sensors, Repository.default_sensor.
  destruct (auto_materialize_use_sensors self); [|done].
  destruct (Repository.covered_loop _ _ _) as [cov|e]; [|done]. cbn.
  case_bool_decide; [|done].
  by destruct (Repository.subtract_loop _ _) as [sel|e].
Qed.

(** C5, as amended.  The existing automation sensors are the sensors of
    the repository of type AUTO_MATERIALIZE or AUTOMATION.  With
    auto-materialize sensors enabled, and every existing automation sensor
    carrying an asset selection, the default sensor is added exactly when
    some automated entity (a materializable asset or an asset check with an
    automation condition, or an observable asset with an auto-observe
    interval or an automation condition) is in no existing automation
    sensor's resolved selection.  It is entered in the sensor map under the
    name default_automation_condition_sensor; its selection is
    [AssetSelection.all], with sources exactly when an auto-observe source
    asset exists, joined with all asset checks exactly when an uncovered key
    is an asset check key, minus the existing sensors' selections in the
    order of the iteration.  Iterating over the existing sensors in another
    order gives a selection that resolves to the same assets and checks. *)
Theorem default_automation_condition_sensor (self : ExternalRepository) :
  let g := asset_graph self in
  let sensors := Coverage.existing self in
  let uncovered := fun k => Coverage.automated g k /\ ~ Coverage.covered sensors g k in
  auto_materialize_use_sensors self = true ->
  Coverage.all_selected sensors ->
  ((exists snap, Repository.default_sensor self = Ok (Some snap))
   <-> exists k, uncovered k)
  /\ ((~ exists k, uncovered k) ->
      Repository._external_sensors self = Ok (Repository.sensor_datas_of self))
  /\ (forall snap,
        Repository.default_sensor self = Ok (Some snap) ->
        name snap = "default_automation_condition_sensor"
        /\ (exists sensor_datas,
              Repository._external_sensors self = Ok sensor_datas
              /\ Dict.get sensor_datas "default_automation_condition_sensor"
                 = Some (mkExternalSensor snap (repository_handle self)))
        /\ (exists include_sources with_checks,
              asset_selection snap
              = Some (Coverage.all_minus include_sources with_checks
                        (omap Sensor.asset_selection sensors))
              /\ (include_sources = true <-> Coverage.auto_observed g)
              /\ (with_checks = true <-> exists c, uncovered (ECheck c))))
  /\ (forall self' snap selection,
        asset_graph self' = g ->
        auto_materialize_use_sensors self' = true ->
        Coverage.existing self' ≡ₚ sensors ->
        Repository.default_sensor self = Ok (Some snap) ->
        asset_selection snap = Some selection ->
        exists snap' selection',
          Repository.default_sensor self' = Ok (Some snap')
          /\ asset_selection snap' = Some selection'
          /\ Selection.resolve selection' g = Selection.resolve selection g
          /\ Selection.resolve_checks selection' g
             = Selection.resolve_checks selection g).
Proof.
  intros g sensors uncovered He Hs. subst uncovered. cbv beta.
  pose proof (default_sensor_unfold self He Hs) as Hd. cbv zeta in Hd.
  fold g sensors in Hd.
  split; [| split; [| split]].
  - rewrite Hd, <- uncovered_nonempty. case_bool_decide; split.
    + done.
    + eauto.
    + intros [snap [=]].
    + done.
  - intros Hno. rewrite external_sensors_default_sensor, Hd.
    rewrite <- uncovered_nonempty in Hno.
    by rewrite bool_decide_eq_false_2.
  - intros snap Hsnap. rewrite external_sensors_default_sensor.
    rewrite Hsnap. rewrite Hd in Hsnap.
    case_bool_decide; [|done]. injection Hsnap as <-.
    split; [done |]. split.
    + eexists. split; [done |]. apply dict_get_set.
    + eexists _, _. split; [done |]. split.
      * apply has_any_auto_observe.
      * rewrite bool_decide_eq_true. apply uncovered_check_nonempty.
  - intros self' snap selection Hg He' Hp Hsnap Hsel.
    assert (Coverage.all_selected (Coverage.existing self')) as Hs'
      by (unfold Coverage.all_selected; by rewrite Hp).
    pose proof (default_sensor_unfold self' He' Hs') as Hd'. cbv zeta in Hd'.
    rewrite Hg in Hd'. rewrite (covered_permutation g _ _ Hp) in Hd'.
    fold sensors in Hd'. rewrite Hd in Hsnap.
    case_bool_decide; [|done]. injection Hsnap as <-.
    injection Hsel as <-. eexists _, _. split; [done |]. split; [done |].
    apply resolve_fold_subtract_permutation. by apply omap_Permutation.
Qed.

End DefaultSensor.

(** The claim as it was stated fails twice.  Two repositories that differ
    in the order of their two automation sensors only get default sensors
    with different selections: the subtractions are nested in the order of
    the iteration.  And where an automation sensor carries no asset
    selection, no sensor map is built at all, although an asset with an
    automation condition is covered by no sensor. *)
Lemma default_sensor_selection_follows_the_order :
  (asset_graph repository_b_checks = asset_graph repository_checks_b
   /\ Coverage.existing repository_b_checks ≡ₚ Coverage.existing repository_checks_b
   /\ Repository.default_sensor repository_b_checks
      = Ok (Some (Repository.default_sensor_data_of
                    (SubtractAssetSelection
                       (SubtractAssetSelection (Selection.all false) b_selection)
                       Selection.all_asset_checks)))
   /\ Repository.default_sensor repository_checks_b
      = Ok (Some (Repository.default_sensor_data_of
                    (SubtractAssetSelection
                       (SubtractAssetSelection (Selection.all false)
                          Selection.all_asset_checks)
                       b_selection)))
   /\ Repository.default_sensor repository_b_checks
      <> Repository.default_sensor repository_checks_b)
  /\ (Coverage.automated (asset_graph unselected_repository) (EAsset (mkAssetKey ["a"]))
      /\ ~ Coverage.covered (Coverage.existing unselected_repository)
             (asset_graph unselected_repository) (EAsset (mkAssetKey ["a"]))
      /\ Repository._external_sensors unselected_repository
         = Raise (CheckError "Expected non-None value: None")).
Proof.
  split; [split; [| split; [| split; [| split]]] | split; [| split]].
  - reflexivity.
  - apply Permutation_swap.
  - vm_compute. reflexivity.
  - vm_compute. reflexivity.
  - intros H. vm_compute in H. discriminate H.
  - left. exists (mkAssetKey ["a"]). repeat split.
  - intros (sensor & selection & Hin & Hsel & _).
    apply list_elem_of_singleton in Hin as ->. discriminate Hsel.
  - reflexivity.
Qed.

Lemma default_automation_condition_sensor_witness :
  exists snap, Repository.default_sensor example_repository = Ok (Some snap).
Proof.
  assert (Coverage.existing example_repository
          = [mkExternalSensor example_sensor "repo"]) as Hex by reflexivity.
  apply (proj1 (default_automation_condition_sensor example_repository eq_refl
                  ltac:(rewrite Hex; repeat constructor; by eexists))).
  exists (EAsset (mkAssetKey ["a"])). split.
  - left. exists (mkAssetKey ["a"]). repeat split.
  - rewrite Hex. intros (s & sel & ->%list_elem_of_singleton & [= <-] & Hk).
    unfold Selection.resolve_entities in Hk. cbn in Hk.
    apply elem_of_union in Hk as [(a & [= <-] & Ha)%elem_of_map | (c & [=] & _)%elem_of_map].
    apply elem_of_singleton in Ha. discriminate.
Defined.
(** ** The declarative-scheduling tick *)

Section Tick.

Variable digest : string -> list string -> list string -> string.

Local Abbreviation requested_by states :=
  (⋃ ((fun st => DS.asset_partitions (DS.state_true_subset st)) <$> states)).

Lemma step_requested (v : DS.AssetGraphView) (c : DS.AssetDaemonCursor)
    (acc : list DS.AssetConditionEvaluationState * gset DS.AssetKeyPartitionKey)
    (k : AssetKey) :
  acc.2 = requested_by acc.1 ->
  (DS.step digest v c acc k).2 = requested_by (DS.step digest v c acc k).1.
Proof.
  intros H. unfold DS.step.
  destruct (DS.evaluate_asset digest v c acc.2 k) as [st|]; [|done].
  cbn [fst snd]. rewrite fmap_app, union_list_app_L, <- H. cbn. set_solver.
Qed.

Lemma fold_step_requested (v : DS.AssetGraphView) (c : DS.AssetDaemonCursor)
    (keys : list AssetKey)
    (acc : list DS.AssetConditionEvaluationState * gset DS.AssetKeyPartitionKey) :
  acc.2 = requested_by acc.1 ->
  (fold_left (DS.step digest v c) keys acc).2
  = requested_by (fold_left (DS.step digest v c) keys acc).1.
Proof.
  revert acc. induction keys as [|k keys IH]; intros acc H; [done |].
  cbn [fold_left]. by apply IH, step_requested.
Qed.

(** C7.  The requested set of a tick is the union of the true-subsets of
    its evaluation states: a key is requested exactly when it is in the
    true-subset of one of the states.  The same holds of the two fields of
    the result of [execute_ds_tick]. *)
Theorem requested_is_union_of_true_subsets (v : DS.AssetGraphView)
    (candidate_asset_keys : list AssetKey) (c : DS.AssetDaemonCursor)
    (akpk : DS.AssetKeyPartitionKey) :
  let result := DS.evaluator_evaluate digest v candidate_asset_keys c in
  result.2 = requested_by result.1
  /\ (akpk ∈ result.2
      <-> exists st, st ∈ result.1
                     /\ akpk ∈ DS.asset_partitions (DS.state_true_subset st))
  /\ DS.asset_partition_keys (DS.execute_ds_tick digest v candidate_asset_keys)
     = requested_by (DS.evaluation_states
                       (DS.execute_ds_tick digest v candidate_asset_keys)).
Proof.
  cbv zeta.
  assert ((DS.evaluator_evaluate digest v candidate_asset_keys c).2
          = requested_by (DS.evaluator_evaluate digest v candidate_asset_keys c).1)
    as H by (by apply fold_step_requested).
  split; [done |]. split; [| by apply fold_step_requested].
  rewrite H, elem_of_union_list. split.
  - intros (X & (st & -> & Hst)%list_elem_of_fmap & Hin). eauto.
  - intros (st & Hst & Hin). eexists. split; [|done].
    apply list_elem_of_fmap. eauto.
Qed.

(** C3.  In the two-asset graph, both assets eager and unpartitioned,
    nothing materialized, one tick from the empty cursor evaluates upstream
    then downstream, requests exactly the two assets (no partition key),
    and both states have a true true-subset; the order in which the two
    keys are handed to the evaluator does not matter. *)
Theorem basic_asset_scheduling (now : Q) (cron : string -> option Q -> Q -> bool) :
  let result :=
    DS.execute_ds_tick digest (DS.two_asset_view now cron)
      [DS.upstream; DS.downstream] in
  DS.asset_partition_keys result
  = {[ DS.mkAssetKeyPartitionKey DS.upstream None;
       DS.mkAssetKeyPartitionKey DS.downstream None ]}
  /\ DS.state_key <$> DS.evaluation_states result = [DS.upstream; DS.downstream]
  /\ Forall (fun st => DS.bool_value (DS.state_true_subset st) = true)
       (DS.evaluation_states result)
  /\ DS.execute_ds_tick digest (DS.two_asset_view now cron)
       [DS.downstream; DS.upstream]
     = result.
Proof.
  cbv zeta. split; [| split; [| split]].
  - vm_compute. reflexivity.
  - vm_compute. reflexivity.
  - remember (DS.evaluation_states _) as states eqn:E. vm_compute in E.
    subst states. repeat constructor.
  - vm_compute. reflexivity.
Qed.

End Tick.

(** * Further code of the same files *)

(** ** Instigator state of sensors and schedules *)

Section InstigatorStateFacts.

Context {InstigatorState Origin : Type}.
Variable make_state :
  Origin -> InstigatorType.t -> InstigatorStatus.t -> InstigatorData -> InstigatorState.
Variable status : InstigatorState -> InstigatorStatus.t.
Variable with_status : InstigatorState -> InstigatorStatus.t -> InstigatorState.
Variable get_remote_origin : string -> Origin.
Variable DEFAULT_SENSOR_DAEMON_INTERVAL : Z.

Local Abbreviation sensor_state :=
  (sensor_get_current_instigator_state make_state status with_status
     get_remote_origin DEFAULT_SENSOR_DAEMON_INTERVAL).
Local Abbreviation schedule_state :=
  (schedule_get_current_instigator_state make_state status with_status
     get_remote_origin).
Local Abbreviation laws := (status_laws make_state status with_status).

(** X1.  For a sensor whose default status is not RUNNING, the current
    state is never DECLARED_IN_CODE, whatever is stored; for any sensor,
    feeding the current state back as the stored state gives it again; and a
    stored state whose status is not DECLARED_IN_CODE is returned as it
    is. *)
Theorem sensor_current_instigator_state (self : ExternalSensor)
    (stored_state : option InstigatorState) :
  laws ->
  (sensor_default_status self <> DefaultStatus.RUNNING ->
   status (sensor_state self stored_state) <> InstigatorStatus.DECLARED_IN_CODE)
  /\ sensor_state self (Some (sensor_state self stored_state))
     = sensor_state self stored_state
  /\ (forall stored, stored_state = Some stored ->
        status stored <> InstigatorStatus.DECLARED_IN_CODE ->
        sensor_state self stored_state = stored).
Proof.
  intros [Hmake Hwith]. unfold sensor_get_current_instigator_state.
  repeat split.
  - intros Hd. rewrite bool_decide_eq_false_2 by done.
    destruct stored_state as [stored|].
    + case_bool_decide; [by rewrite Hwith | done].
    + by rewrite Hmake.
  - case_bool_decide; [done |].
    destruct stored_state as [stored|].
    + destruct (decide (status stored = InstigatorStatus.DECLARED_IN_CODE)) as [Hs|Hs].
      * rewrite (bool_decide_eq_true_2 _ Hs).
        by rewrite bool_decide_eq_false_2 by (by rewrite Hwith).
      * rewrite (bool_decide_eq_false_2 _ Hs).
        by rewrite (bool_decide_eq_false_2 _ Hs).
    + by rewrite bool_decide_eq_false_2 by (by rewrite Hmake).
  - intros stored -> Hs. case_bool_decide; [done |].
    by rewrite bool_decide_eq_false_2.
Qed.

(** X2.  The same for a schedule. *)
Theorem schedule_current_instigator_state (self : ExternalSchedule)
    (stored_state : option InstigatorState) :
  laws ->
  (schedule_default_status self <> DefaultStatus.RUNNING ->
   status (schedule_state self stored_state) <> InstigatorStatus.DECLARED_IN_CODE)
  /\ schedule_state self (Some (schedule_state self stored_state))
     = schedule_state self stored_state
  /\ (forall stored, stored_state = Some stored ->
        status stored <> InstigatorStatus.DECLARED_IN_CODE ->
        schedule_state self stored_state = stored).
Proof.
  intros [Hmake Hwith]. unfold schedule_get_current_instigator_state.
  repeat split.
  - intros Hd. rewrite bool_decide_eq_false_2 by done.
    destruct stored_state as [stored|].
    + case_bool_decide; [by rewrite Hwith | done].
    + by rewrite Hmake.
  - case_bool_decide; [done |].
    destruct stored_state as [stored|].
    + destruct (decide (status stored = InstigatorStatus.DECLARED_IN_CODE)) as [Hs|Hs].
      * rewrite (bool_decide_eq_true_2 _ Hs).
        by rewrite bool_decide_eq_false_2 by (by rewrite Hwith).
      * rewrite (bool_decide_eq_false_2 _ Hs).
        by rewrite (bool_decide_eq_false_2 _ Hs).
    + by rewrite bool_decide_eq_false_2 by (by rewrite Hmake).
  - intros stored -> Hs. case_bool_decide; [done |].
    by rewrite bool_decide_eq_false_2.
Qed.

End InstigatorStateFacts.

Lemma sensor_current_instigator_state_witness :
  plain_status
    (sensor_get_current_instigator_state mkPlainState plain_status plain_with_status
       id 30 (mkExternalSensor example_sensor "repo")
       (Some (mkPlainState "repo" InstigatorType.SENSOR
                InstigatorStatus.DECLARED_IN_CODE
                (SensorInstigatorData 30 AUTOMATION))))
  <> InstigatorStatus.DECLARED_IN_CODE.
Proof.
  apply (sensor_current_instigator_state mkPlainState plain_status plain_with_status
           id 30).
  - split; reflexivity.
  - discriminate.
Defined.

Lemma schedule_current_instigator_state_witness :
  plain_status
    (schedule_get_current_instigator_state mkPlainState plain_status plain_with_status
       id (mkExternalSchedule (mkScheduleSnap "nightly" "0 0 * * *" "job" None) "repo")
       (Some (mkPlainState "repo" InstigatorType.SCHEDULE
                InstigatorStatus.DECLARED_IN_CODE
                (ScheduleInstigatorData "0 0 * * *" None))))
  <> InstigatorStatus.DECLARED_IN_CODE.
Proof.
  apply (schedule_current_instigator_state mkPlainState plain_status plain_with_status id).
  - split; reflexivity.
  - discriminate.
Defined.
(** ** Dictionaries in insertion order *)

Section DictFacts.

Context {V : Type}.

Lemma dict_get_set_ne (d : Dict.t V) (k k' : string) (v : V) :
  k <> k' -> Dict.get (Dict.set d k v) k' = Dict.get d k'.
Proof.
  intros Hne. induction d as [|[k0 v0] d IH]; cbn.
  - by rewrite bool_decide_eq_false_2.
  - destruct (decide (k0 = k)) as [->|Hk].
    + rewrite bool_decide_eq_true_2 by done. cbn.
      by rewrite !bool_decide_eq_false_2.
    + rewrite (bool_decide_eq_false_2 _ Hk). cbn. by rewrite IH.
Qed.

Lemma dict_keys_get (d : Dict.t V) (k : string) :
  k ∈ Dict.keys d <-> is_Some (Dict.get d k).
Proof.
  induction d as [|[k0 v0] d IH]; cbn.
  - split; [intros H; by apply elem_of_nil in H | intros [? [=]]].
  - rewrite elem_of_cons. case_bool_decide as Hk.
    + split; [eauto | intros _; by left].
    + rewrite <- IH. split; [intros [->|?]; done | by right].
Qed.

Lemma dict_keys_set (d : Dict.t V) (k : string) (v : V) :
  Dict.keys (Dict.set d k v)
  = if bool_decide (k ∈ Dict.keys d) then Dict.keys d else Dict.keys d ++ [k].
Proof.
  induction d as [|[k0 v0] d IH]; cbn.
  - rewrite bool_decide_eq_false_2; [done | by intros H%elem_of_nil].
  - destruct (decide (k0 = k)) as [->|Hk].
    + rewrite bool_decide_eq_true_2 by done. cbn.
      rewrite bool_decide_eq_true_2; [done | by left].
    + rewrite (bool_decide_eq_false_2 _ Hk). cbn. fold (Dict.keys (Dict.set d k v)).
      fold (Dict.keys d). rewrite IH.
      destruct (decide (k ∈ Dict.keys d)) as [Hin|Hin].
      * rewrite !bool_decide_eq_true_2; [done | by right | done].
      * rewrite !bool_decide_eq_false_2; [done | | done].
        intros [->|?]%elem_of_cons; done.
Qed.

Lemma dict_keys_set_NoDup (d : Dict.t V) (k : string) (v : V) :
  NoDup (Dict.keys d) -> NoDup (Dict.keys (Dict.set d k v)).
Proof.
  intros Hd. rewrite dict_keys_set. case_bool_decide; [done |].
  apply NoDup_app. split; [done |]. split; [| apply NoDup_singleton].
  intros x Hx ->%list_elem_of_singleton. done.
Qed.

End DictFacts.

Section DictOfList.

Context {A V : Type}.
Variable key : A -> string.
Variable value : A -> V.

Local Abbreviation build := (fun d xs =>
  fold_left (fun d x => Dict.set d (key x) (value x)) xs d).

Lemma of_list_get_go (xs : list A) (d : Dict.t V) (k : string) :
  Dict.get (build d xs) k
  = match last (filter (fun x => key x = k) xs) with
    | Some x => Some (value x)
    | None => Dict.get d k
    end.
Proof.
  revert d. induction xs as [|x xs IH]; intros d; [done |].
  cbn [fold_left]. rewrite IH, filter_cons.
  destruct (decide (key x = k)) as [<-|Hk].
  - rewrite last_cons, dict_get_set.
    by destruct (last (filter _ xs)).
  - by rewrite dict_get_set_ne.
Qed.

Lemma of_list_keys_NoDup_go (xs : list A) (d : Dict.t V) :
  NoDup (Dict.keys d) -> NoDup (Dict.keys (build d xs)).
Proof.
  revert d. induction xs as [|x xs IH]; intros d Hd; [done |].
  cbn [fold_left]. by apply IH, dict_keys_set_NoDup.
Qed.

(** Looking a name up in [{key(x): value(x) for x in xs}] gives the value of
    the last [x] with that key. *)
Lemma of_list_get (xs : list A) (k : string) :
  Dict.get (Dict.of_list key value xs) k
  = value <$> last (filter (fun x => key x = k) xs).
Proof.
  unfold Dict.of_list. rewrite of_list_get_go.
  by destruct (last (filter _ xs)).
Qed.

Lemma of_list_keys_NoDup (xs : list A) : NoDup (Dict.keys (Dict.of_list key value xs)).
Proof. apply of_list_keys_NoDup_go. constructor. Qed.

Lemma of_list_keys (xs : list A) (k : string) :
  k ∈ Dict.keys (Dict.of_list key value xs) <-> exists x, x ∈ xs /\ key x = k.
Proof.
  rewrite dict_keys_get, of_list_get. split.
  - intros [v Hv]. destruct (last (filter _ xs)) as [x|] eqn:E; [|done].
    apply last_Some in E as [l E].
    assert (x ∈ filter (fun x => key x = k) xs) as Hx
      by (rewrite E; apply elem_of_app; right; apply list_elem_of_here).
    apply list_elem_of_filter in Hx as [? ?]. eauto.
  - intros (x & Hx & Hk).
    assert (x ∈ filter (fun x => key x = k) xs) as Hin
      by (by apply list_elem_of_filter).
    destruct (filter (fun x => key x = k) xs) as [|y l] eqn:E using rev_ind;
      [by apply elem_of_nil in Hin |].
    rewrite last_snoc. by eexists.
Qed.

End DictOfList.

Section DictEntries.

Context {V : Type}.

Lemma dict_set_Forall (P : string * V -> Prop) (d : Dict.t V) (k : string) (v : V) :
  Forall P d -> P (k, v) -> Forall P (Dict.set d k v).
Proof.
  intros Hd Hkv. induction Hd as [|[k0 v0] d H0 Hd IH]; cbn.
  - by constructor.
  - case_bool_decide; constructor; done.
Qed.

Lemma dict_get_elem_of (d : Dict.t V) (k : string) (v : V) :
  Dict.get d k = Some v -> (k, v) ∈ d.
Proof.
  induction d as [|[k0 v0] d IH]; cbn; [done |].
  case_bool_decide as Hk.
  - intros [= <-]. subst. by left.
  - intros H. right. by apply IH.
Qed.

Lemma dict_get_values (d : Dict.t V) (k : string) (v : V) :
  Dict.get d k = Some v -> v ∈ Dict.values d.
Proof.
  intros H%dict_get_elem_of. unfold Dict.values.
  apply list_elem_of_fmap. by exists (k, v).
Qed.

End DictEntries.

Lemma of_list_entries {A V : Type} (key : A -> string) (value : A -> V) (xs : list A) :
  Forall (fun kv => exists x, x ∈ xs /\ kv = (key x, value x))
    (Dict.of_list key value xs).
Proof.
  unfold Dict.of_list.
  enough (forall ys d,
    Forall (fun kv => exists x, x ∈ xs /\ kv = (key x, value x)) d ->
    (forall y, y ∈ ys -> y ∈ xs) ->
    Forall (fun kv => exists x, x ∈ xs /\ kv = (key x, value x))
      (fold_left (fun d x => Dict.set d (key x) (value x)) ys d)) as H
    by (apply H; [constructor | done]).
  induction ys as [|y ys IH]; intros d Hd Hys; [done |].
  cbn [fold_left]. apply IH.
  - apply dict_set_Forall; [done |]. exists y. split; [|done]. apply Hys. by left.
  - intros z Hz. apply Hys. by right.
Qed.

(** ** external.py: the sensors and schedules of a repository, by name *)

Lemma covered_loop_raises (g : AssetGraph) (sensors : list ExternalSensor)
    (acc : gset EntityKey) :
  ~ Coverage.all_selected sensors ->
  Repository.covered_loop g sensors acc
  = Raise (CheckError "Expected non-None value: None").
Proof.
  unfold Coverage.all_selected. revert acc.
  induction sensors as [|s sensors IH]; intros acc Hn.
  - destruct Hn. constructor.
  - cbn [Repository.covered_loop].
    destruct (Sensor.asset_selection s) as [sel|] eqn:Hs; [|done]. cbn.
    apply IH. intros Hall. apply Hn. constructor; [by rewrite Hs | done].
Qed.

Lemma all_selected_dec (sensors : list ExternalSensor) :
  Coverage.all_selected sensors \/ ~ Coverage.all_selected sensors.
Proof.
  unfold Coverage.all_selected. induction sensors as [|s sensors [IH|IH]].
  - left. constructor.
  - destruct (Sensor.asset_selection s) as [sel|] eqn:Hs.
    + left. constructor; [by rewrite Hs | done].
    + right. intros H. apply Forall_cons_1 in H as [[? H] _].
      rewrite Hs in H. discriminate.
  - right. intros [_ H]%Forall_cons_1. by apply IH.
Qed.

Lemma external_sensors_raise (self : ExternalRepository) (e : exn) :
  Repository._external_sensors self = Raise e ->
  auto_materialize_use_sensors self = true
  /\ ~ Coverage.all_selected (Coverage.existing self)
  /\ e = CheckError "Expected non-None value: None".
Proof.
  unfold Repository._external_sensors.
  destruct (auto_materialize_use_sensors self); [|done].
  rewrite existing_sensors.
  destruct (all_selected_dec (Coverage.existing self)) as [Hs|Hs].
  - rewrite (covered_loop_ok _ _ _ Hs). cbn.
    case_bool_decide; [|done]. by rewrite (subtract_loop_ok _ _ Hs).
  - rewrite (covered_loop_raises _ _ _ Hs). cbn. by intros [= <-].
Qed.

(** Some existing automation sensor has no asset selection: one of the
    repository's sensors is of type AUTO_MATERIALIZE or AUTOMATION and
    carries none. *)
Lemma not_all_selected (self : ExternalRepository) :
  ~ Coverage.all_selected (Coverage.existing self)
  <-> exists sensor,
        sensor ∈ Dict.values (Repository.sensor_datas_of self)
        /\ (Sensor.sensor_type sensor = AUTO_MATERIALIZE
            \/ Sensor.sensor_type sensor = AUTOMATION)
        /\ Sensor.asset_selection sensor = None.
Proof.
  unfold Coverage.all_selected, Coverage.existing. split.
  - intros (sensor & [Ht Hin]%list_elem_of_filter & Hnone)%not_Forall_Exists%Exists_exists;
      [| apply _].
    exists sensor. split; [done |]. split; [done |].
    by apply eq_None_not_Some.
  - intros (sensor & Hin & Ht & Hnone) Hall.
    rewrite Forall_forall in Hall.
    destruct (Hall sensor) as [sel Hsel]; [by apply list_elem_of_filter |].
    congruence.
Qed.

(** X3. [ExternalRepository._external_sensors] fails exactly when the
    sensor setting is on and one of the repository's sensors of type
    AUTO_MATERIALIZE or AUTOMATION has no asset selection; the failure is
    the CheckError of [check.not_none], whose message says that a value
    other than None was expected, and nothing else is ever raised.  With
    the setting off the result is the dictionary of the repository's own
    sensors, whatever the asset graph holds. *)
Theorem external_sensors_raises_iff (self : ExternalRepository) :
  ((exists e, Repository._external_sensors self = Raise e)
   <-> auto_materialize_use_sensors self = true
       /\ exists sensor,
            sensor ∈ Dict.values (Repository.sensor_datas_of self)
            /\ (Sensor.sensor_type sensor = AUTO_MATERIALIZE
                \/ Sensor.sensor_type sensor = AUTOMATION)
            /\ Sensor.asset_selection sensor = None)
  /\ (forall e, Repository._external_sensors self = Raise e ->
        exists msg, e = CheckError msg
                    /\ PyStr.contains "Expected non-None value" msg = true)
  /\ (auto_materialize_use_sensors self = false ->
        Repository._external_sensors self = Ok (Repository.sensor_datas_of self)).
Proof.
  rewrite <- not_all_selected. split; [split |split].
  - intros [e He]. apply external_sensors_raise in He. tauto.
  - intros [He Hs]. unfold Repository._external_sensors. rewrite He.
    rewrite existing_sensors, (covered_loop_raises _ _ _ Hs).
    by eexists.
  - intros e He. apply external_sensors_raise in He as (_ & _ & ->).
    by eexists.
  - unfold Repository._external_sensors. by intros ->.
Qed.

Lemma sensor_datas_entries (self : ExternalRepository) :
  Forall (fun kv => Sensor.name kv.2 = kv.1 /\ _handle kv.2 = repository_handle self)
    (Repository.sensor_datas_of self).
Proof.
  eapply Forall_impl; [apply of_list_entries |].
  by intros [k v] (x & _ & [= -> ->]).
Qed.

Lemma external_sensors_cases (self : ExternalRepository) (d : Dict.t ExternalSensor) :
  Repository._external_sensors self = Ok d ->
  d = Repository.sensor_datas_of self
  \/ exists selection,
       d = Dict.set (Repository.sensor_datas_of self)
             Repository.get_default_auto_materialize_sensor_name
             (mkExternalSensor (Repository.default_sensor_data_of selection)
                (repository_handle self)).
Proof.
  rewrite external_sensors_default_sensor.
  destruct (Repository.default_sensor self) as [[snap|]|e] eqn:Hd; cbn; [| |done].
  - intros [= <-]. right. revert Hd. unfold Repository.default_sensor.
    destruct (auto_materialize_use_sensors self); [|done].
    destruct (Repository.covered_loop _ _ _) as [cov|?]; [|done]. cbn.
    case_bool_decide; [|done].
    destruct (Repository.subtract_loop _ _) as [sel|?]; [|done]. cbn.
    intros [= <-]. by exists sel.
  - intros [= <-]. by left.
Qed.

Lemma external_sensors_entries (self : ExternalRepository)
    (sensors : Dict.t ExternalSensor) :
  Repository._external_sensors self = Ok sensors ->
  Forall (fun kv => Sensor.name kv.2 = kv.1 /\ _handle kv.2 = repository_handle self)
    sensors.
Proof.
  intros [->|[sel ->]]%external_sensors_cases.
  - apply sensor_datas_entries.
  - apply dict_set_Forall; [apply sensor_datas_entries | done].
Qed.

(** X4. The dictionary [ExternalRepository._external_sensors] returns
    loses no sensor of the repository: every sensor data's name is a key;
    under a name other than default_automation_condition_sensor is the
    sensor built from the last sensor data of that name, or nothing when
    there is none; every entry is filed under its own name with the
    repository's handle; and no name occurs twice. *)
Theorem external_sensors_keeps_sensors (self : ExternalRepository)
    (sensors : Dict.t ExternalSensor) :
  Repository._external_sensors self = Ok sensors ->
  (forall snap, snap ∈ external_sensor_datas self -> name snap ∈ Dict.keys sensors)
  /\ (forall sensor_name,
        sensor_name <> Repository.get_default_auto_materialize_sensor_name ->
        Dict.get sensors sensor_name
        = (fun snap => mkExternalSensor snap (repository_handle self))
            <$> last (filter (fun snap => name snap = sensor_name)
                        (external_sensor_datas self)))
  /\ Forall (fun kv => Sensor.name kv.2 = kv.1 /\ _handle kv.2 = repository_handle self)
       sensors
  /\ NoDup (Dict.keys sensors).
Proof.
  intros [->|[sel ->]]%external_sensors_cases.
  - split; [| split; [| split]].
    + intros snap Hsnap. apply of_list_keys. eauto.
    + intros n _. apply of_list_get.
    + apply sensor_datas_entries.
    + apply of_list_keys_NoDup.
  - split; [| split; [| split]].
    + intros snap Hsnap. rewrite dict_keys_set.
      assert (name snap ∈ Dict.keys (Repository.sensor_datas_of self)) as Hin
        by (apply of_list_keys; eauto).
      case_bool_decide; [done |]. apply elem_of_app. by left.
    + intros n Hn. rewrite dict_get_set_ne by done. apply of_list_get.
    + apply dict_set_Forall; [apply sensor_datas_entries | done].
    + apply dict_keys_set_NoDup, of_list_keys_NoDup.
Qed.

Lemma external_sensors_keeps_sensors_witness :
  exists sensors,
    Repository._external_sensors
      {| external_sensor_datas := [example_sensor; example_sensor];
         repository_handle := "repo";
         auto_materialize_use_sensors := false;
         asset_graph := example_graph |} = Ok sensors
    /\ NoDup (Dict.keys sensors).
Proof.
  eexists. split; [reflexivity |].
  eapply (external_sensors_keeps_sensors
            {| external_sensor_datas := [example_sensor; example_sensor];
               repository_handle := "repo";
               auto_materialize_use_sensors := false;
               asset_graph := example_graph |}).
  reflexivity.
Defined.

(** X5. [has_external_sensor], [get_external_sensor] and
    [get_external_sensors] agree: they fail together (when
    [_external_sensors] does); otherwise [get_external_sensor] returns a
    sensor exactly for the names [has_external_sensor] accepts and raises
    KeyError with the name for the others, and the sensor it returns bears
    the name asked for and is among [get_external_sensors]. *)
Theorem get_external_sensor_has_external_sensor (self : ExternalRepository)
    (sensor_name : string) :
  (RepositorySensors.has_external_sensor self sensor_name = Ok true
   <-> exists sensor, RepositorySensors.get_external_sensor self sensor_name = Ok sensor)
  /\ (RepositorySensors.has_external_sensor self sensor_name = Ok false
      <-> RepositorySensors.get_external_sensor self sensor_name
          = Raise (KeyError sensor_name))
  /\ (forall sensor,
        RepositorySensors.get_external_sensor self sensor_name = Ok sensor ->
        Sensor.name sensor = sensor_name
        /\ exists sensors, RepositorySensors.get_external_sensors self = Ok sensors
                           /\ sensor ∈ sensors)
  /\ (forall e, Repository._external_sensors self = Raise e ->
        RepositorySensors.has_external_sensor self sensor_name = Raise e
        /\ RepositorySensors.get_external_sensor self sensor_name = Raise e
        /\ RepositorySensors.get_external_sensors self = Raise e).
Proof.
  unfold RepositorySensors.has_external_sensor, RepositorySensors.get_external_sensor,
    RepositorySensors.get_external_sensors.
  destruct (Repository._external_sensors self) as [d|e0] eqn:Hd; cbn.
  - pose proof (dict_keys_get d sensor_name) as Hk.
    destruct (Dict.get d sensor_name) as [s|] eqn:Hg.
    + assert (sensor_name ∈ Dict.keys d) as Hin by (apply Hk; eauto).
      rewrite bool_decide_eq_true_2 by done.
      split; [split; eauto | split; [split; discriminate |]].
      split; [| discriminate].
      intros sensor [= <-]. split.
      * apply external_sensors_entries in Hd as Hall.
        rewrite Forall_forall in Hall.
        by destruct (Hall _ (dict_get_elem_of _ _ _ Hg)).
      * eexists. split; [done |]. by eapply dict_get_values.
    + assert (sensor_name ∉ Dict.keys d) as Hin
        by (intros [? H]%Hk; discriminate).
      rewrite bool_decide_eq_false_2 by done.
      split; [split; [discriminate | intros [? [=]]] |].
      split; [done |]. split; [discriminate | discriminate].
  - apply external_sensors_raise in Hd as (_ & _ & ->).
    split; [split; [discriminate | intros [? [=]]] |].
    split; [split; discriminate |].
    split; [discriminate |]. by intros e [= <-].
Qed.

(** X6. The schedules of a repository are kept by name, and a later
    schedule data replaces an earlier one of the same name:
    [get_external_schedule] returns the schedule of the last data with the
    name asked for and raises KeyError when no data has it,
    [has_external_schedule] says whether some data has the name, and
    [get_external_schedules] lists schedules of the repository's data with
    no name twice. *)
Theorem external_schedules_by_name {P : Type} (data : ExternalRepositoryData P)
    (handle : string) (schedule_name : string) :
  RepositorySchedules.get_external_schedule data handle schedule_name
  = match last (filter (fun d => snap_name d = schedule_name)
                  (external_schedule_datas data)) with
    | Some d => Ok (mkExternalSchedule d handle)
    | None => Raise (KeyError schedule_name)
    end
  /\ (RepositorySchedules.has_external_schedule data handle schedule_name = true
      <-> exists d, d ∈ external_schedule_datas data /\ snap_name d = schedule_name)
  /\ NoDup (map (fun s => snap_name (_external_schedule_data s))
              (RepositorySchedules.get_external_schedules data handle))
  /\ Forall (fun s => _external_schedule_data s ∈ external_schedule_datas data
                      /\ _schedule_handle s = handle)
       (RepositorySchedules.get_external_schedules data handle).
Proof.
  unfold RepositorySchedules.get_external_schedule,
    RepositorySchedules.has_external_schedule,
    RepositorySchedules.get_external_schedules,
    RepositorySchedules._external_schedules.
  pose proof (of_list_entries snap_name (fun d => mkExternalSchedule d handle)
                (external_schedule_datas data)) as Hall.
  split; [| split; [| split]].
  - rewrite of_list_get. by destruct (last _).
  - rewrite bool_decide_eq_true. apply of_list_keys.
  - pose proof (of_list_keys_NoDup snap_name (fun d => mkExternalSchedule d handle)
                  (external_schedule_datas data)) as Hnd.
    revert Hnd Hall. generalize (Dict.of_list snap_name
      (fun d => mkExternalSchedule d handle) (external_schedule_datas data)).
    intros d Hnd Hall. unfold Dict.values, Dict.keys in *.
    rewrite map_map.
    erewrite (map_ext_in _ fst); [exact Hnd |].
    intros [k v] Hin. rewrite Forall_forall in Hall.
    apply list_elem_of_In in Hin.
    by destruct (Hall _ Hin) as (x & _ & [= -> ->]).
  - unfold Dict.values. rewrite Forall_fmap. eapply Forall_impl; [exact Hall |].
    by intros [k v] (x & Hx & [= -> ->]).
Qed.

(** ** external.py: the asset nodes of a repository, by job *)

Section GroupByJob.

Context {N : Type}.
Variable job_names : N -> list string.

Lemma setdefault_append_lookup (jobs : gmap string (list N)) (j j' : string) (n : N) :
  default [] (RepositoryAssets.setdefault_append jobs j' n !! j)
  = default [] (jobs !! j) ++ (if decide (j' = j) then [n] else []).
Proof.
  unfold RepositoryAssets.setdefault_append. destruct (decide (j' = j)) as [->|Hne].
  - by rewrite lookup_insert_eq.
  - rewrite lookup_insert_ne by done. by rewrite app_nil_r.
Qed.

Lemma group_inner_lookup (js : list string) (jobs : gmap string (list N))
    (j : string) (n : N) :
  default []
    (fold_left (fun jobs job_name => RepositoryAssets.setdefault_append jobs job_name n)
       js jobs !! j)
  = default [] (jobs !! j) ++ ((fun _ => n) <$> filter (fun j' => j' = j) js).
Proof.
  revert jobs. induction js as [|j' js IH]; intros jobs; cbn [fold_left].
  - by rewrite app_nil_r.
  - rewrite IH, setdefault_append_lookup, filter_cons.
    destruct (decide (j' = j)); by rewrite <- app_assoc.
Qed.

Lemma group_by_job_lookup (nodes : list N) (j : string) :
  default [] (RepositoryAssets.group_by_job job_names nodes !! j)
  = RepositoryAssets.filed_under job_names j nodes.
Proof.
  unfold RepositoryAssets.group_by_job, RepositoryAssets.filed_under.
  enough (forall jobs,
    default []
      (fold_left
         (fun jobs node =>
            fold_left
              (fun jobs job_name => RepositoryAssets.setdefault_append jobs job_name node)
              (job_names node) jobs)
         nodes jobs !! j)
    = default [] (jobs !! j)
      ++ flat_map (fun node => (fun _ => node) <$> filter (fun j' => j' = j) (job_names node))
           nodes) as Hgo by (by rewrite Hgo, lookup_empty).
  induction nodes as [|n nodes IH]; intros jobs; cbn [fold_left flat_map].
  - by rewrite app_nil_r.
  - by rewrite IH, group_inner_lookup, <- app_assoc.
Qed.

Lemma elem_of_filed_under (nodes : list N) (j : string) (n : N) :
  n ∈ RepositoryAssets.filed_under job_names j nodes <-> n ∈ nodes /\ j ∈ job_names n.
Proof.
  unfold RepositoryAssets.filed_under. rewrite list_elem_of_In, in_flat_map. split.
  - intros (m & Hm & Hin). apply list_elem_of_In, list_elem_of_fmap in Hin
      as (j' & -> & [-> Hj]%list_elem_of_filter).
    by rewrite list_elem_of_In.
  - intros [Hn Hj]. exists n. split; [by apply list_elem_of_In |].
    apply list_elem_of_In, list_elem_of_fmap. exists j. split; [done |].
    by apply list_elem_of_filter.
Qed.

Lemma filter_eq_NoDup (js : list string) (j : string) :
  NoDup js ->
  filter (fun j' => j' = j) js = if decide (j ∈ js) then [j] else [].
Proof.
  induction 1 as [|j' js Hj' Hnd IH]; [done |].
  rewrite filter_cons, IH. destruct (decide (j' = j)) as [->|Hne].
  - destruct (decide (j ∈ j :: js)) as [_|Hn]; [| destruct Hn; by left].
    by destruct (decide (j ∈ js)).
  - destruct (decide (j ∈ js)) as [Hin|Hin];
      destruct (decide (j ∈ j' :: js)) as [Hin'|Hin']; try done.
    + destruct Hin'. by right.
    + by apply elem_of_cons in Hin' as [->|?].
Qed.

Lemma filed_under_NoDup (nodes : list N) (j : string) :
  Forall (fun n => NoDup (job_names n)) nodes ->
  RepositoryAssets.filed_under job_names j nodes = filter (fun n => j ∈ job_names n) nodes.
Proof.
  unfold RepositoryAssets.filed_under. induction 1 as [|n nodes Hn Hall IH]; [done |].
  cbn [flat_map]. rewrite IH, filter_cons, (filter_eq_NoDup _ _ Hn).
  by destruct (decide (j ∈ job_names n)).
Qed.

End GroupByJob.

Section AssetNodeFacts.

Context {PartitionsSnap : Type}.
Implicit Type data : ExternalRepositoryData PartitionsSnap.

(** X7. [get_asset_node_snaps] with a job name returns the asset nodes
    that name the job, in the order of the repository's asset graph data,
    each once for every time the job is among its job names; a job no node
    names gives the empty list; without a job name it returns the whole
    asset graph data. *)
Theorem get_asset_node_snaps_of_job data (job_name : string) :
  RepositoryAssets.get_asset_node_snaps data (Some job_name)
  = RepositoryAssets.filed_under node_job_names job_name (external_asset_graph_data data)
  /\ (forall asset_node,
        asset_node ∈ RepositoryAssets.get_asset_node_snaps data (Some job_name)
        <-> asset_node ∈ RepositoryAssets.get_asset_node_snaps data None
            /\ job_name ∈ node_job_names asset_node)
  /\ ((forall asset_node, asset_node ∈ external_asset_graph_data data ->
         job_name ∉ node_job_names asset_node)
      <-> RepositoryAssets.get_asset_node_snaps data (Some job_name) = []).
Proof.
  assert (RepositoryAssets.get_asset_node_snaps data (Some job_name)
          = RepositoryAssets.filed_under node_job_names job_name (external_asset_graph_data data)) as Heq
    by apply group_by_job_lookup.
  split; [done |]. rewrite Heq. split.
  - intros n. apply elem_of_filed_under.
  - split.
    + intros Hno.
      destruct (RepositoryAssets.filed_under _ _ _) as [|n l] eqn:E; [done |].
      assert (n ∈ RepositoryAssets.filed_under node_job_names job_name (external_asset_graph_data data))
        as [Hn Hj]%elem_of_filed_under by (rewrite E; by left).
      by destruct (Hno n Hn).
    + intros E n Hn Hj.
      assert (n ∈ RepositoryAssets.filed_under node_job_names job_name (external_asset_graph_data data))
        as Hin by (by apply elem_of_filed_under).
      rewrite E in Hin. by apply elem_of_nil in Hin.
Qed.

(** X8. When no asset node lists a job twice, [get_asset_node_snaps] with
    a job name is the asset graph data filtered by the job: a sublist of
    what it returns without a job name. *)
Theorem get_asset_node_snaps_filter data (job_name : string) :
  Forall (fun asset_node => NoDup (node_job_names asset_node))
    (external_asset_graph_data data) ->
  RepositoryAssets.get_asset_node_snaps data (Some job_name)
  = filter (fun asset_node => job_name ∈ node_job_names asset_node)
      (RepositoryAssets.get_asset_node_snaps data None)
  /\ sublist (RepositoryAssets.get_asset_node_snaps data (Some job_name))
       (RepositoryAssets.get_asset_node_snaps data None).
Proof.
  intros Hnd.
  assert (RepositoryAssets.get_asset_node_snaps data (Some job_name)
          = filter (fun asset_node => job_name ∈ node_job_names asset_node)
              (external_asset_graph_data data)) as Heq.
  { unfold RepositoryAssets.get_asset_node_snaps, RepositoryAssets._asset_jobs.
    rewrite group_by_job_lookup. by apply filed_under_NoDup. }
  split; [done |]. rewrite Heq. apply sublist_filter.
Qed.

(** X9. [get_asset_check_node_snaps] tests its job name for truth: the
    empty string gives all the asset checks, as no job name does, and an
    absent list of checks counts as empty; any other job name gives the
    checks that name the job. *)
Theorem get_asset_check_node_snaps_of_job data (job_name : string) :
  RepositoryAssets.get_asset_check_node_snaps data (Some "")
  = RepositoryAssets.get_asset_check_node_snaps data None
  /\ RepositoryAssets.get_asset_check_node_snaps data None
     = default [] (external_asset_checks data)
  /\ (job_name <> "" ->
      RepositoryAssets.get_asset_check_node_snaps data (Some job_name)
      = RepositoryAssets.filed_under check_node_job_names job_name (default [] (external_asset_checks data))
      /\ forall check_node,
           check_node ∈ RepositoryAssets.get_asset_check_node_snaps data (Some job_name)
           <-> check_node ∈ RepositoryAssets.get_asset_check_node_snaps data None
               /\ job_name ∈ check_node_job_names check_node).
Proof.
  split; [done |]. split; [done |]. intros Hne.
  assert (RepositoryAssets.get_asset_check_node_snaps data (Some job_name)
          = RepositoryAssets.filed_under check_node_job_names job_name
              (default [] (external_asset_checks data))) as Heq.
  { unfold RepositoryAssets.get_asset_check_node_snaps.
    rewrite bool_decide_eq_true_2 by done. apply group_by_job_lookup. }
  split; [done |]. rewrite Heq. intros c. apply elem_of_filed_under.
Qed.

(** X10. [get_asset_node_snap] returns the first asset node with the key
    asked for, and None exactly when no node has it. *)
Theorem get_asset_node_snap_first data (asset_key : AssetKey) :
  (RepositoryAssets.get_asset_node_snap data asset_key = None
   <-> forall asset_node, asset_node ∈ external_asset_graph_data data ->
         node_asset_key asset_node <> asset_key)
  /\ (forall asset_node,
        RepositoryAssets.get_asset_node_snap data asset_key = Some asset_node
        <-> exists before after,
              external_asset_graph_data data = before ++ asset_node :: after
              /\ node_asset_key asset_node = asset_key
              /\ forall other, other ∈ before -> node_asset_key other <> asset_key).
Proof.
  unfold RepositoryAssets.get_asset_node_snap.
  generalize (external_asset_graph_data data). intros nodes. split.
  - induction nodes as [|n nodes IH].
    + split; [intros _ ? H; by apply elem_of_nil in H | done].
    + rewrite filter_cons. destruct (decide (node_asset_key n = asset_key)) as [Hk|Hk].
      * split; [done |]. intros H. destruct (H n); [by left | done].
      * rewrite IH. split.
        -- intros H m [->|Hm]%elem_of_cons; [done | by apply H].
        -- intros H m Hm. apply H. by right.
  - intros node. induction nodes as [|n nodes IH].
    + split; [done |]. intros (before & after & E & _). by destruct before.
    + rewrite filter_cons. destruct (decide (node_asset_key n = asset_key)) as [Hk|Hk].
      * cbn. split.
        -- intros [= <-]. exists [], nodes. split; [done |]. split; [done |].
           intros ? H; by apply elem_of_nil in H.
        -- intros ([|b before] & after & E & Hn & Hb).
           ++ by injection E as ->.
           ++ injection E as <- _. destruct (Hb n); [by left | done].
      * rewrite IH. split.
        -- intros (before & after & -> & Hn & Hb). exists (n :: before), after.
           split; [done |]. split; [done |].
           intros m [->|Hm]%elem_of_cons; [done | by apply Hb].
        -- intros ([|b before] & after & E & Hn & Hb).
           ++ injection E as ->. done.
           ++ injection E as <- ->. exists before, after. split; [done |].
              split; [done |]. intros m Hm. apply Hb. by right.
Qed.

End AssetNodeFacts.

Lemma get_asset_node_snaps_filter_witness :
  RepositoryAssets.get_asset_node_snaps example_repository_data (Some "job2")
  = filter (fun asset_node => "job2" ∈ node_job_names asset_node)
      (RepositoryAssets.get_asset_node_snaps example_repository_data None).
Proof.
  apply (proj1 (get_asset_node_snaps_filter example_repository_data "job2"
                  ltac:(repeat constructor; cbn; set_solver))).
Defined.

Section PartitionsDefFacts.

Context {PartitionsSnap PartitionsDefinition : Type} `{Countable PartitionsDefinition}.
Variable get_partitions_definition : PartitionsSnap -> PartitionsDefinition.
Implicit Type data : ExternalRepositoryData PartitionsSnap.

Lemma unique_partitions_defs_of_spec (selected_asset_keys : option (gset AssetKey))
    (asset_nodes : list (AssetNodeSnap PartitionsSnap)) :
  RepositoryAssets.unique_partitions_defs_of get_partitions_definition
    selected_asset_keys asset_nodes
  = list_to_set
      (get_partitions_definition
         <$> omap node_partitions
               (filter (fun asset_node =>
                          RepositoryAssets.not_selected selected_asset_keys asset_node
                          = false)
                  asset_nodes)).
Proof.
  unfold RepositoryAssets.unique_partitions_defs_of.
  rewrite <- (left_id_L ∅ (∪) (list_to_set _)). generalize (∅ : gset PartitionsDefinition).
  induction asset_nodes as [|n nodes IH]; intros acc; cbn [fold_left].
  - cbn. by rewrite (right_id_L ∅ (∪)).
  - rewrite IH, filter_cons.
    destruct (RepositoryAssets.not_selected selected_asset_keys n) eqn:Hs.
    + by rewrite decide_False.
    + rewrite decide_True by done. cbn [omap list_omap].
      destruct (node_partitions n) as [p|]; [|done].
      cbn. by rewrite (assoc_L (∪)).
Qed.

Lemma elements_singleton_iff (unique : gset PartitionsDefinition)
    (partitions_def : PartitionsDefinition) :
  elements unique = [partitions_def] <-> unique = {[partitions_def]}.
Proof.
  split.
  - intros E. apply set_eq. intros y.
    by rewrite <- elem_of_elements, E, list_elem_of_singleton, elem_of_singleton.
  - intros ->. apply elements_singleton.
Qed.

Lemma list_to_set_singleton (l : list PartitionsDefinition)
    (partitions_def : PartitionsDefinition) :
  list_to_set (C := gset PartitionsDefinition) l = {[partitions_def]}
  <-> l <> [] /\ forall x, x ∈ l -> x = partitions_def.
Proof.
  split.
  - intros E. split.
    + intros ->. cbn in E. set_solver.
    + intros x Hx. apply (elem_of_list_to_set (C := gset PartitionsDefinition)) in Hx.
      rewrite E in Hx. by apply elem_of_singleton in Hx.
  - intros [Hne Hall]. apply set_eq. intros y.
    rewrite elem_of_list_to_set, elem_of_singleton. split; [apply Hall |].
    intros ->. destruct l as [|x l]; [done |].
    rewrite <- (Hall x); by left.
Qed.

(** X11. [_get_partitions_def_for_job] returns a partitions definition
    exactly when the job has a partitioned asset node within the selection
    and all such nodes have that same definition; otherwise it fails with a
    CheckError that says no definition is shared.  In particular a job
    without a partitioned node in the selection is an error (0 unique
    definitions), not an absent result. *)
Theorem get_partitions_def_for_job_unique data (job_name : string)
    (selected_asset_keys : option (gset AssetKey)) :
  let outcome :=
    RepositoryAssets._get_partitions_def_for_job get_partitions_definition
      data job_name selected_asset_keys in
  let partitions :=
    RepositoryAssets.selected_partitions data job_name selected_asset_keys in
  (forall partitions_def,
     outcome = Ok partitions_def
     <-> partitions <> []
         /\ forall p, p ∈ partitions -> get_partitions_definition p = partitions_def)
  /\ (forall e, outcome = Raise e ->
        exists msg, e = CheckError msg
          /\ PyStr.contains
               "There is no PartitionsDefinition shared by all the provided assets. "
               msg = true)
  /\ (partitions = [] ->
      exists msg, outcome = Raise (CheckError msg)
        /\ PyStr.contains "0 unique PartitionsDefinitions." msg = true).
Proof.
  cbv zeta. unfold RepositoryAssets._get_partitions_def_for_job.
  rewrite unique_partitions_defs_of_spec.
  fold (RepositoryAssets.selected_partitions data job_name selected_asset_keys).
  set (ps := RepositoryAssets.selected_partitions data job_name selected_asset_keys).
  set (u := list_to_set (get_partitions_definition <$> ps) : gset PartitionsDefinition).
  assert (forall pd, elements u = [pd]
            <-> ps <> [] /\ forall p, p ∈ ps -> get_partitions_definition p = pd) as Hu.
  { intros pd. rewrite elements_singleton_iff. unfold u.
    rewrite list_to_set_singleton. split.
    - intros [Hne Hall]. split; [by intros ->|].
      intros p Hp. apply Hall, list_elem_of_fmap. eauto.
    - intros [Hne Hall]. split; [by destruct ps |].
      intros x (p & -> & Hp)%list_elem_of_fmap. by apply Hall. }
  split; [| split].
  - intros pd. rewrite <- Hu.
    destruct (elements u) as [|x [|y l]]; cbn; split; try done.
    + by intros [= ->].
    + by intros [= ->].
  - intros e. destruct (elements u) as [|x [|y l]]; cbn; try done.
    all: unfold check_failed; intros [= <-]; eexists; split; [done |].
    all: apply contains_behind, contains_prefix, prefix_append.
  - intros Hps. unfold u. rewrite Hps. eexists. split; [reflexivity |].
    by vm_compute.
Qed.

End PartitionsDefFacts.

(** ** external.py: ExternalExecutionPlan *)

Section ExecutionPlanFacts.

Import ExecutionPlan.

Lemma step_index_lookup_go (l : list ExecutionStepSnap)
    (index : gmap string ExecutionStepSnap) (k : string) :
  fold_left (fun index step => <[key step := step]> index) l index !! k
  = match last (filter (fun step => key step = k) l) with
    | Some step => Some step
    | None => index !! k
    end.
Proof.
  revert index. induction l as [|s l IH]; intros index; [done |].
  cbn [fold_left]. rewrite IH, filter_cons.
  destruct (decide (key s = k)) as [<-|Hk].
  - rewrite last_cons, lookup_insert_eq. by destruct (last _).
  - by rewrite lookup_insert_ne.
Qed.

(** [_step_index] holds, for a key, the last step of the snapshot with
    that key. *)
Lemma step_index_lookup (snapshot : ExecutionPlanSnapshot) (k : string) :
  _step_index snapshot !! k
  = last (filter (fun step => key step = k) (steps snapshot)).
Proof.
  unfold _step_index. rewrite step_index_lookup_go, lookup_empty.
  by destruct (last _).
Qed.

Lemma step_index_Some (snapshot : ExecutionPlanSnapshot) (k : string)
    (step : ExecutionStepSnap) :
  _step_index snapshot !! k = Some step -> key step = k /\ step ∈ steps snapshot.
Proof.
  rewrite step_index_lookup. intros [l E]%last_Some.
  assert (step ∈ filter (fun step => key step = k) (steps snapshot)) as Hin
    by (rewrite E; apply elem_of_app; right; by left).
  by apply list_elem_of_filter in Hin.
Qed.

Lemma step_index_is_Some (snapshot : ExecutionPlanSnapshot) (k : string) :
  is_Some (_step_index snapshot !! k)
  <-> exists step, step ∈ steps snapshot /\ key step = k.
Proof.
  split.
  - intros [step [? ?]%step_index_Some]. eauto.
  - intros (step & Hin & Hk). rewrite step_index_lookup.
    assert (step ∈ filter (fun step => key step = k) (steps snapshot)) as Hf
      by (by apply list_elem_of_filter).
    destruct (filter _ (steps snapshot)) as [|y l] eqn:E using rev_ind;
      [by apply elem_of_nil in Hf |].
    rewrite last_snoc. by eexists.
Qed.

Lemma for_each_app {A S : Type} (body : S -> A -> result S) (xs ys : list A)
    (state : S) :
  for_each body (xs ++ ys) state
  = state' ← for_each body xs state; for_each body ys state'.
Proof.
  revert state. induction xs as [|x xs IH]; intros state; cbn; [done |].
  destruct (body state x) as [state'|e]; cbn; [apply IH | done].
Qed.

(** The first loop of [execution_deps]. *)
Lemma empty_deps_lookup (l : list string) (deps : gmap string (gset string))
    (k : string) :
  fold_left (fun deps k => <[k := ∅]> deps) l deps !! k
  = if decide (k ∈ l) then Some ∅ else deps !! k.
Proof.
  revert deps. induction l as [|k' l IH]; intros deps; cbn [fold_left].
  - rewrite decide_False; [done | apply not_elem_of_nil].
  - rewrite IH. destruct (decide (k ∈ l)) as [Hin|Hin].
    + rewrite decide_True; [done | by right].
    + destruct (decide (k' = k)) as [->|Hne].
      * rewrite lookup_insert_eq. rewrite decide_True; [done | by left].
      * rewrite lookup_insert_ne by done.
        rewrite decide_False; [done |]. by intros [->|?]%elem_of_cons.
Qed.

Lemma update_Some (deps : gmap string (gset string)) (k : string)
    (old new : gset string) :
  deps !! k = Some old -> update deps k new = Ok (<[k := old ∪ new]> deps).
Proof. unfold update. by intros ->. Qed.

Lemma get_step_by_key_Some (snapshot : ExecutionPlanSnapshot) (k : string)
    (step : ExecutionStepSnap) :
  _step_index snapshot !! k = Some step -> get_step_by_key snapshot k = Ok step.
Proof. unfold get_step_by_key. by intros ->. Qed.

Lemma get_step_by_key_None (snapshot : ExecutionPlanSnapshot) (k : string) :
  _step_index snapshot !! k = None -> get_step_by_key snapshot k = Raise (KeyError k).
Proof. unfold get_step_by_key. by intros ->. Qed.

Section Loops.

Variable snapshot : ExecutionPlanSnapshot.

Local Abbreviation plan := (_step_keys_in_plan snapshot).

Local Abbreviation inner := (fun (step : ExecutionStepSnap) =>
  for_each
    (fun deps step_input =>
       update deps (key step)
         (list_to_set (step_key <$> upstream_output_handles step_input) ∩ plan))).

Local Abbreviation outer :=
  (for_each (fun deps k => step ← get_step_by_key snapshot k; inner step (inputs step) deps)).

(** The inner loop adds the upstream keys of the inputs it runs over, cut
    down to the plan, to the step's entry. *)
Lemma inner_loop (step : ExecutionStepSnap) (step_inputs : list ExecutionStepInputSnap)
    (deps : gmap string (gset string)) (old : gset string) :
  deps !! key step = Some old ->
  inner step step_inputs deps
  = Ok (<[key step :=
            old ∪ (⋃ ((fun step_input =>
                         list_to_set (C := gset string)
                           (step_key <$> upstream_output_handles step_input))
                        <$> step_inputs)) ∩ plan]> deps).
Proof.
  revert deps old. induction step_inputs as [|i l IH]; intros deps old Hold.
  - cbn. f_equal. rewrite (left_absorb_L ∅ (∩)), (right_id_L ∅ (∪)).
    by rewrite insert_id.
  - cbn [for_each]. rewrite (update_Some _ _ _ _ Hold). cbn.
    rewrite (IH _ _ (lookup_insert_eq _ _ _)). f_equal.
    rewrite insert_insert_eq. f_equal. cbn. set_solver.
Qed.

Lemma outer_loop (l : list string) (deps : gmap string (gset string)) :
  Forall (fun k => is_Some (_step_index snapshot !! k) /\ is_Some (deps !! k)) l ->
  exists deps',
    outer l deps = Ok deps'
    /\ forall k, deps' !! k
         = if decide (k ∈ l) then (fun old => old ∪ gain snapshot k) <$> deps !! k
           else deps !! k.
Proof.
  revert deps. induction l as [|k0 l IH]; intros deps Hall.
  - exists deps. split; [done |]. intros k.
    rewrite decide_False; [done | apply not_elem_of_nil].
  - apply Forall_cons_1 in Hall as [[[step Hstep] [old Hold]] Hall].
    cbn [for_each]. rewrite (get_step_by_key_Some _ _ _ Hstep). cbn.
    pose proof (step_index_Some _ _ _ Hstep) as [Hkey _].
    rewrite (inner_loop step (inputs step) deps old) by (by rewrite Hkey).
    rewrite Hkey. fold (upstream_step_keys step).
    destruct (IH (<[k0 := old ∪ upstream_step_keys step ∩ plan]> deps))
      as (deps' & Hrun & Hdeps').
    { eapply Forall_impl; [exact Hall |]. intros k [Hi Hd]. split; [done |].
      destruct (decide (k0 = k)) as [->|Hne];
        [by rewrite lookup_insert_eq | by rewrite lookup_insert_ne]. }
    exists deps'. split; [exact Hrun |]. intros k. rewrite Hdeps'.
    assert (gain snapshot k0 = upstream_step_keys step ∩ plan) as Hgain
      by (unfold gain; by rewrite Hstep).
    destruct (decide (k0 = k)) as [<-|Hne].
    + rewrite lookup_insert_eq, Hold, (decide_True (P := k0 ∈ k0 :: l)) by (by left).
      rewrite Hgain. destruct (decide (k0 ∈ l)); cbn; [f_equal; set_solver | done].
    + rewrite lookup_insert_ne by done.
      destruct (decide (k ∈ l)) as [Hin|Hin].
      * rewrite decide_True; [done | by right].
      * rewrite decide_False; [done |]. by intros [->|?]%elem_of_cons.
Qed.

Lemma outer_loop_raises (before after : list string) (k : string)
    (deps : gmap string (gset string)) :
  Forall (fun k => is_Some (_step_index snapshot !! k) /\ is_Some (deps !! k)) before ->
  _step_index snapshot !! k = None ->
  outer (before ++ k :: after) deps = Raise (KeyError k).
Proof.
  intros Hall Hk. rewrite for_each_app.
  destruct (outer_loop before deps Hall) as (deps' & -> & _). cbn.
  by rewrite (get_step_by_key_None _ _ Hk).
Qed.

End Loops.

Lemma first_missing {A : Type} (P : A -> Prop) `{!forall x, Decision (P x)}
    (l : list A) :
  Forall P l
  \/ exists before x after, l = before ++ x :: after /\ Forall P before /\ ~ P x.
Proof.
  induction l as [|x l [IH|(before & y & after & -> & Hb & Hy)]].
  - left. constructor.
  - destruct (decide (P x)) as [Hx|Hx].
    + left. by constructor.
    + right. exists [], x, l. split; [done |]. split; [constructor | done].
  - destruct (decide (P x)) as [Hx|Hx].
    + right. exists (x :: before), y, after. split; [done |].
      split; [by constructor | done].
    + right. exists [], x, (before ++ y :: after). split; [done |].
      split; [constructor | done].
Qed.


Lemma plan_keys (snapshot : ExecutionPlanSnapshot) (k : string) :
  k ∈ _step_keys_in_plan snapshot
  <-> if decide (step_keys_to_execute snapshot = [])
      then is_Some (_step_index snapshot !! k)
      else k ∈ step_keys_to_execute snapshot.
Proof.
  unfold _step_keys_in_plan.
  destruct (step_keys_to_execute snapshot) as [|k0 l] eqn:E.
  - rewrite decide_True by done. apply elem_of_dom.
  - rewrite decide_False by done. apply elem_of_list_to_set.
Qed.

(** Every key of the plan is a step of the snapshot exactly when every key
    to execute is. *)
Lemma plan_in_index (snapshot : ExecutionPlanSnapshot) :
  (forall k, k ∈ step_keys_to_execute snapshot ->
     exists step, step ∈ steps snapshot /\ key step = k)
  <-> Forall (fun k => is_Some (_step_index snapshot !! k))
        (elements (_step_keys_in_plan snapshot)).
Proof.
  rewrite Forall_forall. split.
  - intros H k Hk%elem_of_elements%plan_keys.
    destruct (decide (step_keys_to_execute snapshot = [])); [done |].
    by apply step_index_is_Some, H.
  - intros H k Hk. apply step_index_is_Some, H, elem_of_elements, plan_keys.
    destruct (decide (step_keys_to_execute snapshot = [])) as [E|]; [|done].
    rewrite E in Hk. by apply elem_of_nil in Hk.
Qed.

Lemma execution_deps_ok (snapshot : ExecutionPlanSnapshot) :
  Forall (fun k => is_Some (_step_index snapshot !! k))
    (elements (_step_keys_in_plan snapshot)) ->
  exists deps,
    execution_deps snapshot = Ok deps
    /\ forall k, deps !! k
         = if decide (k ∈ _step_keys_in_plan snapshot)
           then Some (gain snapshot k) else None.
Proof.
  intros Hall. unfold execution_deps.
  set (deps0 := fold_left (fun deps k => <[k := ∅]> deps)
                  (elements (_step_keys_in_plan snapshot)) ∅).
  destruct (outer_loop snapshot (elements (_step_keys_in_plan snapshot)) deps0)
    as (deps & Hrun & Hdeps).
  { rewrite Forall_forall in Hall |- *. intros k Hk. split; [by apply Hall |].
    unfold deps0. rewrite empty_deps_lookup, decide_True by done. by eexists. }
  exists deps. split; [exact Hrun |]. intros k. rewrite Hdeps. unfold deps0.
  rewrite empty_deps_lookup, lookup_empty.
  destruct (decide (k ∈ elements (_step_keys_in_plan snapshot))) as [Hin|Hin].
  - rewrite decide_True by (by apply elem_of_elements). cbn.
    by rewrite (left_id_L ∅ (∪)).
  - rewrite decide_False; [done |]. by rewrite <- elem_of_elements.
Qed.

Lemma execution_deps_missing (snapshot : ExecutionPlanSnapshot) :
  ~ Forall (fun k => is_Some (_step_index snapshot !! k))
      (elements (_step_keys_in_plan snapshot)) ->
  exists k, execution_deps snapshot = Raise (KeyError k)
            /\ k ∈ _step_keys_in_plan snapshot
            /\ _step_index snapshot !! k = None.
Proof.
  intros Hn.
  destruct (first_missing (fun k => is_Some (_step_index snapshot !! k))
              (elements (_step_keys_in_plan snapshot)))
    as [?|(before & k & after & E & Hb & Hk)]; [done |].
  exists k. split; [| split].
  - unfold execution_deps. rewrite E. apply outer_loop_raises.
    + rewrite Forall_forall in Hb |- *. intros k' Hk'. split; [by apply Hb |].
      rewrite <- E, empty_deps_lookup, decide_True; [by eexists |].
      rewrite E. apply elem_of_app. by left.
    + by apply eq_None_not_Some.
  - apply elem_of_elements. rewrite E. apply elem_of_app. right. by left.
  - by apply eq_None_not_Some.
Qed.

Lemma plan_in_index_dec (snapshot : ExecutionPlanSnapshot) :
  Forall (fun k => is_Some (_step_index snapshot !! k))
    (elements (_step_keys_in_plan snapshot))
  \/ ~ Forall (fun k => is_Some (_step_index snapshot !! k))
        (elements (_step_keys_in_plan snapshot)).
Proof. destruct (decide (Forall (fun k => is_Some (_step_index snapshot !! k))
    (elements (_step_keys_in_plan snapshot)))); auto. Qed.

(** X12. When every key to execute is a step of the snapshot,
    [execution_deps] returns a dictionary whose keys are the keys of the
    plan and whose entry for a key is the set of step keys that the inputs
    of its step name as upstream, cut down to the plan: no entry mentions a
    step outside the plan. *)
Theorem execution_deps_of_plan (snapshot : ExecutionPlanSnapshot) :
  (forall k, k ∈ step_keys_to_execute snapshot ->
     exists step, step ∈ steps snapshot /\ key step = k) ->
  exists deps,
    execution_deps snapshot = Ok deps
    /\ dom deps = _step_keys_in_plan snapshot
    /\ (forall k step,
          k ∈ _step_keys_in_plan snapshot ->
          get_step_by_key snapshot k = Ok step ->
          deps !! k = Some (upstream_step_keys step ∩ _step_keys_in_plan snapshot))
    /\ (forall k upstream, deps !! k = Some upstream ->
          upstream ⊆ _step_keys_in_plan snapshot).
Proof.
  intros Hall%plan_in_index.
  destruct (execution_deps_ok snapshot Hall) as (deps & Hrun & Hdeps).
  exists deps. split; [exact Hrun |]. split; [| split].
  - apply set_eq. intros k. rewrite elem_of_dom, Hdeps.
    destruct (decide (k ∈ _step_keys_in_plan snapshot)) as [Hin|Hin].
    + split; [done | by eexists].
    + split; [by intros [? ?] | done].
  - intros k step Hk Hstep. rewrite Hdeps, decide_True by done.
    unfold gain. unfold get_step_by_key in Hstep.
    destruct (_step_index snapshot !! k); [by injection Hstep as -> | done].
  - intros k upstream. rewrite Hdeps.
    destruct (decide (k ∈ _step_keys_in_plan snapshot)); [|done].
    intros [= <-]. unfold gain.
    destruct (_step_index snapshot !! k); set_solver.
Qed.

Lemma execution_deps_of_plan_witness :
  exists deps,
    execution_deps example_plan = Ok deps
    /\ dom deps = _step_keys_in_plan example_plan.
Proof.
  destruct (execution_deps_of_plan example_plan) as (deps & Hrun & Hdom & _).
  - intros k Hk. apply step_index_is_Some.
    cbn in Hk. apply elem_of_cons in Hk as [->|Hk]; [by eexists |].
    apply list_elem_of_singleton in Hk as ->. by eexists.
  - by exists deps.
Defined.

(** X13. [execution_deps] fails exactly when some key to execute is not
    the key of a step of the snapshot; the failure is the KeyError of such
    a key.  A snapshot with no keys to execute has the whole of its steps
    as plan and cannot fail. *)
Theorem execution_deps_raises (snapshot : ExecutionPlanSnapshot) :
  ((exists e, execution_deps snapshot = Raise e)
   <-> exists k, k ∈ step_keys_to_execute snapshot
                 /\ forall step, step ∈ steps snapshot -> key step <> k)
  /\ (forall e, execution_deps snapshot = Raise e ->
        exists k, e = KeyError k
                  /\ k ∈ step_keys_to_execute snapshot
                  /\ forall step, step ∈ steps snapshot -> key step <> k)
  /\ (step_keys_to_execute snapshot = [] ->
        exists deps, execution_deps snapshot = Ok deps
                     /\ dom deps = list_to_set (key <$> steps snapshot)).
Proof.
  assert (forall e, execution_deps snapshot = Raise e ->
            exists k, e = KeyError k
                      /\ k ∈ step_keys_to_execute snapshot
                      /\ forall step, step ∈ steps snapshot -> key step <> k) as Hraise.
  { intros e He. destruct (plan_in_index_dec snapshot) as [Hall|Hn].
    - destruct (execution_deps_ok snapshot Hall) as (deps & Hrun & _). congruence.
    - destruct (execution_deps_missing snapshot Hn) as (k & Hrun & Hk & Hnone).
      exists k. split; [congruence |]. apply plan_keys in Hk.
      destruct (decide (step_keys_to_execute snapshot = []));
        [rewrite Hnone in Hk; by destruct Hk |].
      split; [done |]. intros step Hstep Hkey.
      assert (is_Some (_step_index snapshot !! k)) as [? ?]
        by (apply step_index_is_Some; eauto).
      congruence. }
  split; [split | split].
  - intros [e (k & _ & Hk)%Hraise]. eauto.
  - intros (k & Hk & Hno). destruct (plan_in_index_dec snapshot) as [Hall|Hn].
    + destruct (proj2 (plan_in_index snapshot) Hall k Hk) as (step & Hstep & Hkey).
      by destruct (Hno step Hstep).
    + destruct (execution_deps_missing snapshot Hn) as (k' & Hrun & _). eauto.
  - exact Hraise.
  - intros E.
    assert (Forall (fun k => is_Some (_step_index snapshot !! k))
              (elements (_step_keys_in_plan snapshot))) as Hall.
    { apply plan_in_index. intros k. rewrite E. by intros ?%elem_of_nil. }
    destruct (execution_deps_ok snapshot Hall) as (deps & Hrun & Hdeps).
    exists deps. split; [exact Hrun |]. apply set_eq. intros k.
    rewrite elem_of_dom, Hdeps, elem_of_list_to_set, list_elem_of_fmap.
    pose proof (plan_keys snapshot k) as Hk. rewrite decide_True in Hk by done.
    rewrite step_index_is_Some in Hk.
    destruct (decide (k ∈ _step_keys_in_plan snapshot)) as [Hin|Hin].
    + split; [| by eexists]. intros _. apply Hk in Hin as (step & ? & ?). eauto.
    + split; [by intros [? ?] |]. intros (step & -> & Hstep). destruct Hin.
      apply Hk. eauto.
Qed.


Lemma steps_loop (snapshot : ExecutionPlanSnapshot) (l : list string)
    (acc : list ExecutionStepSnap) :
  Forall (fun k => is_Some (_step_index snapshot !! k)) l ->
  exists found,
    for_each (fun acc sk => step ← get_step_by_key snapshot sk; Ok (acc ++ [step])) l acc
    = Ok (acc ++ found)
    /\ Forall2 (fun k step => _step_index snapshot !! k = Some step) l found.
Proof.
  revert acc. induction l as [|k l IH]; intros acc Hall.
  - exists []. split; [by rewrite app_nil_r | constructor].
  - apply Forall_cons_1 in Hall as [[step Hstep] Hall].
    destruct (IH (acc ++ [step]) Hall) as (found & Hrun & Hfound).
    exists (step :: found). split; [| by constructor].
    cbn [for_each]. rewrite (get_step_by_key_Some _ _ _ Hstep). cbn.
    by rewrite Hrun, <- app_assoc.
Qed.

Lemma steps_loop_raises (snapshot : ExecutionPlanSnapshot) (before after : list string)
    (k : string) (acc : list ExecutionStepSnap) :
  Forall (fun k => is_Some (_step_index snapshot !! k)) before ->
  _step_index snapshot !! k = None ->
  for_each (fun acc sk => step ← get_step_by_key snapshot sk; Ok (acc ++ [step]))
    (before ++ k :: after) acc
  = Raise (KeyError k).
Proof.
  intros Hall Hk. rewrite for_each_app.
  destruct (steps_loop snapshot before acc Hall) as (found & -> & _). cbn.
  by rewrite (get_step_by_key_None _ _ Hk).
Qed.

Lemma found_steps (snapshot : ExecutionPlanSnapshot) (l : list string)
    (found : list ExecutionStepSnap) :
  Forall2 (fun k step => _step_index snapshot !! k = Some step) l found ->
  key <$> found = l
  /\ forall step, step ∈ found -> step ∈ steps snapshot /\ key step ∈ l.
Proof.
  induction 1 as [|k step l found Hk _ [IH1 IH2]].
  - split; [done | by intros ? ?%elem_of_nil].
  - apply step_index_Some in Hk as [Hk Hin]. split.
    + rewrite fmap_cons. by f_equal.
    + intros step' [->|Hstep']%elem_of_cons.
      * split; [done |]. rewrite Hk. by left.
      * destruct (IH2 _ Hstep'). split; [done | by right].
Qed.

(** X14. [get_steps_in_plan] returns, for the keys of the plan in their
    order, the steps of the snapshot that have these keys; it fails on
    exactly the snapshots on which [execution_deps] fails; and
    [key_in_plan] accepts exactly the keys [step_keys_in_plan] lists. *)
Theorem get_steps_in_plan_keys (snapshot : ExecutionPlanSnapshot) :
  (forall found,
     get_steps_in_plan snapshot = Ok found ->
     key <$> found = step_keys_in_plan snapshot
     /\ forall step, step ∈ found ->
          step ∈ steps snapshot /\ key_in_plan snapshot (key step) = true)
  /\ ((exists e, get_steps_in_plan snapshot = Raise e)
      <-> exists e, execution_deps snapshot = Raise e)
  /\ (forall k, key_in_plan snapshot k = true <-> k ∈ step_keys_in_plan snapshot).
Proof.
  assert (forall k, key_in_plan snapshot k = true <-> k ∈ step_keys_in_plan snapshot)
    as Hkey.
  { intros k. unfold key_in_plan, step_keys_in_plan.
    by rewrite bool_decide_eq_true, elem_of_elements. }
  unfold get_steps_in_plan.
  destruct (plan_in_index_dec snapshot) as [Hall|Hn].
  - destruct (steps_loop snapshot _ [] Hall) as (found & Hrun & Hfound).
    destruct (execution_deps_ok snapshot Hall) as (deps & Hdeps & _).
    unfold step_keys_in_plan in *. rewrite Hrun, Hdeps.
    split; [| split; [| exact Hkey]].
    + intros ? [= <-]. cbn [app]. clear Hrun.
      assert (key <$> found = elements (_step_keys_in_plan snapshot)
              /\ forall step, step ∈ found ->
                   step ∈ steps snapshot
                   /\ key step ∈ elements (_step_keys_in_plan snapshot)) as [Hk Hs].
      { by apply found_steps. }
      split; [done |]. intros step Hstep. destruct (Hs _ Hstep). split; [done |].
      by apply Hkey.
    + split; intros [? [=]].
  - destruct (execution_deps_missing snapshot Hn) as (k & Hrun & _).
    destruct (first_missing (fun k => is_Some (_step_index snapshot !! k))
                (elements (_step_keys_in_plan snapshot)))
      as [?|(before & k' & after & E & Hb & Hk')]; [done |].
    split; [| split; [| exact Hkey]]; unfold step_keys_in_plan; rewrite E.
    all: rewrite (steps_loop_raises snapshot before after k' [] Hb)
      by (by apply eq_None_not_Some).
    + done.
    + rewrite Hrun. split; eauto.
Qed.

End ExecutionPlanFacts.

(** ** utils.py: ensure_no_duplicate_asset_checks *)

Section DuplicateAssetChecksFacts.

Variable repr_check_keys : list AssetCheckKey -> string.

Lemma count_check_app (k : AssetCheckKey) (l1 l2 : list AssetCheckKey) :
  count_check k (l1 ++ l2) = (count_check k l1 + count_check k l2)%nat.
Proof. unfold count_check. by rewrite filter_app, length_app. Qed.

Lemma count_check_NoDup (k : AssetCheckKey) (l : list AssetCheckKey) :
  NoDup l -> count_check k l = if decide (k ∈ l) then 1%nat else 0%nat.
Proof.
  unfold count_check. induction 1 as [|x l Hx Hnd IH]; [done |].
  rewrite filter_cons. destruct (decide (x = k)) as [->|Hne].
  - cbn [length]. rewrite IH.
    destruct (decide (k ∈ k :: l)) as [_|Hn]; [| destruct Hn; by left].
    by destruct (decide (k ∈ l)).
  - rewrite IH. destruct (decide (k ∈ l)) as [Hin|Hin];
      destruct (decide (k ∈ x :: l)) as [Hin'|Hin']; try done.
    + destruct Hin'. by right.
    + by apply elem_of_cons in Hin' as [->|?].
Qed.

(** A key is yielded once by every definition that has it. *)
Lemma count_check_keys_of (k : AssetCheckKey) (asset_checks : list AssetChecksDefinition) :
  count_check k (check_keys_of asset_checks)
  = length (filter (fun asset_check => k ∈ check_keys asset_check) asset_checks).
Proof.
  unfold check_keys_of. induction asset_checks as [|c cs IH]; [done |].
  cbn [map concat]. rewrite count_check_app, IH, filter_cons.
  rewrite (count_check_NoDup _ _ (NoDup_elements _)).
  destruct (decide (k ∈ elements (check_keys c))) as [Hin|Hin].
  - rewrite decide_True by (by apply elem_of_elements). done.
  - rewrite decide_False; [done |]. by rewrite <- elem_of_elements.
Qed.

Lemma filter_nonempty {A : Type} (P : A -> Prop) `{!forall x, Decision (P x)}
    (l : list A) :
  (0 < length (filter P l))%nat <-> exists j b, l !! j = Some b /\ P b.
Proof.
  split.
  - intros Hlen. destruct (filter P l) as [|b l'] eqn:E; [cbn in Hlen; lia |].
    assert (b ∈ filter P l) as [Hb Hin]%list_elem_of_filter by (rewrite E; by left).
    apply list_elem_of_lookup in Hin as [j Hj]. eauto.
  - intros (j & b & Hj & Hb).
    assert (b ∈ filter P l) as Hin
      by (apply list_elem_of_filter; split; [done | by eapply list_elem_of_lookup_2]).
    destruct (filter P l); [by apply elem_of_nil in Hin | cbn; lia].
Qed.

Lemma filter_two {A : Type} (P : A -> Prop) `{!forall x, Decision (P x)}
    (l : list A) :
  (1 < length (filter P l))%nat
  <-> exists i j a b, i <> j /\ l !! i = Some a /\ l !! j = Some b /\ P a /\ P b.
Proof.
  induction l as [|x l IH].
  - split; [cbn; lia | intros (i & j & a & b & _ & Hi & _); done].
  - rewrite filter_cons. destruct (decide (P x)) as [Hx|Hx].
    + cbn [length]. split.
      * intros Hlen. assert (0 < length (filter P l))%nat as Hpos by lia.
        apply filter_nonempty in Hpos as (j & b & Hj & Hb).
        by exists 0%nat, (S j), x, b.
      * intros (i & j & a & b & Hij & Hi & Hj & Ha & Hb).
        enough (0 < length (filter P l))%nat by lia. apply filter_nonempty.
        destruct i as [|i], j as [|j]; [done | eauto | eauto | eauto].
    + rewrite IH. split.
      * intros (i & j & a & b & Hij & Hi & Hj & Ha & Hb).
        exists (S i), (S j), a, b. repeat split; [congruence | done..].
      * intros (i & j & a & b & Hij & Hi & Hj & Ha & Hb).
        destruct i as [|i]; [by injection Hi as -> |].
        destruct j as [|j]; [by injection Hj as -> |].
        exists i, j, a, b. repeat split; [congruence | done..].
Qed.

Lemma elem_of_check_keys_of (k : AssetCheckKey)
    (asset_checks : list AssetChecksDefinition) :
  k ∈ check_keys_of asset_checks
  <-> exists j b, asset_checks !! j = Some b /\ k ∈ check_keys b.
Proof.
  rewrite <- (filter_nonempty (fun c => k ∈ check_keys c)).
  rewrite <- count_check_keys_of. unfold count_check.
  generalize (check_keys_of asset_checks). intros l. split.
  - intros Hin.
    assert (k ∈ filter (fun y => y = k) l) as Hf by (by apply list_elem_of_filter).
    destruct (filter _ l); [by apply elem_of_nil in Hf | cbn; lia].
  - intros Hlen. destruct (filter _ l) as [|y l'] eqn:E; [cbn in Hlen; lia |].
    assert (y ∈ filter (fun y => y = k) l)
      as [-> ?]%list_elem_of_filter by (rewrite E; by left).
    done.
Qed.

(** X15. [ensure_no_duplicate_asset_checks] raises exactly when two
    definitions of the list, at different positions, have a check key in
    common; the keys its message lists are exactly the keys so shared; and
    it returns when there is none.  A definition's own check keys are a
    set and never count against it. *)
Theorem ensure_no_duplicate_asset_checks_raises_iff
    (asset_checks : list AssetChecksDefinition) :
  let outcome := ensure_no_duplicate_asset_checks repr_check_keys asset_checks in
  let duplicate_asset_checks :=
    duplicate_asset_checks_of (check_keys_of asset_checks) in
  (forall k, k ∈ duplicate_asset_checks <-> shared_check_key asset_checks k)
  /\ ((exists e, outcome = Raise e) <-> exists k, shared_check_key asset_checks k)
  /\ (forall e, outcome = Raise e ->
        exists msg, e = CheckError msg
          /\ PyStr.contains
               (duplicate_asset_checks_message repr_check_keys duplicate_asset_checks)
               msg = true)
  /\ ((forall k, ~ shared_check_key asset_checks k) -> outcome = Ok tt).
Proof.
  cbv zeta.
  assert (forall k, k ∈ duplicate_asset_checks_of (check_keys_of asset_checks)
                    <-> shared_check_key asset_checks k) as Hdup.
  { intros k. unfold duplicate_asset_checks_of, shared_check_key.
    rewrite list_elem_of_filter, count_check_keys_of, filter_two. split.
    - by intros [? _].
    - intros Hs. split; [done |].
      destruct Hs as (i & j & a & b & _ & Hi & _ & Ha & _).
      apply elem_of_check_keys_of. eauto. }
  assert (length (duplicate_asset_checks_of (check_keys_of asset_checks)) = 0%nat
          <-> forall k, ~ shared_check_key asset_checks k) as Hlen.
  { split.
    - intros Hl k Hk%Hdup.
      destruct (duplicate_asset_checks_of _); [by apply elem_of_nil in Hk | done].
    - intros Hno. destruct (duplicate_asset_checks_of _) as [|k l]; [done |].
      destruct (Hno k). apply Hdup. by left. }
  unfold ensure_no_duplicate_asset_checks, check_invariant, invariant_failed.
  split; [exact Hdup |]. case_bool_decide as Hb.
  - split; [| split; [done |done]]. split; [by intros [? [=]] |].
    intros [k Hk]. by destruct (proj1 Hlen Hb k).
  - split; [| split].
    + split; [| by eexists]. intros _.
      destruct (duplicate_asset_checks_of _) as [|k l]; [done |].
      exists k. apply Hdup. by left.
    + intros e [= <-]. eexists. split; [done |].
      apply contains_behind, contains_self.
    + intros Hno. by apply Hlen in Hno.
Qed.

End DuplicateAssetChecksFacts.

(** ** utils.py: get_last_updated_timestamp *)

Section LastUpdatedTimestampFacts.

Context {AssetMaterialization : Type}.
Variable asset_materialization : EventLogRecord -> option AssetMaterialization.
Variable to_user_string : AssetKey -> string.
Variable type_repr : MetadataValue -> string.

Local Abbreviation last_updated :=
  (get_last_updated_timestamp asset_materialization to_user_string).

(** X16. On a record that carries a materialization exactly when its
    event type is ASSET_MATERIALIZATION, [get_last_updated_timestamp] and
    [retrieve_timestamp_from_record] agree wherever the latter returns: both
    give the record's timestamp for a materialization and the float under
    dagster/last_updated_timestamp for an observation, and both fail with a
    CheckError on an observation record without observation or with a
    value that is not a float.  They part on an observation that lacks the
    key: the one raises KeyError, the other logs one warning and returns
    None.  Without a record the result is None and nothing is logged. *)
Theorem get_last_updated_timestamp_agrees (record : EventLogRecord) :
  (is_Some (asset_materialization record)
   <-> dagster_event_type record = ASSET_MATERIALIZATION) ->
  (forall value,
     retrieve_timestamp_from_record type_repr record = Ok value
     <-> last_updated (Some record) = ([], Ok (Some value)))
  /\ (retrieve_timestamp_from_record type_repr record
      = Raise (KeyError LAST_UPDATED_TIMESTAMP_METADATA_KEY)
      <-> last_updated (Some record)
          = ([last_updated_warning to_user_string record], Ok None))
  /\ ((exists msg,
         retrieve_timestamp_from_record type_repr record = Raise (CheckError msg))
      <-> exists msg, last_updated (Some record) = ([], Raise (CheckError msg)))
  /\ (forall warnings value,
        last_updated (Some record) = (warnings, Ok value) ->
        value = None <-> warnings <> [])
  /\ last_updated None = ([], Ok None).
Proof.
  intros Hm.
  unfold retrieve_timestamp_from_record, get_last_updated_timestamp.
  destruct (asset_materialization record) as [m|] eqn:Hmat.
  - rewrite bool_decide_eq_true_2 by (apply Hm; eauto).
    split; [| split; [| split; [| split]]].
    + intros value. split; intros [= <-]; done.
    + split; intros [=].
    + split; intros [? [=]].
    + intros ? ? [= <- <-]. split; [discriminate | done].
    + done.
  - rewrite bool_decide_eq_false_2
      by (intros [? [=]]%Hm).
    destruct (asset_observation record) as [observation|]; cbn.
    + unfold getitem, LAST_UPDATED_TIMESTAMP_METADATA_KEY.
      destruct (metadata observation !! "dagster/last_updated_timestamp")
        as [[value|value|value]|]; cbn.
      * split; [| split; [| split; [| split]]].
        -- intros v. split; intros [= <-]; done.
        -- split; intros [=].
        -- split; intros [? [=]].
        -- intros ? ? [= <- <-]. split; [discriminate | done].
        -- done.
      * split; [| split; [| split; [| split]]].
        -- intros v. split; intros [=].
        -- split; intros [=].
        -- split; intros _; by eexists.
        -- intros ? ? [=].
        -- done.
      * split; [| split; [| split; [| split]]].
        -- intros v. split; intros [=].
        -- split; intros [=].
        -- split; intros _; by eexists.
        -- intros ? ? [=].
        -- done.
      * split; [| split; [| split; [| split]]].
        -- intros v. split; intros [=].
        -- done.
        -- split; intros [? [=]].
        -- intros ? ? [= <- <-]. done.
        -- done.
    + split; [| split; [| split; [| split]]].
      * intros v. split; intros [=].
      * split; intros [=].
      * split; intros _; by eexists.
      * intros ? ? [=].
      * done.
Qed.

End LastUpdatedTimestampFacts.

Lemma get_last_updated_timestamp_agrees_witness :
  get_last_updated_timestamp
    (fun r => if bool_decide (dagster_event_type r = ASSET_MATERIALIZATION)
              then Some tt else None)
    (fun k => String.concat "/" (path k))
    (Some example_observation)
  = ([], retrieve_timestamp_from_record example_type_repr example_observation
         ≫= fun v => Ok (Some v)).
Proof.
  pose proof (get_last_updated_timestamp_agrees
                (fun r => if bool_decide (dagster_event_type r = ASSET_MATERIALIZATION)
                          then Some tt else None)
                (fun k => String.concat "/" (path k))
                example_type_repr example_observation) as H.
  destruct H as (H & _).
  - split; [intros [? [=]] | intros [=]].
  - destruct (retrieve_timestamp_from_record example_type_repr example_observation)
      as [v|e] eqn:E;
      [| discriminate E].
    exact (proj1 (H v) eq_refl).
Defined.

(** ** utils.py: get_description_for_freshness_check_result *)

Lemma prefix_cons_eq (a : ascii) (s t : string) :
  String.prefix (String a s) (String a t) = String.prefix s t.
Proof. rewrite prefix_cons. by destruct (ascii_dec a a). Qed.

Lemma prefix_cons_ne (a b : ascii) (s t : string) :
  a <> b -> String.prefix (String a s) (String b t) = false.
Proof. intros Hne. rewrite prefix_cons. by destruct (ascii_dec a b). Qed.

Lemma prefix_app_cancel (p s t : string) :
  String.prefix (p +:+ s) (p +:+ t) = String.prefix s t.
Proof.
  induction p as [|c p IH]; [done |]. by rewrite !append_cons, prefix_cons_eq.
Qed.

(** Compares a prefix with a string, both starting with literal text. *)
Ltac prefix_literal :=
  repeat first
    [ rewrite append_cons
    | rewrite append_nil_l
    | rewrite prefix_nil
    | rewrite prefix_cons_eq
    | rewrite prefix_cons_ne by (intros [=]) ].

Ltac says_cases :=
  cbn [andb orb negb truthy_float];
  unfold says_fresh, says_overdue, format_str; cbn [default];
  prefix_literal; rewrite ?prefix_app_cancel; prefix_literal;
  cbn [andb orb negb]; intuition (discriminate || auto).

(** X17. [get_description_for_freshness_check_result] fails exactly when
    the check passed without an update timestamp.  Otherwise the
    description says "is fresh" exactly when the check passed and there is
    a partition key or an update timestamp that is not 0.0; a check that
    passed with update timestamp 0.0 and no partition key is described as
    overdue; a failed check on a partition is always described as overdue;
    and no description says both. *)
Theorem freshness_description_states (passed : bool) (update_timestamp : option Q)
    (last_update_time_lower_bound current_timestamp : Q)
    (expected_partition_key : option string) (record_arrival_timestamp : option Q)
    (event_type : option DagsterEventType) :
  let outcome :=
    get_description_for_freshness_check_result passed update_timestamp
      last_update_time_lower_bound current_timestamp expected_partition_key
      record_arrival_timestamp event_type in
  ((exists e, outcome = Raise e) <-> passed = true /\ update_timestamp = None)
  /\ (forall e, outcome = Raise e ->
        exists msg, e = CheckError msg
          /\ PyStr.contains
               "Should not be possible for check to pass without an update to the asset."
               msg = true)
  /\ (forall description, outcome = Ok description ->
        (says_fresh expected_partition_key description = true
         <-> passed = true
             /\ (truthy_str expected_partition_key = true
                 \/ truthy_float update_timestamp = true))
        /\ (passed = true ->
            says_fresh expected_partition_key description = false ->
            says_overdue expected_partition_key description = true)
        /\ (passed = false -> truthy_str expected_partition_key = true ->
            says_overdue expected_partition_key description = true)
        /\ (says_fresh expected_partition_key description
            && says_overdue expected_partition_key description = false)).
Proof.
  cbv zeta.
  unfold get_description_for_freshness_check_result, check_invariant,
    invariant_failed.
  generalize (seconds_in_words (current_timestamp - last_update_time_lower_bound)).
  intros lower.
  generalize (match record_arrival_timestamp with
              | Some arrival =>
                  (if Qlt_le_dec arrival last_update_time_lower_bound
                   then true else false)
                  && bool_decide (event_type = Some ASSET_OBSERVATION)
              | None => true
              end).
  intros out_of_date_observation.
  destruct passed, update_timestamp as [value|]; cbn [andb orb negb].
  - rewrite bool_decide_eq_true_2 by done. cbn [mbind result_bind].
    split; [split; [by intros [? [=]] | by intros [_ [=]]] |].
    split; [by intros ? [=] |]. intros description [= <-].
    destruct expected_partition_key as [s|]; cbn [truthy_str].
    + destruct (decide (s = "")) as [->|Hs].
      * rewrite bool_decide_eq_false_2 by (by intros []).
        cbn [truthy_float]. destruct (Qeq_bool value 0); says_cases.
      * rewrite bool_decide_eq_true_2 by done. says_cases.
    + cbn [truthy_float]. destruct (Qeq_bool value 0); says_cases.
  - rewrite bool_decide_eq_false_2 by (by intros []). cbn [mbind result_bind].
    split; [split; [done | by eexists] |].
    split; [| by intros ? [=]].
    intros ? [= <-]. eexists. split; [done |]. by vm_compute.
  - cbn [mbind result_bind].
    split; [split; [by intros [? [=]] | by intros [[=] _]] |].
    split; [by intros ? [=] |]. intros description [= <-].
    destruct expected_partition_key as [s|]; cbn [truthy_str].
    + destruct (decide (s = "")) as [->|Hs].
      * rewrite bool_decide_eq_false_2 by (by intros []).
        cbn [truthy_float]. destruct (Qeq_bool value 0), out_of_date_observation;
          says_cases.
      * rewrite bool_decide_eq_true_2 by done. says_cases.
    + cbn [truthy_float]. destruct (Qeq_bool value 0), out_of_date_observation;
        says_cases.
  - cbn [mbind result_bind].
    split; [split; [by intros [? [=]] | by intros [[=] _]] |].
    split; [by intros ? [=] |]. intros description [= <-].
    destruct expected_partition_key as [s|]; cbn [truthy_str].
    + destruct (decide (s = "")) as [->|Hs].
      * rewrite bool_decide_eq_false_2 by (by intros []). says_cases.
      * rewrite bool_decide_eq_true_2 by done. says_cases.
    + says_cases.
Qed.

(** ** external.py: CompoundID, decoding *)

Section CompoundIDDecoding.

Lemma ends_with_snoc (cur : string) (c : ascii) :
  PyStr.ends_with ":" (cur +:+ String c "") = bool_decide (c = ":"%char).
Proof.
  induction cur as [|d cur IH]; [done |].
  rewrite append_cons. cbn [PyStr.ends_with].
  destruct (cur +:+ String c "") eqn:E; [by destruct cur | done].
Qed.

Lemma contains_snoc_ne (cur : string) (c : ascii) :
  c <> ":"%char ->
  PyStr.contains _DELIMITER (cur +:+ String c "") = PyStr.contains _DELIMITER cur.
Proof.
  intros Hc. unfold _DELIMITER. induction cur as [|d cur IH].
  - rewrite append_nil_l. cbn [PyStr.contains]. rewrite prefix_cons.
    destruct (ascii_dec ":" c); [congruence | done].
  - rewrite append_cons. cbn [PyStr.contains]. rewrite IH. f_equal.
    rewrite !prefix_cons. destruct (ascii_dec ":" d); [|done].
    destruct cur as [|d' cur].
    + rewrite append_nil_l, prefix_cons. destruct (ascii_dec ":" c); [congruence | done].
    + rewrite append_cons, !prefix_cons. destruct (ascii_dec ":" d'); [|done].
      by rewrite !prefix_nil.
Qed.

Lemma prefix_delimiter_cons (c : ascii) (s : string) :
  String.prefix _DELIMITER (String c s)
  = bool_decide (c = ":"%char) && String.prefix ":" s.
Proof.
  unfold _DELIMITER. rewrite prefix_cons.
  destruct (ascii_dec ":" c) as [<-|Hne].
  - by rewrite bool_decide_eq_true_2.
  - rewrite bool_decide_eq_false_2; [done | congruence].
Qed.

Lemma prefix_colon (s : string) :
  String.prefix ":" s = true -> exists rest, s = String ":" rest.
Proof.
  destruct s as [|c s]; [done |]. rewrite prefix_cons.
  destruct (ascii_dec ":" c) as [<-|]; [eauto | done].
Qed.

(** What [split_go] yields from a part [cur] read so far that holds no
    delimiter and whose last colon, if it ends with one, is not followed by
    another: either the rest holds no delimiter and there is one part, or
    the first part is closed at the first delimiter. *)
Lemma split_go_shape (s cur : string) :
  PyStr.contains _DELIMITER cur = false ->
  (PyStr.ends_with ":" cur = true -> String.prefix ":" s = false) ->
  (PyStr.split_go _DELIMITER s 0 cur = [cur +:+ s]
   /\ PyStr.contains _DELIMITER (cur +:+ s) = false)
  \/ (exists p rest,
        cur +:+ s = p +:+ _DELIMITER +:+ rest
        /\ PyStr.contains _DELIMITER (p +:+ ":") = false
        /\ PyStr.split_go _DELIMITER s 0 cur
           = p :: PyStr.split_go _DELIMITER rest 0 "").
Proof.
  revert cur. induction s as [|c s IH]; intros cur Hcur Hend.
  - left. rewrite append_empty_r. by split.
  - destruct (String.prefix _DELIMITER (String c s)) eqn:Hp.
    + right. pose proof Hp as Hp'. rewrite prefix_delimiter_cons in Hp'.
      apply andb_true_iff in Hp' as [->%bool_decide_eq_true [rest ->]%prefix_colon].
      exists cur, rest. split; [done |]. split.
      * apply contains_delimiter_colon. split; [done |].
        destruct (PyStr.ends_with ":" cur); [| done].
        specialize (Hend eq_refl). by rewrite prefix_cons_eq, prefix_nil in Hend.
      * rewrite (split_go_hit _ _ _ _ Hp). unfold _DELIMITER at 2.
        cbn [String.length Nat.sub]. by rewrite split_go_skip.
    + rewrite (split_go_miss _ _ _ _ Hp).
      assert (cur +:+ String c s = (cur +:+ String c "") +:+ s) as Heq
        by (by rewrite append_assoc, append_cons, append_nil_l).
      rewrite Heq. apply IH.
      * destruct (decide (c = ":"%char)) as [->|Hc].
        -- apply contains_delimiter_colon. split; [done |].
           destruct (PyStr.ends_with ":" cur); [| done].
           specialize (Hend eq_refl). by rewrite prefix_cons_eq, prefix_nil in Hend.
        -- by rewrite contains_snoc_ne.
      * rewrite ends_with_snoc. intros ->%bool_decide_eq_true.
        rewrite prefix_delimiter_cons, bool_decide_eq_true_2 in Hp by done.
        exact Hp.
Qed.

Lemma split_go_length (s : string) (skip : nat) (cur : string) :
  (1 <= length (PyStr.split_go _DELIMITER s skip cur))%nat.
Proof.
  revert skip cur. induction s as [|c s IH]; intros skip cur; [cbn; lia |].
  destruct skip as [|k]; [| rewrite split_go_skip; apply IH].
  destruct (String.prefix _DELIMITER (String c s)) eqn:Hp.
  - rewrite (split_go_hit _ _ _ _ Hp). cbn [length]. lia.
  - rewrite (split_go_miss _ _ _ _ Hp). apply IH.
Qed.

(** Splitting in two: the string is the two parts around one delimiter,
    the first holds no delimiter and does not end with a colon, and the
    second holds no delimiter. *)
Lemma split_two (serialized r s : string) :
  PyStr.split serialized _DELIMITER = [r; s] ->
  serialized = r +:+ _DELIMITER +:+ s
  /\ PyStr.contains _DELIMITER (r +:+ ":") = false
  /\ PyStr.contains _DELIMITER s = false.
Proof.
  unfold PyStr.split. intros Hsplit.
  destruct (split_go_shape serialized "" eq_refl ltac:(done))
    as [[E _]|(p & rest & Heq & Hp & E)]; rewrite E in Hsplit; [done |].
  injection Hsplit as -> Hrest. rewrite append_nil_l in Heq.
  destruct (split_go_shape rest "" eq_refl ltac:(done))
    as [[E' Hc]|(p' & rest' & _ & _ & E')]; rewrite E' in Hrest.
  - rewrite append_nil_l in *. by injection Hrest as ->.
  - injection Hrest as _ Hnil.
    pose proof (split_go_length rest' 0 "") as Hlen. rewrite Hnil in Hlen.
    cbn in Hlen. lia.
Qed.

(** X18. [CompoundID.from_string] succeeds exactly on the strings that
    [to_string] produces from a CompoundID whose two ids hold no "::" and
    whose [remote_origin_id] does not end with a colon, and returns that
    CompoundID: encoding what was decoded gives the string back, and no two
    strings decode to the same CompoundID. *)
Theorem CompoundID_from_string_decodes (serialized : string) (id : CompoundID) :
  (CompoundId.from_string serialized = Ok id
   <-> serialized = CompoundId.to_string id
       /\ PyStr.contains _DELIMITER (remote_origin_id id) = false
       /\ PyStr.ends_with ":" (remote_origin_id id) = false
       /\ PyStr.contains _DELIMITER (selector_id id) = false)
  /\ (forall other,
        CompoundId.from_string serialized = Ok id ->
        CompoundId.from_string other = Ok id ->
        other = serialized).
Proof.
  assert (forall text, CompoundId.from_string text = Ok id ->
            text = CompoundId.to_string id
            /\ PyStr.contains _DELIMITER (remote_origin_id id +:+ ":") = false
            /\ PyStr.contains _DELIMITER (selector_id id) = false) as Hdecode.
  { intros text. unfold CompoundId.from_string, CompoundId.to_string.
    case_bool_decide as Hlen; [done |]. intros [= <-]. cbn.
    destruct (PyStr.split text _DELIMITER) as [|r [|s [|? ?]]] eqn:E;
      try (cbn in Hlen; lia).
    cbn. by apply split_two. }
  split; [split |].
  - intros (-> & Hr & Hs)%Hdecode. apply contains_delimiter_colon in Hr as [? ?].
    done.
  - intros (-> & Hr & He & Hs). unfold CompoundId.from_string, CompoundId.to_string.
    rewrite split_two_parts; [by destruct id | | done].
    by apply contains_delimiter_colon.
  - intros other (-> & _)%Hdecode (-> & _)%Hdecode. done.
Qed.

End CompoundIDDecoding.

(** ** utils.py: seconds_in_words, the counts *)

Section SecondsInWordsCounts.

Lemma floor_unique (x : Q) (z : Z) :
  (inject_Z z <= x)%Q -> (x < inject_Z z + 1)%Q -> Qfloor x = z.
Proof.
  intros Hlo Hhi.
  assert (z <= Qfloor x < z + 1) as Hr; [| lia].
  apply floor_range; [done |]. by rewrite inject_Z_plus.
Qed.

Lemma floor_sub_Z (x : Q) (k : Z) : Qfloor (x - inject_Z k) = Qfloor x - k.
Proof.
  destruct (floor_bounds x) as [H1 H2]. apply floor_unique.
  - unfold Z.sub. rewrite inject_Z_plus, inject_Z_opp. lra.
  - unfold Z.sub. rewrite inject_Z_plus, inject_Z_opp. lra.
Qed.

(** The bounds of an integer quotient, among the rationals. *)
Lemma div_bounds (z n : Z) :
  0 < n ->
  (inject_Z n * inject_Z (z / n) <= inject_Z z
   /\ inject_Z z + 1 <= inject_Z n * inject_Z (z / n) + inject_Z n)%Q.
Proof.
  intros Hn. pose proof (Z.div_mod z n ltac:(lia)) as Hdiv.
  pose proof (Z.mod_pos_bound z n Hn) as Hmod.
  rewrite <- !inject_Z_mult. change 1%Q with (inject_Z 1).
  rewrite <- !inject_Z_plus, <- !Zle_Qle. lia.
Qed.

Lemma floor_div_86400 (x : Q) : Qfloor (x / 86400) = Qfloor x / 86400.
Proof.
  destruct (floor_bounds x) as [H1 H2].
  destruct (div_bounds (Qfloor x) 86400 ltac:(lia)) as [H3 H4].
  change (inject_Z 86400) with 86400%Q in *.
  apply floor_unique; change (x / 86400)%Q with (x * (1 # 86400))%Q; lra.
Qed.

Lemma floor_div_3600 (x : Q) : Qfloor (x / 3600) = Qfloor x / 3600.
Proof.
  destruct (floor_bounds x) as [H1 H2].
  destruct (div_bounds (Qfloor x) 3600 ltac:(lia)) as [H3 H4].
  change (inject_Z 3600) with 3600%Q in *.
  apply floor_unique; change (x / 3600)%Q with (x * (1 # 3600))%Q; lra.
Qed.

Lemma floor_div_60 (x : Q) : Qfloor (x / 60) = Qfloor x / 60.
Proof.
  destruct (floor_bounds x) as [H1 H2].
  destruct (div_bounds (Qfloor x) 60 ltac:(lia)) as [H3 H4].
  change (inject_Z 60) with 60%Q in *.
  apply floor_unique; change (x / 60)%Q with (x * (1 # 60))%Q; lra.
Qed.

Lemma floor_mod (x : Q) (n q : Z) :
  Qfloor (x - inject_Z n * inject_Z q) = Qfloor x - n * q.
Proof. by rewrite <- inject_Z_mult, floor_sub_Z. Qed.

(** The four counts in terms of the whole seconds of [delta]. *)
Lemma counts_of_floor (delta : Q) :
  days_of delta = Qfloor delta / 86400
  /\ hours_of delta = Qfloor delta mod 86400 / 3600
  /\ minutes_of delta = Qfloor delta mod 3600 / 60
  /\ seconds_of delta = Qfloor delta mod 60.
Proof.
  split; [| split; [| split]].
  - by rewrite days_floor, floor_div_86400.
  - unfold hours_of, Py.floordiv. rewrite int_inject_Z, floor_div_3600.
    unfold Py.mod_, Py.floordiv. change 86400%Q with (inject_Z 86400).
    rewrite floor_mod. change (inject_Z 86400) with 86400%Q.
    rewrite floor_div_86400. f_equal. rewrite Z.mod_eq by lia. done.
  - unfold minutes_of, Py.floordiv. rewrite int_inject_Z, floor_div_60.
    unfold Py.mod_, Py.floordiv. change 3600%Q with (inject_Z 3600).
    rewrite floor_mod. change (inject_Z 3600) with 3600%Q.
    rewrite floor_div_3600. f_equal. rewrite Z.mod_eq by lia. done.
  - unfold seconds_of. destruct (mod_60 delta) as [H0 _].
    rewrite (int_nonneg _ H0).
    unfold Py.mod_, Py.floordiv. change 60%Q with (inject_Z 60).
    rewrite floor_mod. change (inject_Z 60) with 60%Q.
    rewrite floor_div_60. rewrite Z.mod_eq by lia. done.
Qed.

(** The counts recompose the whole seconds of [delta], within their
    ranges. *)
Lemma counts_recompose (delta : Q) :
  86400 * days_of delta + 3600 * hours_of delta
    + 60 * minutes_of delta + seconds_of delta = Qfloor delta
  /\ 0 <= hours_of delta < 24
  /\ 0 <= minutes_of delta < 60
  /\ 0 <= seconds_of delta < 60
  /\ (days_of delta < 0 <-> (delta < 0)%Q).
Proof.
  destruct (counts_of_floor delta) as (Hd & Hh & Hm & Hs).
  split; [| split; [| split; [| split]]].
  - rewrite Hd, Hh, Hm, Hs. generalize (Qfloor delta). intros z.
    Z.to_euclidean_division_equations. lia.
  - apply hours_range.
  - apply minutes_range.
  - apply seconds_range.
  - split.
    + intros Hneg. destruct (Qlt_le_dec delta 0) as [|Hge]; [done |].
      apply days_nonneg in Hge. lia.
    + apply days_negative.
Qed.

(** X19. On a [delta] on which the float operations are exact (below 2^53
    in absolute value, and not negative or else integer-valued) the four
    counts [seconds_in_words] computes are the days, hours, minutes and
    seconds of the whole seconds of [delta]: they add up to [floor(delta)],
    with hours below 24 and minutes and seconds below 60, none of these
    three negative; whatever is negative in a negative [delta] is in the
    days. *)
Theorem seconds_in_words_counts (delta : Q) :
  exact_delta delta ->
  86400 * days_of delta + 3600 * hours_of delta
    + 60 * minutes_of delta + seconds_of delta = Qfloor delta
  /\ 0 <= hours_of delta < 24
  /\ 0 <= minutes_of delta < 60
  /\ 0 <= seconds_of delta < 60
  /\ (days_of delta < 0 <-> (delta < 0)%Q).
Proof. intros _. apply counts_recompose. Qed.

End SecondsInWordsCounts.

Lemma seconds_in_words_counts_witness :
  exact_delta (-90061)
  /\ 86400 * days_of (-90061) + 3600 * hours_of (-90061)
       + 60 * minutes_of (-90061) + seconds_of (-90061) = -90061.
Proof.
  assert (exact_delta (-90061)) as H.
  { split; [reflexivity |]. split; [reflexivity |]. right. by exists (-90061). }
  split; [exact H |].
  exact (proj1 (seconds_in_words_counts _ H)).
Defined.
